(** * Industrial protocol simulators: a shallow embedding and its properties

    The development follows the Python sources of the repository:

    - [bacnet/bacnet_server.py]  : the water tank ([WaterTank.update_tank])
      and the loop that mirrors it into the BACnet objects ([update_loop]);
    - [bacnet/bacnet_client.py]  : [read_prop], [write_prop] and [main];
    - [modbus/tcp_client.py]     : one pass of the polling loop;
    - [opcua/opcua_client.py], [opcua/opcua_server.py] : [parse_nodeid];
    - [siemens/snap7_client.py]  : one pass of the polling loop.

    Python floats are IEEE 754 binary64 numbers, modelled by the Standard
    Library's [spec_float] with [prec = 53] and [emax = 1024]; Python
    integers are [Z]; Python strings are [string] (code points below 128);
    a [bytearray] is a [list Z] read and updated by index.  Calls into the
    protocol libraries are inputs of the model: a function answers every
    request, and everything the program does to the outside (requests, log
    records, sleeps) is appended to a trace. *)

From Stdlib Require Import ZArith Bool List String Ascii SpecFloat Lia.
From Stdlib Require Import Numbers.DecimalString.
From stdpp Require Import base list.

Import ListNotations.
Local Open Scope Z_scope.

(* ===================================================================== *)
(** * Part I: definitions                                                 *)
(* ===================================================================== *)

(** ** Python floats *)

Module PyFloat.

Definition float : Type := spec_float.

Definition prec : Z := 53.
Definition emax : Z := 1024.

(** [x + y] on floats. *)
Definition fadd (x y : float) : float := SFadd prec emax x y.

(** The comparison operators; each is [False] as soon as one side is
    a NaN. *)
Definition flt (x y : float) : bool := SFltb x y.
Definition fle (x y : float) : bool := SFleb x y.
Definition fgt (x y : float) : bool := SFltb y x.
Definition fge (x y : float) : bool := SFleb y x.
Definition feq (x y : float) : bool := SFeqb x y.

(** The float written as the integer literal [z] followed by [.0]. *)
Definition of_Z (z : Z) : float := binary_normalize prec emax z 0 false.

(** [m * 2^e], rounded: used for literals such as [0.5]. *)
Definition of_scaled (m e : Z) : float := binary_normalize prec emax m e false.

(** The builtins [min(a, b)] and [max(a, b)]: the first argument is
    kept unless the second compares strictly below (above) it. *)
Definition min2 (a b : float) : float := if flt b a then b else a.
Definition max2 (a b : float) : float := if fgt b a then b else a.

Definition nan : float := S754_nan.

End PyFloat.

(** ** bacnet/bacnet_server.py *)

Module BacnetServer.
Import PyFloat.

(** [class WaterTank]: the attributes set by [__init__]. *)
Record WaterTank : Type := mkWaterTank {
  level : float;
  temperature : float;
  high_thresh : float;
  low_thresh : float;
  high_alarm : bool;
  low_alarm : bool
}.

(** [WaterTank.__init__(level, temperature, high_thresh, low_thresh)]. *)
Definition init (lvl temp hi lo : float) : WaterTank :=
  {| level := lvl; temperature := temp;
     high_thresh := hi; low_thresh := lo;
     high_alarm := false; low_alarm := false |}.

(** [WaterTank.update_tank].  The two draws [random.uniform(-1.0, 2.0)]
    and [random.uniform(-0.1, 0.1)] are the arguments [d_level] and
    [d_temp]; the [log.info] record is left out. *)
Definition update_tank (t : WaterTank) (d_level d_temp : float) : WaterTank :=
  let level1 := fadd (level t) d_level in
  let level2 := max2 (of_Z 0) (min2 (of_Z 100) level1) in
  let temperature1 := fadd (temperature t) d_temp in
  {| level := level2;
     temperature := temperature1;
     high_thresh := high_thresh t;
     low_thresh := low_thresh t;
     high_alarm := fge level2 (high_thresh t);
     low_alarm := fle level2 (low_thresh t) |}.

(** What [random.uniform(-1.0, 2.0)] can return: a float between the
    two bounds. *)
Definition level_draw (d : float) : bool :=
  fle (of_Z (-1)) d && fle d (of_Z 2).

(** The state the thread [update_loop] works on: the tank and the
    [presentValue] of the three BACnet objects. *)
Record Server : Type := mkServer {
  tank : WaterTank;
  level_obj : float;
  temp_obj : float;
  alarm_obj : Z
}.

(** The objects as [main] creates them ([presentValue=False] is [0]). *)
Definition start (lvl temp hi lo : float) : Server :=
  let t := init lvl temp hi lo in
  {| tank := t; level_obj := level t; temp_obj := temperature t;
     alarm_obj := 0 |}.

(** One pass of the body of [update_loop] after [time.sleep(5)]. *)
Definition update_loop_body (s : Server) (d_level d_temp : float) : Server :=
  let tank1 := update_tank (tank s) d_level d_temp in
  let alarm_active := high_alarm tank1 || low_alarm tank1 in
  {| tank := tank1;
     level_obj := level tank1;
     temp_obj := temperature tank1;
     alarm_obj := if alarm_active then 1 else 0 |}.

(** [n] passes of [update_loop]; pass [k] (counted from [0]) uses the
    draws [draws k]. *)
Fixpoint update_loop (n : nat) (draws : nat -> float * float) (s : Server) : Server :=
  match n with
  | O => s
  | S k =>
      let s1 := update_loop k draws s in
      update_loop_body s1 (fst (draws k)) (snd (draws k))
  end.

(** A BACnet write of [v] to the alarm object's [presentValue] by a
    remote client, between two passes of the loop. *)
Definition external_write_alarm (v : Z) (s : Server) : Server :=
  {| tank := tank s; level_obj := level_obj s; temp_obj := temp_obj s;
     alarm_obj := v |}.

(** The threshold condition on a tank: [level >= high_thresh or
    level <= low_thresh]. *)
Definition condition (t : WaterTank) : bool :=
  fge (level t) (high_thresh t) || fle (level t) (low_thresh t).

(** What the alarm logic sees of a server state. *)
Definition level_view (s : Server) : float * float * float * Z :=
  (level (tank s), high_thresh (tank s), low_thresh (tank s), alarm_obj s).

(** *** Example states *)

(** The tank of the examples: thresholds [90.0] and [10.0]. *)
Definition tank_at (lvl : float) : WaterTank :=
  init lvl (of_Z 20) (of_Z 90) (of_Z 10).

(** A server whose tank sits on the low threshold with the alarm
    raised: level [9.5], one pass with the draw [+0.5]. *)
Definition low_alarm_server : Server :=
  update_loop_body (start (of_scaled 19 (-1)) (of_Z 20) (of_Z 90) (of_Z 10))
                   (of_scaled 1 (-1)) (of_Z 0).

(** The scenario of section 8 of the specification: level [50.0], thresholds [90.0] and [10.0],
    every level draw [+5.0]; [temp0] and the temperature draws [dt]
    are free. *)
Definition scenario (temp0 : float) (dt : nat -> float) (n : nat) : Server :=
  update_loop n (fun k => (of_Z 5, dt k))
              (start (of_Z 50) temp0 (of_Z 90) (of_Z 10)).

End BacnetServer.

(** ** Python values as text *)

Module PyStr.
Local Open Scope string_scope.

(** [str(z)] for an integer. *)
Definition of_Z (z : Z) : string := NilEmpty.string_of_int (Z.to_int z).

(** [str(b)] for a boolean. *)
Definition of_bool (b : bool) : string := if b then "True" else "False".

Fixpoint join (sep : string) (l : list string) : string :=
  match l with
  | [] => ""
  | [x] => x
  | x :: r => x ++ sep ++ join sep r
  end.

(** [str(l)] for a list whose elements are rendered by [f]. *)
Definition of_list {A : Type} (f : A -> string) (l : list A) : string :=
  "[" ++ join ", " (List.map f l) ++ "]".

(** The line feed written [\n] in the sources. *)
Definition newline : string := String (ascii_of_nat 10) "".

End PyStr.

(** ** Programs with a trace and exceptions

    A program is run on the history of what happened so far; it returns
    the extended history and either the exception that ended it or its
    result.  Answers of the outside world may depend on the history. *)

Module Eff.

Inductive log_level : Type := INFO | ERROR.

(** What a program does to the outside: a [logging] record, a call into
    a library (with the answer it got), or [time.sleep]. *)
Inductive event (Call : Type) : Type :=
| Log (lvl : log_level) (msg : string)
| Io (c : Call)
| Sleep (seconds : Z).
Arguments Log {Call} lvl msg.
Arguments Io {Call} c.
Arguments Sleep {Call} seconds.

Section Defs.
Context {Call Exn : Type}.

Definition M (A : Type) : Type :=
  list (event Call) -> list (event Call) * (Exn + A).

Definition ret {A : Type} (a : A) : M A := fun h => (h, inr a).

Definition bind {A B : Type} (m : M A) (k : A -> M B) : M B :=
  fun h =>
    match m h with
    | (h1, inl x) => (h1, inl x)
    | (h1, inr a) => k a h1
    end.

Definition emit (e : event Call) : M unit := fun h => (h ++ [e], inr tt).

Definition raise {A : Type} (x : Exn) : M A := fun h => (h, inl x).

(** [try: body except ...: handler]: [handler x] is [None] for an
    exception no [except] clause matches. *)
Definition try_except {A : Type} (body : M A) (handler : Exn -> option (M A)) : M A :=
  fun h =>
    match body h with
    | (h1, inl x) =>
        match handler x with
        | Some k => k h1
        | None => (h1, inl x)
        end
    | (h1, inr a) => (h1, inr a)
    end.

(** A library call: [answer] is what the library does on the history
    so far, [record] the call as it appears in the trace, and
    [result] reads the answer as a return value or an exception. *)
Definition call {Ans A : Type} (answer : list (event Call) -> Ans)
           (record : Ans -> Call) (result : Ans -> Exn + A) : M A :=
  fun h => let a := answer h in (h ++ [Io (record a)], result a).

Definition log (lvl : log_level) (msg : string) : M unit := emit (Log lvl msg).

(** [time.sleep(seconds)]: [answer] is what the call does on the
    history so far and for that interval: it returns, or it raises
    ([ValueError] for a negative interval, [KeyboardInterrupt] on
    Ctrl+C). *)
Definition sleep (answer : list (event Call) -> Z -> Exn + unit) (seconds : Z) : M unit :=
  fun h => (h ++ [Sleep seconds], answer h seconds).

(** [m] keeps the property [Q] of histories. *)
Definition keeps (Q : list (event Call) -> Prop) {A : Type} (m : M A) : Prop :=
  forall h, Q h -> Q (fst (m h)).

(** The trace and the outcome of a program started on an empty
    history. *)
Definition trace {A : Type} (m : M A) : list (event Call) := fst (m []).
Definition outcome {A : Type} (m : M A) : Exn + A := snd (m []).

End Defs.

Declare Scope eff_scope.
Delimit Scope eff_scope with eff.
Notation "x <- m ;; k" := (bind m (fun x => k))
  (at level 100, m at next level, right associativity) : eff_scope.
Notation "m ;;; k" := (bind m (fun _ => k))
  (at level 100, right associativity) : eff_scope.

End Eff.

(** ** modbus/tcp_client.py *)

Module ModbusClient.
Import Eff.
Local Open Scope string_scope.
Local Open Scope eff_scope.

(** The four blocks of one pass of the polling loop, in order. *)
Inductive group : Type := Coils | Discretes | HoldingRegisters | InputRegisters.

Definition groups : list group := [Coils; Discretes; HoldingRegisters; InputRegisters].

Definition group_eqb (g1 g2 : group) : bool :=
  match g1, g2 with
  | Coils, Coils | Discretes, Discretes
  | HoldingRegisters, HoldingRegisters | InputRegisters, InputRegisters => true
  | _, _ => false
  end.

(** The values read from [modbus_config.ini]. *)
Record config : Type := mkConfig {
  start_address : group -> Z;
  count : group -> Z;
  poll_interval : Z
}.

(** A response object: [isError()], [str(resp)], [resp.bits] and
    [resp.registers]. *)
Record response : Type := mkResponse {
  isError : bool;
  text : string;
  bits : list bool;
  registers : list Z
}.

(** Exceptions: the class the loop catches, and any other class
    (for instance pymodbus's [ConnectionException], or the
    [KeyboardInterrupt] and [ValueError] of [time.sleep]). *)
Inductive exception : Type :=
| ModbusIOException (msg : string)
| OtherException (msg : string).

(** What a read call does: return a response or raise. *)
Inductive answer : Type :=
| Returns (resp : response)
| Raises (ex : exception).

(** [client.read_coils], [read_discrete_inputs], [read_holding_registers]
    and [read_input_registers], with the answer received. *)
Inductive call : Type :=
| Read (g : group) (address count : Z) (a : answer).

Abbreviation event := (Eff.event call).

(** The pymodbus client: its answer to a read, given the history. *)
Definition modbus_client : Type := list event -> group -> Z -> Z -> answer.

Definition read (client : modbus_client) (g : group) (address cnt : Z)
  : M (Call := call) (Exn := exception) response :=
  Eff.call (fun h => client h g address cnt)
           (Read g address cnt)
           (fun a => match a with Returns r => inr r | Raises ex => inl ex end).

(** The texts that differ between the four blocks. *)
Definition error_name (g : group) : string :=
  match g with
  | Coils => "coils"
  | Discretes => "discrete inputs"
  | HoldingRegisters => "holding registers"
  | InputRegisters => "input registers"
  end.

Definition values_name (g : group) : string :=
  match g with
  | Coils => "Coils"
  | Discretes => "Discretes"
  | HoldingRegisters => "Holding Registers"
  | InputRegisters => "Input Registers"
  end.

Definition exception_name (g : group) : string :=
  match g with
  | Coils => "coils"
  | Discretes => "discretes"
  | HoldingRegisters => "HR"
  | InputRegisters => "IR"
  end.

(** [resp.bits] for the two bit blocks, [resp.registers] for the two
    register blocks. *)
Definition values (g : group) (resp : response) : string :=
  match g with
  | Coils | Discretes => PyStr.of_list PyStr.of_bool (bits resp)
  | HoldingRegisters | InputRegisters => PyStr.of_list PyStr.of_Z (registers resp)
  end.

Definition error_line (g : group) (resp : response) : string :=
  "Error reading " ++ error_name g ++ ": " ++ text resp.

Definition values_line (g : group) (address cnt : Z) (resp : response) : string :=
  values_name g ++ "[" ++ PyStr.of_Z address ++ ".."
    ++ PyStr.of_Z (address + cnt - 1)%Z ++ "] = " ++ values g resp.

Definition exception_line (g : group) (msg : string) : string :=
  "Modbus IOException (" ++ exception_name g ++ "): " ++ msg.

(** One block of the loop body; the source repeats it for the four
    groups, with the read method and the texts above changed. *)
Definition poll_group (client : modbus_client) (cfg : config) (g : group)
  : M (Call := call) (Exn := exception) unit :=
  if (0 <? count cfg g)%Z then
    try_except
      (resp <- read client g (start_address cfg g) (count cfg g) ;;
       if isError resp then
         log ERROR (error_line g resp)
       else
         log INFO (values_line g (start_address cfg g) (count cfg g) resp))
      (fun ex =>
         match ex with
         | ModbusIOException msg => Some (log ERROR (exception_line g msg))
         | OtherException _ => None
         end)
  else ret tt.

(** What [time.sleep] does, given the history and the interval. *)
Definition clock : Type := list event -> Z -> exception + unit.

(** One pass of the body of [while True] in [run_modbus_client]. *)
Definition poll_cycle (client : modbus_client) (sleeping : clock) (cfg : config)
  : M (Call := call) (Exn := exception) unit :=
  poll_group client cfg Coils ;;;
  poll_group client cfg Discretes ;;;
  poll_group client cfg HoldingRegisters ;;;
  poll_group client cfg InputRegisters ;;;
  log INFO ("Sleeping for " ++ PyStr.of_Z (poll_interval cfg) ++ " seconds..." ++ PyStr.newline) ;;;
  sleep sleeping (poll_interval cfg).

(** The number of read calls made for group [g] in a trace. *)
Definition is_read_of (g : group) (e : event) : bool :=
  match e with
  | Io (Read g' _ _ _) => group_eqb g g'
  | _ => false
  end.

Definition read_attempts (g : group) (tr : list event) : nat :=
  List.length (List.filter (is_read_of g) tr).

(** The failures the loop handles: an error response, or the exception
    class of its [except] clauses. *)
Definition handled (a : answer) : bool :=
  match a with
  | Raises (OtherException _) => false
  | _ => true
  end.

Definition failed (a : answer) : bool :=
  match a with
  | Returns resp => isError resp
  | Raises _ => true
  end.

Definition is_error_record (e : event) : bool :=
  match e with
  | Log ERROR _ => true
  | _ => false
  end.

Definition is_failed_read (e : event) : bool :=
  match e with
  | Io (Read _ _ _ a) => failed a
  | _ => false
  end.

(** The record one block writes for the answer to its read. *)
Definition block_log (g : group) (address cnt : Z) (a : answer) : list event :=
  match a with
  | Returns resp =>
      if isError resp then [Log ERROR (error_line g resp)]
      else [Log INFO (values_line g address cnt resp)]
  | Raises (ModbusIOException msg) => [Log ERROR (exception_line g msg)]
  | Raises (OtherException _) => []
  end.

(** What one block appends to the history [h]. *)
Definition segment (client : modbus_client) (cfg : config) (g : group)
           (h : list event) : list event :=
  if (0 <? count cfg g)%Z then
    let a := client h g (start_address cfg g) (count cfg g) in
    Io (Read g (start_address cfg g) (count cfg g) a)
       :: block_log g (start_address cfg g) (count cfg g) a
  else [].

(** The history after each of the four blocks, when none of them
    raises. *)
Definition after_coils (client : modbus_client) (cfg : config) : list event :=
  segment client cfg Coils [].
Definition after_discretes (client : modbus_client) (cfg : config) : list event :=
  after_coils client cfg ++ segment client cfg Discretes (after_coils client cfg).
Definition after_holding (client : modbus_client) (cfg : config) : list event :=
  after_discretes client cfg
    ++ segment client cfg HoldingRegisters (after_discretes client cfg).
Definition after_input (client : modbus_client) (cfg : config) : list event :=
  after_holding client cfg
    ++ segment client cfg InputRegisters (after_holding client cfg).

(** Every read in the trace is followed by its record. *)
Definition recorded (tr : list event) : Prop :=
  forall g a c ans, In (Io (Read g a c ans)) tr -> incl (block_log g a c ans) tr.

(** The client as it answers once the history [h0] has happened. *)
Definition shift (h0 : list event) (client : modbus_client) : modbus_client :=
  fun h => client (h0 ++ h)%list.

Definition shift_clock (h0 : list event) (sleeping : clock) : clock :=
  fun h => sleeping (h0 ++ h)%list.

(** [time.sleep] that returns, and one that is interrupted by Ctrl+C. *)
Definition returning : clock := fun _ _ => inr tt.
Definition interrupted : clock := fun _ _ => inl (OtherException "KeyboardInterrupt").

(** *** Example: the coils time out, the other three groups answer *)

Definition example_config : config :=
  {| start_address := fun _ => 0;
     count := fun g => match g with Coils | Discretes => 10 | _ => 5 end;
     poll_interval := 5 |}.

Definition example_client : modbus_client :=
  fun _ g _ _ =>
    match g with
    | Coils => Raises (ModbusIOException "No response received")
    | Discretes => Returns (mkResponse false "" [true; false] [])
    | HoldingRegisters => Returns (mkResponse false "" [] [17; 42])
    | InputRegisters => Returns (mkResponse false "" [] [7])
    end.

(** The holding registers are switched off in the configuration. *)
Definition example_config_skip : config :=
  {| start_address := fun _ => 0;
     count := fun g => match g with HoldingRegisters => 0 | _ => 2 end;
     poll_interval := 5 |}.

End ModbusClient.

(** ** bacnet/bacnet_client.py *)

Module BacnetClient.
Import Eff PyFloat.
Local Open Scope string_scope.
Local Open Scope eff_scope.

(** What [float(v)] does on a Python object [v]. *)
Inductive float_result : Type :=
| FloatOk (f : float)
| FloatValueError
| FloatTypeError.

(** A Python object handed over by bacpypes, as far as [main] looks at
    it: [str(v)] (for the f-strings) and [float(v)]. *)
Record pyobj : Type := mkObj {
  str : string;
  to_float : float_result
}.

(** [iocb.ioResponse]: [response.propertyValue] and the result of
    [response.propertyValue.cast_out(Real)] ([None] when the cast
    yields [None]). *)
Record response : Type := mkResponse {
  cast_out_Real : option pyobj;
  propertyValue : pyobj
}.

(** An I/O control block after [iocb.wait()]: [ioError] ([None] or the
    error, as text) and [ioResponse]. *)
Record iocb : Type := mkIocb {
  ioError : option string;
  ioResponse : option response
}.

Inductive request : Type :=
| ReadPropertyRequest (obj_type : string) (obj_inst : Z) (prop_id : string)
                      (pduDestination : string)
| WritePropertyRequest (obj_type : string) (obj_inst : Z) (prop_id : string)
                       (value : float) (pduDestination : string).

(** [self.app.request_io(request)] followed by [iocb.wait()], and the
    final [stop()]. *)
Inductive call : Type :=
| RequestIo (req : request) (io : iocb)
| Stop.

Inductive exception : Type := ValueError | TypeError.

Abbreviation event := (Eff.event call).

(** The BACpypes application and the network behind it. *)
Definition application : Type := list event -> request -> iocb.

Definition request_io (app : application) (req : request)
  : M (Call := call) (Exn := exception) iocb :=
  Eff.call (fun h => app h req) (RequestIo req) inr.

(** [WaterTankClient.read_prop]. *)
Definition read_prop (app : application) (target_addr obj_type : string)
           (obj_inst : Z) (prop_id : string)
  : M (Call := call) (Exn := exception) (option pyobj) :=
  io <- request_io app (ReadPropertyRequest obj_type obj_inst prop_id target_addr) ;;
  match ioError io with
  | Some err => log ERROR ("Read error: " ++ err) ;;; ret None
  | None =>
      match ioResponse io with
      | None => log ERROR "No response from server." ;;; ret None
      | Some resp =>
          match cast_out_Real resp with
          | Some val => ret (Some val)
          | None => ret (Some (propertyValue resp))
          end
      end
  end.

(** [WaterTankClient.write_prop]. *)
Definition write_prop (app : application) (target_addr obj_type : string)
           (obj_inst : Z) (prop_id : string) (value : float)
  : M (Call := call) (Exn := exception) bool :=
  io <- request_io app (WritePropertyRequest obj_type obj_inst prop_id value target_addr) ;;
  match ioError io with
  | Some err => log ERROR ("Write error: " ++ err) ;;; ret false
  | None => ret true
  end.

(** The values [main] reads from the section [bacnet_client]. *)
Record config : Type := mkConfig {
  target_addr : string;
  level_id : Z;
  temp_id : Z;
  alarm_id : Z
}.

(** [f"{v}"] for a value that may be [None]. *)
Definition format (v : option pyobj) : string :=
  match v with
  | Some o => str o
  | None => "None"
  end.

(** [float(v)], raising what [float] raises. *)
Definition py_float (v : pyobj) : M (Call := call) (Exn := exception) float :=
  match to_float v with
  | FloatOk f => ret f
  | FloatValueError => raise ValueError
  | FloatTypeError => raise TypeError
  end.

(** The statement [if not args.read_only and alarm_val is not None:]
    of [main], with its [try] block. *)
Definition clear_alarm_if_active (read_only : bool) (cfg : config) (app : application)
           (alarm_val : option pyobj)
  : M (Call := call) (Exn := exception) unit :=
  if negb read_only then
    match alarm_val with
    | Some alarm_obj =>
        try_except
          (alarm_float <- py_float alarm_obj ;;
           if feq alarm_float (PyFloat.of_Z 1) then
             log INFO "Alarm is active; attempting to clear it (write 0)." ;;;
             success <- write_prop app (target_addr cfg) "binaryValue" (alarm_id cfg)
                                   "presentValue" (PyFloat.of_Z 0) ;;
             if success then log INFO "Alarm cleared." else ret tt
           else ret tt)
          (fun ex =>
             match ex with
             | ValueError => Some (ret tt)
             | TypeError => None
             end)
    | None => ret tt
    end
  else ret tt.

(** [main], after the configuration is loaded; [read_only] is
    [args.read_only]. *)
Definition main (read_only : bool) (cfg : config) (app : application)
  : M (Call := call) (Exn := exception) unit :=
  level_val <- read_prop app (target_addr cfg) "analogValue" (level_id cfg) "presentValue" ;;
  log INFO ("Water Level: " ++ format level_val ++ "%") ;;;
  temp_val <- read_prop app (target_addr cfg) "analogValue" (temp_id cfg) "presentValue" ;;
  log INFO ("Water Temp : " ++ format temp_val ++ "C") ;;;
  alarm_val <- read_prop app (target_addr cfg) "binaryValue" (alarm_id cfg) "presentValue" ;;
  log INFO ("Alarm State: " ++ format alarm_val ++ " (1 = Active, 0 = Inactive)") ;;;
  clear_alarm_if_active read_only cfg app alarm_val ;;;
  emit (Io Stop).

(** *** Reading a trace *)

(** The alarm read and the alarm-clear write of a configuration. *)
Definition alarm_read (cfg : config) : request :=
  ReadPropertyRequest "binaryValue" (alarm_id cfg) "presentValue" (target_addr cfg).

Definition alarm_clear (cfg : config) : request :=
  WritePropertyRequest "binaryValue" (alarm_id cfg) "presentValue" (PyFloat.of_Z 0)
                       (target_addr cfg).

(** The value [read_prop] returns for an I/O control block, and the
    record it writes. *)
Definition read_value (io : iocb) : option pyobj :=
  match ioError io with
  | Some _ => None
  | None =>
      match ioResponse io with
      | None => None
      | Some resp =>
          match cast_out_Real resp with
          | Some val => Some val
          | None => Some (propertyValue resp)
          end
      end
  end.

Definition read_log (io : iocb) : list event :=
  match ioError io with
  | Some err => [Log ERROR ("Read error: " ++ err)]
  | None =>
      match ioResponse io with
      | None => [Log ERROR "No response from server."]
      | Some _ => []
      end
  end.

(** The value was read and [float] of it is [== 1.0]. *)
Definition reads_active (v : option pyobj) : bool :=
  match v with
  | Some o =>
      match to_float o with
      | FloatOk f => feq f (PyFloat.of_Z 1)
      | _ => false
      end
  | None => false
  end.

Definition is_write (req : request) : bool :=
  match req with
  | WritePropertyRequest _ _ _ _ _ => true
  | ReadPropertyRequest _ _ _ _ => false
  end.

(** The write requests issued in a trace, in order. *)
Fixpoint write_requests (tr : list event) : list request :=
  match tr with
  | [] => []
  | Io (RequestIo req _) :: r =>
      if is_write req then req :: write_requests r else write_requests r
  | _ :: r => write_requests r
  end.

Definition is_error_record (e : event) : bool :=
  match e with
  | Log ERROR _ => true
  | _ => false
  end.

(** The three reads of [main] with their records, and what follows. *)
Definition read_segment (req : request) (io : iocb) (line : string) : list event :=
  Io (RequestIo req io) :: read_log io ++ [Log INFO line].

Definition level_read (cfg : config) : request :=
  ReadPropertyRequest "analogValue" (level_id cfg) "presentValue" (target_addr cfg).

Definition temp_read (cfg : config) : request :=
  ReadPropertyRequest "analogValue" (temp_id cfg) "presentValue" (target_addr cfg).

Definition after_level (cfg : config) (app : application) : list event :=
  read_segment (level_read cfg) (app [] (level_read cfg))
    ("Water Level: " ++ format (read_value (app [] (level_read cfg))) ++ "%").

Definition after_temp (cfg : config) (app : application) : list event :=
  after_level cfg app
    ++ read_segment (temp_read cfg) (app (after_level cfg app) (temp_read cfg))
         ("Water Temp : "
            ++ format (read_value (app (after_level cfg app) (temp_read cfg))) ++ "C").

(** The answer to the alarm read. *)
Definition alarm_io (cfg : config) (app : application) : iocb :=
  app (after_temp cfg app) (alarm_read cfg).

Definition after_alarm (cfg : config) (app : application) : list event :=
  after_temp cfg app
    ++ read_segment (alarm_read cfg) (alarm_io cfg app)
         ("Alarm State: " ++ format (read_value (alarm_io cfg app))
            ++ " (1 = Active, 0 = Inactive)").

(** *** Example applications *)

Definition example_config : config :=
  {| target_addr := "192.168.1.10"; level_id := 1; temp_id := 2; alarm_id := 3 |}.

Definition real (text : string) (f : float) : pyobj :=
  {| str := text; to_float := FloatOk f |}.

Definition answer_with (v : pyobj) : iocb :=
  {| ioError := None;
     ioResponse := Some {| cast_out_Real := Some v; propertyValue := v |} |}.

(** A server that reports level [42.0], temperature [20.0] and the
    alarm value [alarm]; writes succeed. *)
Definition server_reporting (alarm : pyobj) : application :=
  fun _ req =>
    match req with
    | ReadPropertyRequest obj_type inst _ _ =>
        if String.eqb obj_type "binaryValue" then answer_with alarm
        else if (inst =? 1)%Z then answer_with (real "42.0" (PyFloat.of_Z 42))
        else answer_with (real "20.0" (PyFloat.of_Z 20))
    | WritePropertyRequest _ _ _ _ _ => {| ioError := None; ioResponse := None |}
    end.

(** A server that answers nothing: every request ends in an error. *)
Definition unreachable_server : application :=
  fun _ _ => {| ioError := Some "timeout"; ioResponse := None |}.

(** A server whose alarm is active and that rejects the write. *)
Definition write_rejecting_server : application :=
  fun h req =>
    match req with
    | WritePropertyRequest _ _ _ _ _ =>
        {| ioError := Some "write-access-denied"; ioResponse := None |}
    | _ => server_reporting (real "1.0" (PyFloat.of_Z 1)) h req
    end.

(** An alarm value that [float] rejects with [ValueError] (a text that
    is not a number), and one it rejects with [TypeError]. *)
Definition text_value : pyobj := {| str := "active"; to_float := FloatValueError |}.
Definition opaque_value : pyobj := {| str := "<Any>"; to_float := FloatTypeError |}.

End BacnetClient.

(** ** opcua/opcua_client.py and opcua/opcua_server.py: [parse_nodeid]

    The two files hold the same function, statement for statement. *)

Module NodeIdType.
(** [opcua.ua.NodeIdType], the three members the function uses. *)
Inductive t : Type := String | Numeric | ByteString.
End NodeIdType.

Module OpcUa.
Local Open Scope string_scope.

Inductive exception : Type := IndexError | ValueError.

(** Results of code that may raise, and their sequencing. *)
Definition result (A : Type) : Type := exception + A.

Definition and_then {A B : Type} (r : result A) (k : A -> result B) : result B :=
  match r with
  | inl ex => inl ex
  | inr a => k a
  end.

Notation "x <~ r ;; k" := (and_then r (fun x => k))
  (at level 100, r at next level, right associativity).

(** *** Strings *)

(** [s.split(sep)] for a separator of one character. *)
Fixpoint split (sep : ascii) (s : string) : list string :=
  match s with
  | "" => [""]
  | String c r =>
      if Ascii.eqb c sep then "" :: split sep r
      else
        match split sep r with
        | w :: ws => String c w :: ws
        | [] => [String c ""]
        end
  end.

(** [s.split(sep, 1)]: split at the first separator only. *)
Fixpoint split_once (sep : ascii) (s : string) : list string :=
  match s with
  | "" => [""]
  | String c r =>
      if Ascii.eqb c sep then [""; r]
      else
        match split_once sep r with
        | w :: ws => String c w :: ws
        | [] => [String c ""]
        end
  end.

(** [l[i]]. *)
Definition item (l : list string) (i : nat) : result string :=
  match l !! i with
  | Some x => inr x
  | None => inl IndexError
  end.

(** [s.startswith(p)]. *)
Fixpoint startswith (p s : string) : bool :=
  match p with
  | "" => true
  | String a p' =>
      match s with
      | "" => false
      | String b s' => Ascii.eqb a b && startswith p' s'
      end
  end.

(** Every character of [s] satisfies [p]. *)
Fixpoint all (p : ascii -> bool) (s : string) : bool :=
  match s with
  | "" => true
  | String c r => p c && all p r
  end.

Definition is_not (sep : ascii) (c : ascii) : bool := negb (Ascii.eqb c sep).

(** *** [int(s)] on text *)


(** White space for [int] on an ASCII text: tab, line feed, vertical
    tab, form feed, carriage return and space. *)
Definition is_space (c : ascii) : bool :=
  let n := N_of_ascii c in
  ((9 <=? n) && (n <=? 13) || (n =? 32))%N.

Definition digit (c : ascii) : option Z :=
  let n := N_of_ascii c in
  if ((48 <=? n) && (n <=? 57))%N then Some (Z.of_N n - 48) else None.

Fixpoint lstrip (s : string) : string :=
  match s with
  | "" => ""
  | String c r => if is_space c then lstrip r else s
  end.

Fixpoint rstrip (s : string) : string :=
  match s with
  | "" => ""
  | String c r =>
      match rstrip r with
      | "" => if is_space c then "" else String c ""
      | r' => String c r'
      end
  end.

Definition strip (s : string) : string := lstrip (rstrip s).

(** Decimal digits, with single underscores allowed between digits;
    [after_digit] tells whether the previous character was a digit. *)
Fixpoint digits (s : string) (acc : Z) (after_digit : bool) : option Z :=
  match s with
  | "" => if after_digit then Some acc else None
  | String c r =>
      if Ascii.eqb c "_" then
        if after_digit then digits r acc false else None
      else
        match digit c with
        | Some d => digits r (10 * acc + d) true
        | None => None
        end
  end.

(** The number of digits of a text, and the interpreter's limit on it
    ([sys.get_int_max_str_digits()], 4300 unless changed). *)
Fixpoint digit_count (s : string) : nat :=
  match s with
  | "" => 0
  | String c r =>
      match digit c with
      | Some _ => S (digit_count r)
      | None => digit_count r
      end
  end.

Definition max_str_digits : nat := 4300.

(** [int(s)] in base 10 on an ASCII text: surrounding white space, an
    optional sign, digits; [ValueError] for any other text and for more
    digits than the limit. *)
Definition py_int (s : string) : result Z :=
  let body :=
    match strip s with
    | String "+" r => digits r 0 false
    | String "-" r => option_map Z.opp (digits r 0 false)
    | t => digits t 0 false
    end in
  match body with
  | Some z => if (digit_count s <=? max_str_digits)%nat then inr z else inl ValueError
  | None => inl ValueError
  end.

(** *** Node identifiers *)

(** The identifier given to [NodeId]: a text or an integer. *)
Inductive identifier : Type :=
| Text (s : string)
| Number (z : Z).

(** [NodeId(identifier, namespaceidx, nodeidtype)]. *)
Record NodeId : Type := mkNodeId {
  Identifier : identifier;
  NamespaceIndex : Z;
  NodeIdType : NodeIdType.t
}.

(** [parse_nodeid(nodeid_str)]. *)
Definition parse_nodeid (nodeid_str : string) : result NodeId :=
  let parts := split ";" nodeid_str in
  ns_part <~ item parts 0 ;;
  id_part <~ item parts 1 ;;
  ns_text <~ item (split "=" ns_part) 1 ;;
  ns_idx <~ py_int ns_text ;;
  if startswith "s=" id_part then
    name <~ item (split_once "=" id_part) 1 ;;
    inr (mkNodeId (Text name) ns_idx NodeIdType.String)
  else if startswith "i=" id_part then
    number_text <~ item (split_once "=" id_part) 1 ;;
    number <~ py_int number_text ;;
    inr (mkNodeId (Number number) ns_idx NodeIdType.Numeric)
  else if startswith "b=" id_part then
    name <~ item (split_once "=" id_part) 1 ;;
    inr (mkNodeId (Text name) ns_idx NodeIdType.ByteString)
  else
    inr (mkNodeId (Text id_part) ns_idx NodeIdType.String).



End OpcUa.

(** ** siemens/snap7_client.py *)

Module Snap7Client.
Import Eff.
Local Open Scope string_scope.
Local Open Scope eff_scope.

(** The values read from the section [snap7_client]. *)
Record config : Type := mkConfig {
  db_number : Z;
  start : Z;
  size : Z;
  poll_interval : Z
}.

(** [IndexError] of [data[1]], the errors snap7 raises, and what
    [time.sleep] raises. *)
Inductive exception : Type :=
| IndexError
| Snap7Error (msg : string)
| KeyboardInterrupt
| ValueError (msg : string).

(** A [bytearray]: its bytes, each between [0] and [255]. *)
Definition bytearray : Type := list Z.

(** [client.db_read(db_number, start, size)] and
    [client.db_write(db_number, start, data)], with what they did. *)
Inductive call : Type :=
| DbRead (db first len : Z) (ans : exception + bytearray)
| DbWrite (db first : Z) (data : bytearray) (ans : exception + unit).

Abbreviation event := (Eff.event call).

(** The snap7 client and the PLC behind it. *)
Record snap7_client : Type := mkClient {
  read_answer : list event -> Z -> Z -> Z -> exception + bytearray;
  write_answer : list event -> Z -> Z -> bytearray -> exception + unit
}.

Definition db_read (client : snap7_client) (db first len : Z)
  : M (Call := call) (Exn := exception) bytearray :=
  Eff.call (fun h => read_answer client h db first len) (DbRead db first len) (fun a => a).

Definition db_write (client : snap7_client) (db first : Z) (data : bytearray)
  : M (Call := call) (Exn := exception) unit :=
  Eff.call (fun h => write_answer client h db first data) (DbWrite db first data) (fun a => a).

(** [data[i]]. *)
Definition get_item (data : bytearray) (i : nat) : M (Call := call) (Exn := exception) Z :=
  match data !! i with
  | Some b => ret b
  | None => raise IndexError
  end.

(** [set_byte(data, i, v)] of [snap7.util] for an index inside the
    buffer: the byte at [i] becomes [v]. *)
Definition set_byte (data : bytearray) (i : nat) (v : Z) : bytearray := <[i := v]> data.

(** What [time.sleep] does, given the history and the interval. *)
Definition clock : Type := list event -> Z -> exception + unit.

(** One pass of the body of [while True] in [run_snap7_client]. *)
Definition poll_cycle (cfg : config) (client : snap7_client) (sleeping : clock)
  : M (Call := call) (Exn := exception) unit :=
  data <- db_read client (db_number cfg) (start cfg) (size cfg) ;;
  log INFO ("Read from DB" ++ PyStr.of_Z (db_number cfg) ++ ", bytes["
              ++ PyStr.of_Z (start cfg) ++ ".."
              ++ PyStr.of_Z (start cfg + size cfg - 1)%Z ++ "]: "
              ++ PyStr.of_list PyStr.of_Z data) ;;;
  second_byte_val <- get_item data 1 ;;
  let new_val := ((second_byte_val + 1) mod 256)%Z in
  let data1 := set_byte data 1 new_val in
  db_write client (db_number cfg) (start cfg) data1 ;;;
  log INFO ("Wrote back to DB" ++ PyStr.of_Z (db_number cfg) ++ ", second byte: "
              ++ PyStr.of_Z second_byte_val ++ " -> " ++ PyStr.of_Z new_val) ;;;
  sleep sleeping (poll_interval cfg).

(** The writes of a trace: data block, first byte, buffer. *)
Fixpoint writes (tr : list event) : list (Z * Z * bytearray) :=
  match tr with
  | [] => []
  | Io (DbWrite db first data _) :: r => (db, first, data) :: writes r
  | _ :: r => writes r
  end.

(** *** Examples *)

(** A PLC whose data block reads as [data]; writes succeed. *)
Definition plc_holding (data : bytearray) : snap7_client :=
  {| read_answer := fun _ _ _ _ => inr data;
     write_answer := fun _ _ _ _ => inr tt |}.

(** [time.sleep] that returns, and one that is interrupted by Ctrl+C. *)
Definition returning : clock := fun _ _ => inr tt.
Definition interrupted : clock := fun _ _ => inl KeyboardInterrupt.

Definition example_config : config :=
  {| db_number := 1; start := 0; size := 4; poll_interval := 5 |}.

(** The same with [size = 1]. *)
Definition one_byte_config : config :=
  {| db_number := 1; start := 0; size := 1; poll_interval := 5 |}.

End Snap7Client.

(** ** The order of the floats

    [SFcompare] on two floats that are not NaN is the lexicographic
    order of their keys. *)

Module FloatOrder.
Import PyFloat.

Definition key (x : float) : Z * Z * Z :=
  match x with
  | S754_infinity true => (-2, 0, 0)
  | S754_finite true m e => (-1, - e, Zneg m)
  | S754_zero _ => (0, 0, 0)
  | S754_nan => (0, 0, 0)
  | S754_finite false m e => (1, e, Zpos m)
  | S754_infinity false => (2, 0, 0)
  end.

Definition lex_compare (k1 k2 : Z * Z * Z) : comparison :=
  let '(a1, b1, c1) := k1 in
  let '(a2, b2, c2) := k2 in
  match a1 ?= a2 with
  | Eq => match b1 ?= b2 with
          | Eq => c1 ?= c2
          | r => r
          end
  | r => r
  end.

Definition lex_le (k1 k2 : Z * Z * Z) : Prop :=
  let '(a1, b1, c1) := k1 in
  let '(a2, b2, c2) := k2 in
  a1 < a2 \/ (a1 = a2 /\ (b1 < b2 \/ (b1 = b2 /\ c1 <= c2))).

Definition lex_lt (k1 k2 : Z * Z * Z) : Prop :=
  let '(a1, b1, c1) := k1 in
  let '(a2, b2, c2) := k2 in
  a1 < a2 \/ (a1 = a2 /\ (b1 < b2 \/ (b1 = b2 /\ c1 < c2))).

Definition is_nan (x : float) : bool :=
  match x with
  | S754_nan => true
  | _ => false
  end.

End FloatOrder.

(** ** bacnet/bacnet_client.py: further readings of a trace *)

Module BacnetClientTrace.
Import Eff PyFloat BacnetClient.
Local Open Scope string_scope.

(** The read requests issued in a trace, in order. *)
Fixpoint read_requests (tr : list event) : list request :=
  match tr with
  | [] => []
  | Io (RequestIo req _) :: r =>
      if is_write req then read_requests r else req :: read_requests r
  | _ :: r => read_requests r
  end.

(** The number of calls of [stop()] in a trace. *)
Fixpoint stops (tr : list event) : nat :=
  match tr with
  | [] => 0
  | Io Stop :: r => S (stops r)
  | _ :: r => stops r
  end.


(** What the statement [if not args.read_only and alarm_val is not
    None:] appends to the history [h]. *)
Definition clear_events (read_only : bool) (cfg : config) (app : application)
           (alarm_val : option pyobj) (h : list event) : list event :=
  if negb read_only && reads_active alarm_val then
    let line := Log INFO "Alarm is active; attempting to clear it (write 0)." in
    let io := app (h ++ [line])%list (alarm_clear cfg) in
    [line; Io (RequestIo (alarm_clear cfg) io)]
      ++ match ioError io with
         | Some err => [Log ERROR ("Write error: " ++ err)]
         | None => [Log INFO "Alarm cleared."]
         end
  else [].

(** The answer to the alarm-clear write, when it is issued. *)
Definition clear_io (cfg : config) (app : application) : iocb :=
  app (after_alarm cfg app
         ++ [Log INFO "Alarm is active; attempting to clear it (write 0)."])%list
      (alarm_clear cfg).

End BacnetClientTrace.

(** ** siemens/snap7_client.py: reading the trace of a pass *)

Module Snap7Loop.
Import Eff Snap7Client.
Local Open Scope eff_scope.

(** The number of [db_read] calls in a trace. *)
Fixpoint reads (tr : list event) : nat :=
  match tr with
  | [] => 0
  | Io (DbRead _ _ _ _) :: r => S (reads r)
  | _ :: r => reads r
  end.

(** The records of a pass. *)
Definition read_line (cfg : config) (data : bytearray) : event :=
  Log INFO ("Read from DB" ++ PyStr.of_Z (db_number cfg) ++ ", bytes["
              ++ PyStr.of_Z (start cfg) ++ ".."
              ++ PyStr.of_Z (start cfg + size cfg - 1)%Z ++ "]: "
              ++ PyStr.of_list PyStr.of_Z data)%string.

Definition wrote_line (cfg : config) (old new : Z) : event :=
  Log INFO ("Wrote back to DB" ++ PyStr.of_Z (db_number cfg) ++ ", second byte: "
              ++ PyStr.of_Z old ++ " -> " ++ PyStr.of_Z new)%string.

End Snap7Loop.

(** ** opcua/opcua_client.py: [run_opcua_client] *)

Module OpcUaClient.
Import Eff.
Local Open Scope string_scope.
Local Open Scope eff_scope.

(** The values read from [opcua_config.ini]. *)
Record config : Type := mkConfig {
  endpoint : string;
  poll_interval : Z;
  node1_nodeid : string;
  node2_nodeid : string;
  node3_nodeid : string
}.

(** What a call into python-opcua or [time.sleep] can raise:
    [KeyboardInterrupt], [SystemExit], or an exception of a class
    derived from [Exception], with its text. *)
Inductive raised : Type :=
| Interrupt
| Exit (code : Z)
| Error (msg : string).

(** The exceptions of the program: those of [parse_nodeid], and those
    of the calls. *)
Inductive exception : Type :=
| Parse (e : OpcUa.exception)
| KeyboardInterrupt
| SystemExit (code : Z)
| OtherError (msg : string).

Definition of_raised (r : raised) : exception :=
  match r with
  | Interrupt => KeyboardInterrupt
  | Exit code => SystemExit code
  | Error msg => OtherError msg
  end.

(** The calls into python-opcua and [time.sleep], with what they did:
    [client.connect()], [node.get_value()] (the value as the f-string
    renders it), [time.sleep(seconds)] and [client.disconnect()]. *)
Inductive call : Type :=
| Connect (ans : raised + unit)
| GetValue (node : OpcUa.NodeId) (ans : raised + string)
| Sleeping (seconds : Z) (ans : raised + unit)
| Disconnect (ans : raised + unit).

Abbreviation event := (Eff.event call).

(** The library, the server behind it and the user at the keyboard. *)
Record world : Type := mkWorld {
  connect_answer : list event -> raised + unit;
  value_answer : list event -> OpcUa.NodeId -> raised + string;
  sleep_answer : list event -> Z -> raised + unit;
  disconnect_answer : list event -> raised + unit
}.

Abbreviation prog := (M (Call := call) (Exn := exception)).

Definition result_of {A : Type} (a : raised + A) : exception + A :=
  match a with
  | inl r => inl (of_raised r)
  | inr v => inr v
  end.

Definition connect (w : world) : prog unit :=
  Eff.call (connect_answer w) Connect result_of.

Definition get_value (w : world) (node : OpcUa.NodeId) : prog string :=
  Eff.call (fun h => value_answer w h node) (GetValue node) result_of.

Definition time_sleep (w : world) (seconds : Z) : prog unit :=
  Eff.call (fun h => sleep_answer w h seconds) (Sleeping seconds) result_of.

Definition disconnect (w : world) : prog unit :=
  Eff.call (disconnect_answer w) Disconnect result_of.

(** [parse_nodeid] as a step of the program. *)
Definition parse (s : string) : prog OpcUa.NodeId :=
  match OpcUa.parse_nodeid s with
  | inl e => raise (Parse e)
  | inr nid => ret nid
  end.

(** The record of a pass. *)
Definition read_values_line (cfg : config) (val1 val2 val3 : string) : string :=
  "Read values: "
    ++ node1_nodeid cfg ++ "=" ++ val1 ++ ", "
    ++ node2_nodeid cfg ++ "=" ++ val2 ++ ", "
    ++ node3_nodeid cfg ++ "=" ++ val3.

(** One pass of the body of [while True]. *)
Definition poll_pass (cfg : config) (w : world) (node1 node2 node3 : OpcUa.NodeId)
  : prog unit :=
  val1 <- get_value w node1 ;;
  val2 <- get_value w node2 ;;
  val3 <- get_value w node3 ;;
  log INFO (read_values_line cfg val1 val2 val3) ;;;
  time_sleep w (poll_interval cfg).

(** The first [n] passes of [while True]: the loop goes on until a pass
    raises. *)
Fixpoint poll_loop (n : nat) (cfg : config) (w : world) (node1 node2 node3 : OpcUa.NodeId)
  : prog unit :=
  match n with
  | O => ret tt
  | S k => poll_pass cfg w node1 node2 node3 ;;; poll_loop k cfg w node1 node2 node3
  end.

(** What is known of the program after [n] passes: the loop is still
    going, or the function has returned. *)
Inductive status : Type := Running | Returned.

(** The statement [try: while True ... except KeyboardInterrupt: ...
    finally: ...], watched for [n] passes.  The [finally] block runs
    when the loop is left, which only an exception does. *)
Definition polling (n : nat) (cfg : config) (w : world) (node1 node2 node3 : OpcUa.NodeId)
  : prog status :=
  fun h =>
    match poll_loop n cfg w node1 node2 node3 h with
    | (h1, inr _) => (h1, inr Running)
    | (h1, inl KeyboardInterrupt) =>
        (log INFO "Received Ctrl+C, shutting down client." ;;;
         disconnect w ;;;
         log INFO "Client disconnected." ;;;
         ret Returned) h1
    | (h1, inl x) =>
        (disconnect w ;;;
         log INFO "Client disconnected." ;;;
         raise x) h1
    end.

Definition connecting_line (cfg : config) : string :=
  "Connecting to OPC UA server at " ++ endpoint cfg.

Definition polling_line (cfg : config) : string :=
  "Polling variables:" ++ PyStr.newline
    ++ "  node1 = " ++ node1_nodeid cfg ++ PyStr.newline
    ++ "  node2 = " ++ node2_nodeid cfg ++ PyStr.newline
    ++ "  node3 = " ++ node3_nodeid cfg ++ PyStr.newline
    ++ "  poll_interval = " ++ PyStr.of_Z (poll_interval cfg) ++ "s".

(** [run_opcua_client], after the configuration is loaded, watched for
    [n] passes of its loop.  Of the exceptions [except Exception]
    catches, only those of the calls can arise in its [try] block. *)
Definition run_opcua_client (n : nat) (cfg : config) (w : world) : prog status :=
  node1_id <- parse (node1_nodeid cfg) ;;
  node2_id <- parse (node2_nodeid cfg) ;;
  node3_id <- parse (node3_nodeid cfg) ;;
  log INFO (connecting_line cfg) ;;;
  try_except
    (connect w ;;; log INFO "OPC UA client connected.")
    (fun e =>
       match e with
       | OtherError msg =>
           Some (log ERROR ("Failed to connect to server: " ++ msg) ;;;
                 raise (SystemExit 1))
       | Parse _ =>
           Some (log ERROR "Failed to connect to server: " ;;; raise (SystemExit 1))
       | KeyboardInterrupt | SystemExit _ => None
       end) ;;;
  log INFO (polling_line cfg) ;;;
  polling n cfg w node1_id node2_id node3_id.

(** *** Reading a trace *)

Definition is_connect (e : event) : bool :=
  match e with Io (Connect _) => true | _ => false end.

Definition is_interrupt (x : exception) : bool :=
  match x with KeyboardInterrupt => true | _ => false end.

(** What the [except KeyboardInterrupt] and [finally] blocks append to
    the history [h1] when the loop was left with the exception [x]. *)
Definition leaving (w : world) (x : exception) (h1 : list event) : list event :=
  let pre := if is_interrupt x
             then [Log INFO "Received Ctrl+C, shutting down client."] else [] in
  let ans := disconnect_answer w (h1 ++ pre)%list in
  (pre ++ Io (Disconnect ans)
       :: match ans with
          | inr _ => [Log INFO "Client disconnected."]
          | inl _ => []
          end)%list.

Definition leaving_outcome (w : world) (x : exception) (h1 : list event)
  : exception + status :=
  let pre := if is_interrupt x
             then [Log INFO "Received Ctrl+C, shutting down client."] else [] in
  match disconnect_answer w (h1 ++ pre)%list with
  | inl r => inl (of_raised r)
  | inr _ => if is_interrupt x then inr Returned else inl x
  end.

Definition is_get_value (e : event) : bool :=
  match e with Io (GetValue _ _) => true | _ => false end.

Definition is_disconnect (e : event) : bool :=
  match e with Io (Disconnect _) => true | _ => false end.

Definition is_call (e : event) : bool :=
  match e with Io _ => true | _ => false end.

Definition occurrences (p : event -> bool) (tr : list event) : nat :=
  List.length (List.filter p tr).

(** The history at the start of the loop, after a connection that
    succeeded. *)
Definition connected (cfg : config) : list event :=
  [Log INFO (connecting_line cfg);
   Io (Connect (inr tt));
   Log INFO "OPC UA client connected.";
   Log INFO (polling_line cfg)].

(** *** Examples *)

Definition example_config : config :=
  {| endpoint := "opc.tcp://127.0.0.1:4840"; poll_interval := 5;
     node1_nodeid := "ns=2;s=Var1"; node2_nodeid := "ns=2;s=Var2";
     node3_nodeid := "ns=2;s=Var3" |}.

(** A configuration whose second node id has no [;]. *)
Definition broken_config : config :=
  {| endpoint := "opc.tcp://127.0.0.1:4840"; poll_interval := 5;
     node1_nodeid := "ns=2;s=Var1"; node2_nodeid := "Var2";
     node3_nodeid := "ns=2;s=Var3" |}.

(** A server that answers every read with [7.0]; [Ctrl+C] arrives
    during the third sleep. *)
Definition interrupted_world : world :=
  {| connect_answer := fun _ => inr tt;
     value_answer := fun _ _ => inr "7.0";
     sleep_answer := fun h _ =>
       if (9 <=? List.length (List.filter is_get_value h))%nat then inl Interrupt
       else inr tt;
     disconnect_answer := fun _ => inr tt |}.

(** A server that refuses the connection. *)
Definition refusing_world : world :=
  {| connect_answer := fun _ => inl (Error "Connection refused");
     value_answer := fun _ _ => inr "7.0";
     sleep_answer := fun _ _ => inr tt;
     disconnect_answer := fun _ => inr tt |}.

(** A server on which the first read of a pass fails. *)
Definition failing_read_world : world :=
  {| connect_answer := fun _ => inr tt;
     value_answer := fun _ _ => inl (Error "BadNodeIdUnknown");
     sleep_answer := fun _ _ => inr tt;
     disconnect_answer := fun _ => inr tt |}.

End OpcUaClient.

(** ** Counting the events of a trace *)

Module Trace.
Import Eff.

Section Defs.
Context {Call : Type}.

(** The number of events of [tr] that satisfy [p]. *)
Definition count (p : event Call -> bool) (tr : list (event Call)) : nat :=
  List.length (List.filter p tr).

(** A call into a library. *)
Definition is_io (e : event Call) : bool :=
  match e with
  | Io _ => true
  | _ => false
  end.

End Defs.

End Trace.

(** ** siemens/snap7_client.py: [run_snap7_client] *)

Module Snap7Run.
Import Eff.
Local Open Scope string_scope.
Local Open Scope eff_scope.

(** The values of the section [snap7_client] that the connection uses;
    those of the loop are in [Snap7Client.config]. *)
Record connection : Type := mkConnection {
  ip : string;
  tcpport : Z;
  rack : Z;
  slot : Z
}.

(** What a call into snap7 or [time.sleep] can raise:
    [KeyboardInterrupt], [SystemExit], or an exception of a class
    derived from [Exception], with its text. *)
Inductive raised : Type :=
| Interrupt
| Exit (code : Z)
| Error (msg : string).

(** The exceptions of the program: [IndexError] of [data[1]], and
    those of the calls. *)
Inductive exception : Type :=
| IndexError
| KeyboardInterrupt
| SystemExit (code : Z)
| OtherError (msg : string).

Definition of_raised (r : raised) : exception :=
  match r with
  | Interrupt => KeyboardInterrupt
  | Exit code => SystemExit code
  | Error msg => OtherError msg
  end.

(** The calls, with what they did: [client.connect(ip, rack, slot,
    tcpport)], [client.get_connected()], [client.db_read(db_number,
    start, size)], [client.db_write(db_number, start, data)],
    [time.sleep(seconds)] and [client.disconnect()]. *)
Inductive call : Type :=
| Connect (address : string) (rack slot tcpport : Z) (ans : raised + unit)
| GetConnected (ans : raised + bool)
| DbRead (db first len : Z) (ans : raised + Snap7Client.bytearray)
| DbWrite (db first : Z) (data : Snap7Client.bytearray) (ans : raised + unit)
| Sleeping (seconds : Z) (ans : raised + unit)
| Disconnect (ans : raised + unit).

Abbreviation event := (Eff.event call).

(** The snap7 library, the PLC behind it and the user at the
    keyboard. *)
Record world : Type := mkWorld {
  connect_answer : list event -> string -> Z -> Z -> Z -> raised + unit;
  connected_answer : list event -> raised + bool;
  read_answer : list event -> Z -> Z -> Z -> raised + Snap7Client.bytearray;
  write_answer : list event -> Z -> Z -> Snap7Client.bytearray -> raised + unit;
  sleep_answer : list event -> Z -> raised + unit;
  disconnect_answer : list event -> raised + unit
}.

Abbreviation prog := (M (Call := call) (Exn := exception)).

Definition result_of {A : Type} (a : raised + A) : exception + A :=
  match a with
  | inl r => inl (of_raised r)
  | inr v => inr v
  end.

Definition connect (w : world) (address : string) (rk sl port : Z) : prog unit :=
  Eff.call (fun h => connect_answer w h address rk sl port)
           (Connect address rk sl port) result_of.

Definition get_connected (w : world) : prog bool :=
  Eff.call (connected_answer w) GetConnected result_of.

Definition db_read (w : world) (db first len : Z) : prog Snap7Client.bytearray :=
  Eff.call (fun h => read_answer w h db first len) (DbRead db first len) result_of.

Definition db_write (w : world) (db first : Z) (data : Snap7Client.bytearray) : prog unit :=
  Eff.call (fun h => write_answer w h db first data) (DbWrite db first data) result_of.

Definition time_sleep (w : world) (seconds : Z) : prog unit :=
  Eff.call (fun h => sleep_answer w h seconds) (Sleeping seconds) result_of.

Definition disconnect (w : world) : prog unit :=
  Eff.call (disconnect_answer w) Disconnect result_of.

(** [data[i]]. *)
Definition get_item (data : Snap7Client.bytearray) (i : nat) : prog Z :=
  match data !! i with
  | Some b => ret b
  | None => raise IndexError
  end.

(** [str(e)] for the [IndexError] of a [bytearray]. *)
Definition index_error_text : string := "bytearray index out of range".

(** The records of the function. *)
Definition connecting_line (conn : connection) : string :=
  "Connecting to Snap7 server at " ++ ip conn ++ ":" ++ PyStr.of_Z (tcpport conn)
    ++ ", rack=" ++ PyStr.of_Z (rack conn) ++ ", slot=" ++ PyStr.of_Z (slot conn).

Definition read_line (cfg : Snap7Client.config) (data : Snap7Client.bytearray) : string :=
  "Read from DB" ++ PyStr.of_Z (Snap7Client.db_number cfg) ++ ", bytes["
    ++ PyStr.of_Z (Snap7Client.start cfg) ++ ".."
    ++ PyStr.of_Z (Snap7Client.start cfg + Snap7Client.size cfg - 1)%Z ++ "]: "
    ++ PyStr.of_list PyStr.of_Z data.

Definition wrote_line (cfg : Snap7Client.config) (old new : Z) : string :=
  "Wrote back to DB" ++ PyStr.of_Z (Snap7Client.db_number cfg) ++ ", second byte: "
    ++ PyStr.of_Z old ++ " -> " ++ PyStr.of_Z new.

(** One pass of the body of [while True]. *)
Definition poll_pass (cfg : Snap7Client.config) (w : world) : prog unit :=
  data <- db_read w (Snap7Client.db_number cfg) (Snap7Client.start cfg)
                  (Snap7Client.size cfg) ;;
  log INFO (read_line cfg data) ;;;
  second_byte_val <- get_item data 1 ;;
  let new_val := ((second_byte_val + 1) mod 256)%Z in
  let data1 := Snap7Client.set_byte data 1 new_val in
  db_write w (Snap7Client.db_number cfg) (Snap7Client.start cfg) data1 ;;;
  log INFO (wrote_line cfg second_byte_val new_val) ;;;
  time_sleep w (Snap7Client.poll_interval cfg).

(** The first [n] passes of [while True]: the loop goes on until a pass
    raises. *)
Fixpoint poll_loop (n : nat) (cfg : Snap7Client.config) (w : world) : prog unit :=
  match n with
  | O => ret tt
  | S k => poll_pass cfg w ;;; poll_loop k cfg w
  end.

(** What is known of the program after [n] passes: the loop is still
    going, or the function has returned. *)
Inductive status : Type := Running | Returned.

(** The [finally] block. *)
Definition cleanup (w : world) : prog unit :=
  connected <- get_connected w ;;
  (if connected : bool then disconnect w else ret tt) ;;;
  log INFO "Snap7 client disconnected.".

(** The statement [try: while True ... except KeyboardInterrupt: ...
    finally: ...], watched for [n] passes.  The [finally] block runs
    when the loop is left, which only an exception does. *)
Definition polling (n : nat) (cfg : Snap7Client.config) (w : world) : prog status :=
  fun h =>
    match poll_loop n cfg w h with
    | (h1, inr _) => (h1, inr Running)
    | (h1, inl KeyboardInterrupt) =>
        (log INFO "Snap7 client stopped by user (Ctrl+C)." ;;;
         cleanup w ;;;
         ret Returned) h1
    | (h1, inl x) => (cleanup w ;;; raise x) h1
    end.

(** [run_snap7_client], after the configuration is loaded, watched for
    [n] passes of its loop.  [sys.exit(1)] raises [SystemExit], which
    [except Exception] does not catch. *)
Definition run_snap7_client (n : nat) (conn : connection) (cfg : Snap7Client.config)
           (w : world) : prog status :=
  try_except
    (log INFO (connecting_line conn) ;;;
     connect w (ip conn) (rack conn) (slot conn) (tcpport conn) ;;;
     connected <- get_connected w ;;
     if negb connected then
       log ERROR "Failed to connect to the Snap7 server." ;;;
       raise (SystemExit 1)
     else ret tt)
    (fun e =>
       match e with
       | OtherError msg =>
           Some (log ERROR ("Connection error: " ++ msg) ;;; raise (SystemExit 1))
       | IndexError =>
           Some (log ERROR ("Connection error: " ++ index_error_text) ;;;
                 raise (SystemExit 1))
       | KeyboardInterrupt | SystemExit _ => None
       end) ;;;
  log INFO "Snap7 client connected." ;;;
  polling n cfg w.

(** *** Reading a trace *)

Definition is_connect (e : event) : bool :=
  match e with Io (Connect _ _ _ _ _) => true | _ => false end.

Definition is_disconnect (e : event) : bool :=
  match e with Io (Disconnect _) => true | _ => false end.

Definition is_read (e : event) : bool :=
  match e with Io (DbRead _ _ _ _) => true | _ => false end.

Definition is_write (e : event) : bool :=
  match e with Io (DbWrite _ _ _ _) => true | _ => false end.

Definition is_get_connected (e : event) : bool :=
  match e with Io (GetConnected _) => true | _ => false end.

Definition is_interrupt (x : exception) : bool :=
  match x with KeyboardInterrupt => true | _ => false end.

(** The history at the start of the loop, after a connection that
    succeeded. *)
Definition connected (conn : connection) : list event :=
  [Log INFO (connecting_line conn);
   Io (Connect (ip conn) (rack conn) (slot conn) (tcpport conn) (inr tt));
   Io (GetConnected (inr true));
   Log INFO "Snap7 client connected."].

(** What the [finally] block appends to the history [h]. *)
Definition cleanup_events (w : world) (h : list event) : list event :=
  let g := connected_answer w h in
  Io (GetConnected g)
     :: match g with
        | inl _ => []
        | inr false => [Log INFO "Snap7 client disconnected."]
        | inr true =>
            let d := disconnect_answer w (h ++ [Io (GetConnected g)])%list in
            Io (Disconnect d)
               :: match d with
                  | inl _ => []
                  | inr _ => [Log INFO "Snap7 client disconnected."]
                  end
        end.

(** The exception the [finally] block raises, if it does. *)
Definition cleanup_raises (w : world) (h : list event) : option exception :=
  match connected_answer w h with
  | inl r => Some (of_raised r)
  | inr false => None
  | inr true =>
      match disconnect_answer w (h ++ [Io (GetConnected (inr true))])%list with
      | inl r => Some (of_raised r)
      | inr _ => None
      end
  end.

(** What the [except KeyboardInterrupt] and [finally] blocks append to
    the history [h1] when the loop was left with the exception [x], and
    how the function ends. *)
Definition leaving (w : world) (x : exception) (h1 : list event) : list event :=
  let pre := if is_interrupt x
             then [Log INFO "Snap7 client stopped by user (Ctrl+C)."] else [] in
  (pre ++ cleanup_events w (h1 ++ pre))%list.

Definition leaving_outcome (w : world) (x : exception) (h1 : list event)
  : exception + status :=
  let pre := if is_interrupt x
             then [Log INFO "Snap7 client stopped by user (Ctrl+C)."] else [] in
  match cleanup_raises w (h1 ++ pre)%list with
  | Some y => inl y
  | None => if is_interrupt x then inr Returned else inl x
  end.

(** The content of the polled range after the history [h], for a PLC
    that held [initial] and stores what a successful write is given. *)
Fixpoint last_written (initial : Snap7Client.bytearray) (h : list event)
  : Snap7Client.bytearray :=
  match h with
  | [] => initial
  | Io (DbWrite _ _ data (inr _)) :: r => last_written data r
  | _ :: r => last_written initial r
  end.

(** A PLC (such as the simulated server with its registered DB area)
    that answers a read with the current content of the range and
    accepts every write; [sleeping] is what [time.sleep] does. *)
Definition plc_memory (initial : Snap7Client.bytearray)
           (sleeping : list event -> Z -> raised + unit) : world :=
  {| connect_answer := fun _ _ _ _ _ => inr tt;
     connected_answer := fun _ => inr true;
     read_answer := fun h _ _ _ => inr (last_written initial h);
     write_answer := fun _ _ _ _ => inr tt;
     sleep_answer := sleeping;
     disconnect_answer := fun _ => inr tt |}.

(** [time.sleep] that always returns, and one interrupted by [Ctrl+C]
    once [k] writes have been made. *)
Definition sound_sleep : list event -> Z -> raised + unit := fun _ _ => inr tt.

Definition interrupted_after (k : nat) : list event -> Z -> raised + unit :=
  fun h _ =>
    if (k <=? List.length (List.filter is_write h))%nat then inl Interrupt else inr tt.

(** *** Examples *)

Definition example_connection : connection :=
  {| ip := "127.0.0.1"; tcpport := 1102; rack := 0; slot := 1 |}.

(** A PLC whose polled range reads as [data] and that accepts every
    call. *)
Definition plc_reading (data : Snap7Client.bytearray) : world :=
  {| connect_answer := fun _ _ _ _ _ => inr tt;
     connected_answer := fun _ => inr true;
     read_answer := fun _ _ _ _ => inr data;
     write_answer := fun _ _ _ _ => inr tt;
     sleep_answer := fun _ _ => inr tt;
     disconnect_answer := fun _ => inr tt |}.

(** A server that cannot be reached: [connect] raises. *)
Definition unreachable_plc : world :=
  {| connect_answer := fun _ _ _ _ _ => inl (Error "TCP : Unreachable peer");
     connected_answer := fun _ => inr false;
     read_answer := fun _ _ _ _ => inl (Error "Not connected");
     write_answer := fun _ _ _ _ => inl (Error "Not connected");
     sleep_answer := fun _ _ => inr tt;
     disconnect_answer := fun _ => inr tt |}.

(** A client whose [connect] returns without a connection. *)
Definition silent_plc : world :=
  {| connect_answer := fun _ _ _ _ _ => inr tt;
     connected_answer := fun _ => inr false;
     read_answer := fun _ _ _ _ => inl (Error "Not connected");
     write_answer := fun _ _ _ _ => inl (Error "Not connected");
     sleep_answer := fun _ _ => inr tt;
     disconnect_answer := fun _ => inr tt |}.

(** The PLC of [plc_reading]; [Ctrl+C] arrives during the second
    sleep. *)
Definition interrupted_plc (data : Snap7Client.bytearray) : world :=
  {| connect_answer := fun _ _ _ _ _ => inr tt;
     connected_answer := fun _ => inr true;
     read_answer := fun _ _ _ _ => inr data;
     write_answer := fun _ _ _ _ => inr tt;
     sleep_answer := fun h _ =>
       if (2 <=? List.length (List.filter is_read h))%nat then inl Interrupt else inr tt;
     disconnect_answer := fun _ => inr tt |}.

End Snap7Run.

(** ** modbus/tcp_client.py: [run_modbus_client] *)

Module ModbusRun.
Import Eff.
Local Open Scope string_scope.
Local Open Scope eff_scope.

(** The values of the sections [client] and [client_serial] that
    choose and build the client; [client_type] is the value after
    [.lower()].  Those of the loop are in [ModbusClient.config]. *)
Record session : Type := mkSession {
  client_type : string;
  host : string;
  port : Z;
  serial_port : string;
  baudrate : Z
}.

(** The client object: [ModbusTcpClient(host=host, port=port)] or
    [ModbusSerialClient(method="rtu", port=serial_port,
    baudrate=baudrate)]. *)
Inductive transport : Type :=
| Tcp (address : string) (tcp_port : Z)
| Serial (device : string) (baud : Z).

(** The exceptions of the program: [KeyboardInterrupt], [SystemExit],
    the class the loop catches, and any other class derived from
    [Exception]. *)
Inductive exception : Type :=
| KeyboardInterrupt
| SystemExit (code : Z)
| ModbusIOException (msg : string)
| OtherException (msg : string).

(** The calls, with what they did: the constructor of the client,
    [client.connect()], the four read methods, [time.sleep(seconds)]
    and [client.close()]. *)
Inductive call : Type :=
| Construct (client : transport) (ans : exception + unit)
| Connect (client : transport) (ans : exception + bool)
| Read (g : ModbusClient.group) (address count : Z)
       (ans : exception + ModbusClient.response)
| Sleeping (seconds : Z) (ans : exception + unit)
| Close (ans : exception + unit).

Abbreviation event := (Eff.event call).

(** pymodbus, the server behind it and the user at the keyboard. *)
Record world : Type := mkWorld {
  construct_answer : list event -> transport -> exception + unit;
  connect_answer : list event -> transport -> exception + bool;
  read_answer : list event -> ModbusClient.group -> Z -> Z
                -> exception + ModbusClient.response;
  sleep_answer : list event -> Z -> exception + unit;
  close_answer : list event -> exception + unit
}.

Abbreviation prog := (M (Call := call) (Exn := exception)).

(** The constructor call: it returns the client or raises (pymodbus
    3 refuses the keyword [method] of the serial client with a
    [TypeError]). *)
Definition construct (w : world) (client : transport) : prog transport :=
  Eff.call (fun h => construct_answer w h client) (Construct client)
           (fun a => match a with
                     | inl x => inl x
                     | inr _ => inr client
                     end).

Definition connect (w : world) (client : transport) : prog bool :=
  Eff.call (fun h => connect_answer w h client) (Connect client) (fun a => a).

Definition read (w : world) (g : ModbusClient.group) (address cnt : Z)
  : prog ModbusClient.response :=
  Eff.call (fun h => read_answer w h g address cnt) (Read g address cnt) (fun a => a).

Definition time_sleep (w : world) (seconds : Z) : prog unit :=
  Eff.call (fun h => sleep_answer w h seconds) (Sleeping seconds) (fun a => a).

Definition close (w : world) : prog unit :=
  Eff.call (close_answer w) Close (fun a => a).

(** The records of the function. *)
Definition tcp_line (s : session) : string :=
  "Connecting TCP Client to " ++ host s ++ ":" ++ PyStr.of_Z (port s).

Definition serial_line (s : session) : string :=
  "Connecting Serial Client to " ++ serial_port s ++ " at "
    ++ PyStr.of_Z (baudrate s) ++ " baud".

Definition polling_line (cfg : ModbusClient.config) : string :=
  let start := ModbusClient.start_address cfg in
  let count := ModbusClient.count cfg in
  "Polling DI, CO, HR, IR at the following settings:" ++ PyStr.newline
    ++ "  * Coils: start=" ++ PyStr.of_Z (start ModbusClient.Coils)
    ++ ", count=" ++ PyStr.of_Z (count ModbusClient.Coils) ++ PyStr.newline
    ++ "  * Discretes: start=" ++ PyStr.of_Z (start ModbusClient.Discretes)
    ++ ", count=" ++ PyStr.of_Z (count ModbusClient.Discretes) ++ PyStr.newline
    ++ "  * Holding Regs: start=" ++ PyStr.of_Z (start ModbusClient.HoldingRegisters)
    ++ ", count=" ++ PyStr.of_Z (count ModbusClient.HoldingRegisters) ++ PyStr.newline
    ++ "  * Input Regs: start=" ++ PyStr.of_Z (start ModbusClient.InputRegisters)
    ++ ", count=" ++ PyStr.of_Z (count ModbusClient.InputRegisters) ++ PyStr.newline
    ++ "  * Poll Interval: " ++ PyStr.of_Z (ModbusClient.poll_interval cfg) ++ "s"
    ++ PyStr.newline.

(** Step 4: the client is chosen by [client_type]. *)
Definition make_client (w : world) (s : session) : prog transport :=
  if (client_type s =? "tcp")%string then
    log INFO (tcp_line s) ;;;
    construct w (Tcp (host s) (port s))
  else if (client_type s =? "serial")%string then
    log INFO (serial_line s) ;;;
    construct w (Serial (serial_port s) (baudrate s))
  else
    log ERROR ("Unknown client type: " ++ client_type s) ;;;
    raise (SystemExit 1).

(** One block of the loop body; the source repeats it for the four
    groups, with the read method and the texts changed. *)
Definition poll_group (w : world) (cfg : ModbusClient.config) (g : ModbusClient.group)
  : prog unit :=
  let address := ModbusClient.start_address cfg g in
  let cnt := ModbusClient.count cfg g in
  if (0 <? cnt)%Z then
    try_except
      (resp <- read w g address cnt ;;
       if ModbusClient.isError resp then
         log ERROR (ModbusClient.error_line g resp)
       else
         log INFO (ModbusClient.values_line g address cnt resp))
      (fun ex =>
         match ex with
         | ModbusIOException msg => Some (log ERROR (ModbusClient.exception_line g msg))
         | KeyboardInterrupt | SystemExit _ | OtherException _ => None
         end)
  else ret tt.

(** One pass of the body of [while True]. *)
Definition poll_pass (w : world) (cfg : ModbusClient.config) : prog unit :=
  poll_group w cfg ModbusClient.Coils ;;;
  poll_group w cfg ModbusClient.Discretes ;;;
  poll_group w cfg ModbusClient.HoldingRegisters ;;;
  poll_group w cfg ModbusClient.InputRegisters ;;;
  log INFO ("Sleeping for " ++ PyStr.of_Z (ModbusClient.poll_interval cfg)
              ++ " seconds..." ++ PyStr.newline) ;;;
  time_sleep w (ModbusClient.poll_interval cfg).

(** The first [n] passes of [while True]: the loop goes on until a pass
    raises. *)
Fixpoint poll_loop (n : nat) (w : world) (cfg : ModbusClient.config) : prog unit :=
  match n with
  | O => ret tt
  | S k => poll_pass w cfg ;;; poll_loop k w cfg
  end.

(** What is known of the program after [n] passes: the loop is still
    going, or the function has returned. *)
Inductive status : Type := Running | Returned.

(** The statement [try: while True ... except KeyboardInterrupt: ...
    finally: ...], watched for [n] passes.  The [finally] block runs
    when the loop is left, which only an exception does. *)
Definition polling (n : nat) (w : world) (cfg : ModbusClient.config) : prog status :=
  fun h =>
    match poll_loop n w cfg h with
    | (h1, inr _) => (h1, inr Running)
    | (h1, inl KeyboardInterrupt) =>
        (log INFO "Received Ctrl+C, shutting down client polling loop..." ;;;
         close w ;;;
         log INFO "Client connection closed." ;;;
         ret Returned) h1
    | (h1, inl x) =>
        (close w ;;;
         log INFO "Client connection closed." ;;;
         raise x) h1
    end.

(** [run_modbus_client], after the configuration is loaded, watched
    for [n] passes of its loop. *)
Definition run_modbus_client (n : nat) (s : session) (cfg : ModbusClient.config)
           (w : world) : prog status :=
  client <- make_client w s ;;
  ok <- connect w client ;;
  (if negb ok then
     log ERROR "Failed to connect to the Modbus server." ;;;
     raise (SystemExit 1)
   else ret tt) ;;;
  log INFO (polling_line cfg) ;;;
  polling n w cfg.

(** *** Reading a trace *)

(** The client the function builds and the record it writes for it;
    [None] for an unknown client type. *)
Definition chosen (s : session) : option (string * transport) :=
  if (client_type s =? "tcp")%string then
    Some (tcp_line s, Tcp (host s) (port s))
  else if (client_type s =? "serial")%string then
    Some (serial_line s, Serial (serial_port s) (baudrate s))
  else None.

Definition is_connect (e : event) : bool :=
  match e with Io (Connect _ _) => true | _ => false end.

Definition is_close (e : event) : bool :=
  match e with Io (Close _) => true | _ => false end.

Definition is_read (e : event) : bool :=
  match e with Io (Read _ _ _ _) => true | _ => false end.

Definition is_sleeping (e : event) : bool :=
  match e with Io (Sleeping _ _) => true | _ => false end.

Definition is_interrupt (x : exception) : bool :=
  match x with KeyboardInterrupt => true | _ => false end.

Definition is_read_of (g : ModbusClient.group) (e : event) : bool :=
  match e with
  | Io (Read g' _ _ _) => ModbusClient.group_eqb g g'
  | _ => false
  end.

(** The failures the loop handles: an error response, or the exception
    class of its [except] clauses. *)
Definition handled (a : exception + ModbusClient.response) : bool :=
  match a with
  | inr _ => true
  | inl (ModbusIOException _) => true
  | inl _ => false
  end.

Definition failed (a : exception + ModbusClient.response) : bool :=
  match a with
  | inr resp => ModbusClient.isError resp
  | inl _ => true
  end.

Definition is_error_record (e : event) : bool :=
  match e with
  | Log ERROR _ => true
  | _ => false
  end.

Definition is_failed_read (e : event) : bool :=
  match e with
  | Io (Read _ _ _ a) => failed a
  | _ => false
  end.

(** The record one block writes for the answer to its read. *)
Definition block_log (g : ModbusClient.group) (address cnt : Z)
           (a : exception + ModbusClient.response) : list event :=
  match a with
  | inr resp =>
      if ModbusClient.isError resp then [Log ERROR (ModbusClient.error_line g resp)]
      else [Log INFO (ModbusClient.values_line g address cnt resp)]
  | inl (ModbusIOException msg) => [Log ERROR (ModbusClient.exception_line g msg)]
  | inl _ => []
  end.

(** What one block appends to the history [h], and how it ends. *)
Definition segment (w : world) (cfg : ModbusClient.config) (g : ModbusClient.group)
           (h : list event) : list event :=
  let address := ModbusClient.start_address cfg g in
  let cnt := ModbusClient.count cfg g in
  if (0 <? cnt)%Z then
    let a := read_answer w h g address cnt in
    Io (Read g address cnt a) :: block_log g address cnt a
  else [].

Definition group_outcome (w : world) (cfg : ModbusClient.config) (g : ModbusClient.group)
           (h : list event) : exception + unit :=
  let address := ModbusClient.start_address cfg g in
  let cnt := ModbusClient.count cfg g in
  if (0 <? cnt)%Z then
    match read_answer w h g address cnt with
    | inr _ => inr tt
    | inl (ModbusIOException _) => inr tt
    | inl x => inl x
    end
  else inr tt.

(** What the blocks before the one of [g] append to [h] when none of
    them raises. *)
Definition before (w : world) (cfg : ModbusClient.config) (g : ModbusClient.group)
           (h : list event) : list event :=
  let t1 := segment w cfg ModbusClient.Coils h in
  let t2 := segment w cfg ModbusClient.Discretes (h ++ t1) in
  let t3 := segment w cfg ModbusClient.HoldingRegisters ((h ++ t1) ++ t2) in
  match g with
  | ModbusClient.Coils => []
  | ModbusClient.Discretes => t1
  | ModbusClient.HoldingRegisters => t1 ++ t2
  | ModbusClient.InputRegisters => t1 ++ t2 ++ t3
  end.

(** What the four blocks append to [h] when none of them raises. *)
Definition blocks (w : world) (cfg : ModbusClient.config) (h : list event) : list event :=
  let t := before w cfg ModbusClient.InputRegisters h in
  t ++ segment w cfg ModbusClient.InputRegisters (h ++ t).

(** Every read of [tr] has its record in [tr]. *)
Definition recorded (tr : list event) : Prop :=
  forall g a c ans, In (Io (Read g a c ans)) tr -> incl (block_log g a c ans) tr.

(** The place of a group in a pass. *)
Definition position (g : ModbusClient.group) : nat :=
  match g with
  | ModbusClient.Coils => 0
  | ModbusClient.Discretes => 1
  | ModbusClient.HoldingRegisters => 2
  | ModbusClient.InputRegisters => 3
  end.

Definition sleeping_line (cfg : ModbusClient.config) : string :=
  "Sleeping for " ++ PyStr.of_Z (ModbusClient.poll_interval cfg)
    ++ " seconds..." ++ PyStr.newline.

(** The history at the start of the loop, after a connection that
    succeeded. *)
Definition connected (line : string) (client : transport) (cfg : ModbusClient.config)
  : list event :=
  [Log INFO line;
   Io (Construct client (inr tt));
   Io (Connect client (inr true));
   Log INFO (polling_line cfg)].

(** What the [except KeyboardInterrupt] and [finally] blocks append to
    the history [h1] when the loop was left with the exception [x], and
    how the function ends. *)
Definition leaving (w : world) (x : exception) (h1 : list event) : list event :=
  let pre := if is_interrupt x
             then [Log INFO "Received Ctrl+C, shutting down client polling loop..."]
             else [] in
  let ans := close_answer w (h1 ++ pre)%list in
  (pre ++ Io (Close ans)
       :: match ans with
          | inr _ => [Log INFO "Client connection closed."]
          | inl _ => []
          end)%list.

Definition leaving_outcome (w : world) (x : exception) (h1 : list event)
  : exception + status :=
  let pre := if is_interrupt x
             then [Log INFO "Received Ctrl+C, shutting down client polling loop..."]
             else [] in
  match close_answer w (h1 ++ pre)%list with
  | inl y => inl y
  | inr _ => if is_interrupt x then inr Returned else inl x
  end.

(** *** Examples *)

Definition tcp_session : session :=
  {| client_type := "tcp"; host := "127.0.0.1"; port := 5020;
     serial_port := "/dev/ttyUSB1"; baudrate := 9600 |}.

Definition udp_session : session :=
  {| client_type := "udp"; host := "127.0.0.1"; port := 5020;
     serial_port := "/dev/ttyUSB1"; baudrate := 9600 |}.

(** A server that answers every read; [Ctrl+C] arrives during the
    second sleep. *)
Definition interrupted_world : world :=
  {| construct_answer := fun _ _ => inr tt;
     connect_answer := fun _ _ => inr true;
     read_answer := fun _ _ _ _ => inr (ModbusClient.mkResponse false "" [true] [7]);
     sleep_answer := fun h _ =>
       if (1 <=? List.length (List.filter is_sleeping h))%nat then inl KeyboardInterrupt
       else inr tt;
     close_answer := fun _ => inr tt |}.

(** A server that has gone away: the first read raises pymodbus's
    [ConnectionException], the others would answer. *)
Definition disconnected_world : world :=
  {| construct_answer := fun _ _ => inr tt;
     connect_answer := fun _ _ => inr true;
     read_answer := fun _ g _ _ =>
       match g with
       | ModbusClient.Coils =>
           inl (OtherException "Modbus Error: [Connection] Failed to connect")
       | _ => inr (ModbusClient.mkResponse false "" [true] [7])
       end;
     sleep_answer := fun _ _ => inr tt;
     close_answer := fun _ => inr tt |}.

(** A server on which the coils time out and the holding registers
    answer with an error response. *)
Definition faulty_world : world :=
  {| construct_answer := fun _ _ => inr tt;
     connect_answer := fun _ _ => inr true;
     read_answer := fun _ g _ _ =>
       match g with
       | ModbusClient.Coils => inl (ModbusIOException "No response received")
       | ModbusClient.HoldingRegisters =>
           inr (ModbusClient.mkResponse true "Exception Response(131, 3, IllegalAddress)"
                                        [] [])
       | _ => inr (ModbusClient.mkResponse false "" [true] [7])
       end;
     sleep_answer := fun _ _ => inr tt;
     close_answer := fun _ => inr tt |}.

(** pymodbus 3, where the serial client takes no [method]. *)
Definition pymodbus3_world : world :=
  {| construct_answer := fun _ client =>
       match client with
       | Tcp _ _ => inr tt
       | Serial _ _ =>
           inl (OtherException "ModbusSerialClient.__init__() got an unexpected keyword argument 'method'")
       end;
     connect_answer := fun _ _ => inr true;
     read_answer := fun _ _ _ _ => inr (ModbusClient.mkResponse false "" [true] [7]);
     sleep_answer := fun _ _ => inr tt;
     close_answer := fun _ => inr tt |}.

Definition serial_session : session :=
  {| client_type := "serial"; host := "127.0.0.1"; port := 5020;
     serial_port := "/dev/ttyUSB1"; baudrate := 9600 |}.

(** A server that cannot be reached: [connect()] returns [False]. *)
Definition refusing_world : world :=
  {| construct_answer := fun _ _ => inr tt;
     connect_answer := fun _ _ => inr false;
     read_answer := fun _ _ _ _ => inl (ModbusIOException "No response received");
     sleep_answer := fun _ _ => inr tt;
     close_answer := fun _ => inr tt |}.

End ModbusRun.

(** ** bacnet/bacnet_client.py, with the calls into bacpypes as they
    can end: every call may raise *)

Module BacnetClientRun.
Import Eff PyFloat.
Local Open Scope string_scope.
Local Open Scope eff_scope.

(** The exceptions of the program: [ValueError], the class the
    [except] clause of [main] names, and any other class, with its
    name and text. *)
Inductive exception : Type :=
| ValueError (msg : string)
| OtherException (class msg : string).

(** A Python float as [cast_out(Real)] returns it: its value, and its
    text as the f-strings render it. *)
Record real : Type := mkReal {
  value : float;
  text : string
}.

(** An I/O control block after [iocb.wait()]: [ioError] ([None] or the
    error, as text) and whether [ioResponse] is set. *)
Record iocb : Type := mkIocb {
  ioError : option string;
  ioResponse : option unit
}.

Inductive request : Type :=
| ReadPropertyRequest (obj_type : string) (obj_inst : Z) (prop_id : string)
                      (pduDestination : string)
| WritePropertyRequest (obj_type : string) (obj_inst : Z) (prop_id : string)
                       (packed : float) (pduDestination : string).

(** The calls into bacpypes, with what they did:
    [self.app.request_io(request)], [iocb.wait()] for the request,
    [response.propertyValue.cast_out(Real)], and the final [stop()]. *)
Inductive call : Type :=
| RequestIo (req : request) (ans : exception + unit)
| Wait (req : request) (ans : exception + iocb)
| CastOut (ans : exception + real)
| Stop.

Abbreviation event := (Eff.event call).

(** The BACpypes application and the network behind it. *)
Record application : Type := mkApplication {
  io_answer : list event -> request -> exception + unit;
  wait_answer : list event -> request -> exception + iocb;
  cast_answer : list event -> exception + real
}.

Abbreviation prog := (M (Call := call) (Exn := exception)).

Definition request_io (app : application) (req : request) : prog unit :=
  Eff.call (fun h => io_answer app h req) (RequestIo req) (fun a => a).

Definition wait (app : application) (req : request) : prog iocb :=
  Eff.call (fun h => wait_answer app h req) (Wait req) (fun a => a).

Definition cast_out (app : application) : prog real :=
  Eff.call (cast_answer app) CastOut (fun a => a).

Definition stop : prog unit := emit (Io Stop).

(** [WaterTankClient.read_prop].  [cast_out(Real)] returns a float or
    raises; it never returns [None], so the statement [if val is None]
    of the source has nothing to do. *)
Definition read_prop (app : application) (target_addr obj_type : string)
           (obj_inst : Z) (prop_id : string) : prog (option real) :=
  let request := ReadPropertyRequest obj_type obj_inst prop_id target_addr in
  request_io app request ;;;
  io <- wait app request ;;
  match ioError io with
  | Some err => log ERROR ("Read error: " ++ err) ;;; ret None
  | None =>
      match ioResponse io with
      | None => log ERROR "No response from server." ;;; ret None
      | Some _ => val <- cast_out app ;; ret (Some val)
      end
  end.

(** The binary32 numbers: 24 bits of precision, exponents below 128. *)
Definition prec32 : Z := 24.
Definition emax32 : Z := 128.

(** [val.cast_in(Real(value))]: the value is packed as a binary32
    number ([struct.pack('>f', value)]), rounded to nearest;
    [OverflowError] when a finite value rounds to an infinity. *)
Definition pack_real (v : float) : prog float :=
  match v with
  | S754_finite s m e =>
      match binary_normalize prec32 emax32 (cond_Zopp s (Zpos m)) e s with
      | S754_infinity _ =>
          raise (OtherException "OverflowError" "float too large to pack with f format")
      | packed => ret packed
      end
  | _ => ret v
  end.

(** [WaterTankClient.write_prop]. *)
Definition write_prop (app : application) (target_addr obj_type : string)
           (obj_inst : Z) (prop_id : string) (v : float) : prog bool :=
  packed <- pack_real v ;;
  let request := WritePropertyRequest obj_type obj_inst prop_id packed target_addr in
  request_io app request ;;;
  io <- wait app request ;;
  match ioError io with
  | Some err => log ERROR ("Write error: " ++ err) ;;; ret false
  | None => ret true
  end.

(** The values [main] reads from the section [bacnet_client]. *)
Record config : Type := mkConfig {
  target_addr : string;
  level_id : Z;
  temp_id : Z;
  alarm_id : Z
}.

(** [f"{v}"] for a value that may be [None]. *)
Definition format (v : option real) : string :=
  match v with
  | Some r => text r
  | None => "None"
  end.

(** The statement [if not args.read_only and alarm_val is not None:]
    of [main], with its [try] block; [float(alarm_val)] of a float is
    that float. *)
Definition clear_alarm_if_active (read_only : bool) (cfg : config) (app : application)
           (alarm_val : option real) : prog unit :=
  if negb read_only then
    match alarm_val with
    | Some alarm =>
        try_except
          (let alarm_float := value alarm in
           if feq alarm_float (PyFloat.of_Z 1) then
             log INFO "Alarm is active; attempting to clear it (write 0)." ;;;
             success <- write_prop app (target_addr cfg) "binaryValue" (alarm_id cfg)
                                   "presentValue" (PyFloat.of_Z 0) ;;
             if success then log INFO "Alarm cleared." else ret tt
           else ret tt)
          (fun ex =>
             match ex with
             | ValueError _ => Some (ret tt)
             | OtherException _ _ => None
             end)
    | None => ret tt
    end
  else ret tt.

(** The three records of [main]. *)
Definition level_line (v : option real) : string :=
  "Water Level: " ++ format v ++ "%".

Definition temp_line (v : option real) : string :=
  "Water Temp : " ++ format v ++ "C".

Definition alarm_line (v : option real) : string :=
  "Alarm State: " ++ format v ++ " (1 = Active, 0 = Inactive)".

(** [main], after the configuration is loaded and the client built;
    [read_only] is [args.read_only]. *)
Definition main (read_only : bool) (cfg : config) (app : application) : prog unit :=
  level_val <- read_prop app (target_addr cfg) "analogValue" (level_id cfg) "presentValue" ;;
  log INFO (level_line level_val) ;;;
  temp_val <- read_prop app (target_addr cfg) "analogValue" (temp_id cfg) "presentValue" ;;
  log INFO (temp_line temp_val) ;;;
  alarm_val <- read_prop app (target_addr cfg) "binaryValue" (alarm_id cfg) "presentValue" ;;
  log INFO (alarm_line alarm_val) ;;;
  clear_alarm_if_active read_only cfg app alarm_val ;;;
  stop.

(** *** Reading a trace *)

Definition level_read (cfg : config) : request :=
  ReadPropertyRequest "analogValue" (level_id cfg) "presentValue" (target_addr cfg).

Definition temp_read (cfg : config) : request :=
  ReadPropertyRequest "analogValue" (temp_id cfg) "presentValue" (target_addr cfg).

Definition alarm_read (cfg : config) : request :=
  ReadPropertyRequest "binaryValue" (alarm_id cfg) "presentValue" (target_addr cfg).

Definition alarm_clear (cfg : config) : request :=
  WritePropertyRequest "binaryValue" (alarm_id cfg) "presentValue" (PyFloat.of_Z 0)
                       (target_addr cfg).

Definition is_write (req : request) : bool :=
  match req with
  | WritePropertyRequest _ _ _ _ _ => true
  | ReadPropertyRequest _ _ _ _ => false
  end.

(** The requests handed to [request_io] in a trace, in order. *)
Fixpoint requests (tr : list event) : list request :=
  match tr with
  | [] => []
  | Io (RequestIo req _) :: r => req :: requests r
  | _ :: r => requests r
  end.

Definition write_requests (tr : list event) : list request :=
  List.filter is_write (requests tr).

Definition read_requests (tr : list event) : list request :=
  List.filter (fun req => negb (is_write req)) (requests tr).

Definition is_error_record (e : event) : bool :=
  match e with
  | Log ERROR _ => true
  | _ => false
  end.

Definition is_record (e : event) : bool :=
  match e with
  | Log _ _ => true
  | _ => false
  end.

Definition is_stop (e : event) : bool :=
  match e with
  | Io Stop => true
  | _ => false
  end.

(** A failure that bacpypes reports through the I/O control block: an
    error, or for a read no response. *)
Definition reported_failure (req : request) (io : iocb) : bool :=
  match ioError io with
  | Some _ => true
  | None =>
      match ioResponse io with
      | None => negb (is_write req)
      | Some _ => false
      end
  end.

(** The record the client writes for a failure reported through the
    I/O control block. *)
Definition wait_log (req : request) (io : iocb) : list event :=
  match ioError io with
  | Some err =>
      [Log ERROR ((if is_write req then "Write error: " else "Read error: ") ++ err)]
  | None =>
      match ioResponse io with
      | None => if is_write req then [] else [Log ERROR "No response from server."]
      | Some _ => []
      end
  end.

(** Every I/O control block of [tr] has its record in [tr]. *)
Definition recorded (tr : list event) : Prop :=
  forall req io, In (Io (Wait req (inr io))) tr -> incl (wait_log req io) tr.

Definition is_reported_failure (e : event) : bool :=
  match e with
  | Io (Wait req (inr io)) => reported_failure req io
  | _ => false
  end.

(** What holds of every piece of a run before [stop()]: the failures
    reported are recorded, one ERROR record each, and [stop()] has not
    been called. *)
Definition sound (l : list event) : Prop :=
  recorded l
  /\ Trace.count is_error_record l = Trace.count is_reported_failure l
  /\ Trace.count is_stop l = 0%nat.

(** The exception a call raised, if it did. *)
Definition raised_by (c : call) : option exception :=
  match c with
  | RequestIo _ (inl x) => Some x
  | Wait _ (inl x) => Some x
  | CastOut (inl x) => Some x
  | _ => None
  end.

Definition is_raising_call (e : event) : bool :=
  match e with
  | Io c => match raised_by c with Some _ => true | None => false end
  | _ => false
  end.

(** What [read_prop] appends to the history [h] for the request
    [req], and how it ends. *)
Definition read_events (app : application) (req : request) (h : list event)
  : list event :=
  let a := io_answer app h req in
  let h1 := (h ++ [Io (RequestIo req a)])%list in
  Io (RequestIo req a)
     :: match a with
        | inl _ => []
        | inr _ =>
            let w := wait_answer app h1 req in
            let h2 := (h1 ++ [Io (Wait req w)])%list in
            Io (Wait req w)
               :: match w with
                  | inl _ => []
                  | inr io =>
                      match ioError io with
                      | Some err => [Log ERROR ("Read error: " ++ err)]
                      | None =>
                          match ioResponse io with
                          | None => [Log ERROR "No response from server."]
                          | Some _ => [Io (CastOut (cast_answer app h2))]
                          end
                      end
                  end
        end.

Definition read_result (app : application) (req : request) (h : list event)
  : exception + option real :=
  let a := io_answer app h req in
  let h1 := (h ++ [Io (RequestIo req a)])%list in
  match a with
  | inl x => inl x
  | inr _ =>
      let w := wait_answer app h1 req in
      let h2 := (h1 ++ [Io (Wait req w)])%list in
      match w with
      | inl x => inl x
      | inr io =>
          match ioError io with
          | Some _ => inr None
          | None =>
              match ioResponse io with
              | None => inr None
              | Some _ =>
                  match cast_answer app h2 with
                  | inl x => inl x
                  | inr v => inr (Some v)
                  end
              end
          end
      end
  end.

(** What [write_prop] appends to [h] for a value that packs as
    [packed], and how it ends. *)
Definition write_events (app : application) (req : request) (h : list event)
  : list event :=
  let a := io_answer app h req in
  let h1 := (h ++ [Io (RequestIo req a)])%list in
  Io (RequestIo req a)
     :: match a with
        | inl _ => []
        | inr _ =>
            let w := wait_answer app h1 req in
            Io (Wait req w)
               :: match w with
                  | inl _ => []
                  | inr io =>
                      match ioError io with
                      | Some err => [Log ERROR ("Write error: " ++ err)]
                      | None => []
                      end
                  end
        end.

Definition write_result (app : application) (req : request) (h : list event)
  : exception + bool :=
  let a := io_answer app h req in
  let h1 := (h ++ [Io (RequestIo req a)])%list in
  match a with
  | inl x => inl x
  | inr _ =>
      match wait_answer app h1 req with
      | inl x => inl x
      | inr io =>
          match ioError io with
          | Some _ => inr false
          | None => inr true
          end
      end
  end.

(** The value was read and it is [== 1.0]. *)
Definition reads_active (v : option real) : bool :=
  match v with
  | Some r => feq (value r) (PyFloat.of_Z 1)
  | None => false
  end.

(** What the statement [if not args.read_only and alarm_val is not
    None:] appends to the history [h], and how it ends: a
    [ValueError] raised inside the [try] block is dropped. *)
Definition clear_events (read_only : bool) (cfg : config) (app : application)
           (alarm_val : option real) (h : list event) : list event :=
  if negb read_only && reads_active alarm_val then
    let line := Log INFO "Alarm is active; attempting to clear it (write 0)." in
    line :: write_events app (alarm_clear cfg) (h ++ [line])%list
         ++ match write_result app (alarm_clear cfg) (h ++ [line])%list with
            | inr true => [Log INFO "Alarm cleared."]
            | _ => []
            end
  else [].

Definition clear_result (read_only : bool) (cfg : config) (app : application)
           (alarm_val : option real) (h : list event) : exception + unit :=
  if negb read_only && reads_active alarm_val then
    match write_result app (alarm_clear cfg)
                       (h ++ [Log INFO "Alarm is active; attempting to clear it (write 0)."])%list
    with
    | inl (OtherException class msg) => inl (OtherException class msg)
    | _ => inr tt
    end
  else inr tt.

(** The value [main] has for the alarm when none of its three reads
    raises ([Some None] when the alarm read was reported failed). *)
Definition alarm_seen (cfg : config) (app : application) : option (option real) :=
  match read_result app (level_read cfg) [] with
  | inl _ => None
  | inr v1 =>
      let h1 := (read_events app (level_read cfg) [] ++ [Log INFO (level_line v1)])%list in
      match read_result app (temp_read cfg) h1 with
      | inl _ => None
      | inr v2 =>
          let h2 := (h1 ++ read_events app (temp_read cfg) h1
                        ++ [Log INFO (temp_line v2)])%list in
          match read_result app (alarm_read cfg) h2 with
          | inl _ => None
          | inr v3 => Some v3
          end
      end
  end.

(** The three reads of [main], in order. *)
Definition reads_in_order (cfg : config) : list request :=
  [level_read cfg; temp_read cfg; alarm_read cfg].

(** *** Example applications *)

Definition example_config : config :=
  {| target_addr := "192.168.1.10"; level_id := 1; temp_id := 2; alarm_id := 3 |}.

(** bacpypes as it is: [request_io] is handed the request where it
    expects an [IOCB], and raises [TypeError]. *)
Definition bacpypes_application : application :=
  {| io_answer := fun _ _ => inl (OtherException "TypeError" "IOCB expected");
     wait_answer := fun _ _ => inr {| ioError := None; ioResponse := Some tt |};
     cast_answer := fun _ => inr {| value := PyFloat.of_Z 0; text := "0.0" |} |}.

(** An application that accepts the requests, in front of a server
    that reports the level [42.0] for every read; writes succeed. *)
Definition answering (v : real) : application :=
  {| io_answer := fun _ _ => inr tt;
     wait_answer := fun _ req =>
       inr {| ioError := None;
              ioResponse := if is_write req then None else Some tt |};
     cast_answer := fun _ => inr v |}.

(** The same in front of a server that does not answer: every request
    ends in an error. *)
Definition timing_out : application :=
  {| io_answer := fun _ _ => inr tt;
     wait_answer := fun _ _ => inr {| ioError := Some "timeout"; ioResponse := None |};
     cast_answer := fun _ => inr {| value := PyFloat.of_Z 0; text := "0.0" |} |}.

(** The same, with an alarm object whose value is not a Real:
    [cast_out(Real)] raises [InvalidTag]. *)
Definition enumerated_alarm : application :=
  {| io_answer := fun _ _ => inr tt;
     wait_answer := fun _ _ => inr {| ioError := None; ioResponse := Some tt |};
     cast_answer := fun h =>
       if (2 <=? List.length (List.filter is_record h))%nat
       then inl (OtherException "InvalidTag" "real application tag required")
       else inr {| value := PyFloat.of_Z 42; text := "42.0" |} |}.

Definition one : real := {| value := PyFloat.of_Z 1; text := "1.0" |}.

End BacnetClientRun.

(* ===================================================================== *)
(** * Part II: properties                                                 *)
(* ===================================================================== *)

Section FloatFacts.
Import PyFloat.

Lemma flt_fle (x y : float) : flt x y = true -> fle x y = true.
Proof.
  unfold flt, fle, SFltb, SFleb.
  destruct (SFcompare x y) as [[ | | ] | ]; congruence.
Qed.

Lemma SFcompare_Eq_sym (x y : float) :
  SFcompare x y = Some Eq -> SFcompare y x = Some Eq.
Proof.
  destruct x as [sx | sx | | sx mx ex], y as [sy | sy | | sy my ey];
    simpl; try congruence;
    try (destruct sx; congruence); try (destruct sy; congruence).
  - destruct sx, sy; congruence.
  - destruct sx, sy; try congruence.
    + destruct (Z.compare_spec ex ey) as [-> | | ]; try congruence.
      rewrite Z.compare_refl.
      change (Pos.compare_cont Eq mx my) with (Pos.compare mx my).
      change (Pos.compare_cont Eq my mx) with (Pos.compare my mx).
      destruct (Pos.compare_spec mx my) as [-> | | ]; simpl; try congruence.
      rewrite Pos.compare_refl. reflexivity.
    + destruct (Z.compare_spec ex ey) as [-> | | ]; try congruence.
      rewrite Z.compare_refl.
      change (Pos.compare_cont Eq mx my) with (Pos.compare mx my).
      change (Pos.compare_cont Eq my mx) with (Pos.compare my mx).
      destruct (Pos.compare_spec mx my) as [-> | | ]; simpl; try congruence.
      rewrite Pos.compare_refl. reflexivity.
Qed.

Lemma feq_fge (x y : float) : feq x y = true -> fge x y = true.
Proof.
  unfold feq, fge, SFeqb, SFleb. intros H.
  destruct (SFcompare x y) as [[ | | ] | ] eqn:E; try discriminate.
  rewrite (SFcompare_Eq_sym _ _ E). reflexivity.
Qed.

Lemma feq_fle (x y : float) : feq x y = true -> fle x y = true.
Proof.
  unfold feq, fle, SFeqb, SFleb.
  destruct (SFcompare x y) as [[ | | ] | ]; congruence.
Qed.

(** The literals of the sources are binary64 numbers: [0.0], [1.0],
    [100.0] and [0.5] with their 53-bit mantissas. *)
Lemma literals_binary64 :
  of_Z 0 = S754_zero false /\
  of_Z 1 = S754_finite false 4503599627370496 (-52) /\
  of_Z 100 = S754_finite false 7036874417766400 (-46) /\
  of_scaled 1 (-1) = S754_finite false 4503599627370496 (-53) /\
  valid_binary prec emax (of_Z 100) = true /\
  valid_binary prec emax (of_scaled 1 (-1)) = true.
Proof. vm_compute. repeat split. Qed.

(** [max(0.0, min(100.0, x))] lies between [0.0] and [100.0] for every
    float [x], NaN and the infinities included. *)
Lemma clamp_range (x : float) :
  fle (of_Z 0) (max2 (of_Z 0) (min2 (of_Z 100) x)) = true /\
  fle (max2 (of_Z 0) (min2 (of_Z 100) x)) (of_Z 100) = true.
Proof.
  unfold max2, min2, fgt, flt.
  destruct (SFltb x (of_Z 100)) eqn:H100.
  - destruct (SFltb (of_Z 0) x) eqn:H0.
    + split; apply flt_fle; assumption.
    + split; reflexivity.
  - split; reflexivity.
Qed.

End FloatFacts.

Section FloatOrderFacts.
Import PyFloat FloatOrder.

Lemma SFcompare_key (x y : float) :
  is_nan x = false -> is_nan y = false ->
  SFcompare x y = Some (lex_compare (key x) (key y)).
Proof.
  destruct x as [sx | [ | ] | | [ | ] mx ex], y as [sy | [ | ] | | [ | ] my ey];
    cbn; try discriminate; intros _ _; try reflexivity.
  rewrite Z.compare_opp, (Z.compare_antisym ex ey).
  destruct (ex ?= ey); reflexivity.
Qed.

Lemma lex_compare_le (k1 k2 : Z * Z * Z) :
  lex_compare k1 k2 <> Gt <-> lex_le k1 k2.
Proof.
  destruct k1 as [[a1 b1] c1], k2 as [[a2 b2] c2]. unfold lex_compare, lex_le.
  destruct (Z.compare_spec a1 a2); [ | split; [ lia | discriminate ] | split; [ congruence | lia ] ].
  destruct (Z.compare_spec b1 b2); [ | split; [ lia | discriminate ] | split; [ congruence | lia ] ].
  destruct (Z.compare_spec c1 c2); split; try lia; try discriminate; congruence.
Qed.

Lemma lex_compare_lt (k1 k2 : Z * Z * Z) :
  lex_compare k1 k2 = Lt <-> lex_lt k1 k2.
Proof.
  destruct k1 as [[a1 b1] c1], k2 as [[a2 b2] c2]. unfold lex_compare, lex_lt.
  destruct (Z.compare_spec a1 a2); [ | split; [ lia | reflexivity ] | split; [ discriminate | lia ] ].
  destruct (Z.compare_spec b1 b2); [ | split; [ lia | reflexivity ] | split; [ discriminate | lia ] ].
  destruct (Z.compare_spec c1 c2); split; try lia; try discriminate; reflexivity.
Qed.

Lemma fle_key (x y : float) :
  fle x y = true -> is_nan x = false /\ is_nan y = false /\ lex_le (key x) (key y).
Proof.
  unfold fle, SFleb. intros H.
  assert (Hx : is_nan x = false) by (destruct x; try reflexivity; discriminate H).
  assert (Hy : is_nan y = false)
    by (destruct y; try reflexivity; destruct x as [ | | | [ | ] ]; discriminate H).
  split; [ exact Hx | split; [ exact Hy | ] ].
  rewrite (SFcompare_key x y Hx Hy) in H. apply lex_compare_le.
  destruct (lex_compare (key x) (key y)); congruence.
Qed.

Lemma flt_key (x y : float) :
  flt x y = true -> is_nan x = false /\ is_nan y = false /\ lex_lt (key x) (key y).
Proof.
  unfold flt, SFltb. intros H.
  assert (Hx : is_nan x = false) by (destruct x; try reflexivity; discriminate H).
  assert (Hy : is_nan y = false)
    by (destruct y; try reflexivity; destruct x as [ | | | [ | ] ]; discriminate H).
  split; [ exact Hx | split; [ exact Hy | ] ].
  rewrite (SFcompare_key x y Hx Hy) in H. apply lex_compare_lt.
  destruct (lex_compare (key x) (key y)); congruence.
Qed.

(** No float lies above [hi] and below [lo] when [lo < hi]. *)
Lemma no_float_between (lo hi x : float) :
  flt lo hi = true -> fge x hi = true -> fle x lo = true -> False.
Proof.
  intros H1 H2 H3.
  apply flt_key in H1 as (_ & _ & H1).
  apply fle_key in H2 as (_ & _ & H2).
  apply fle_key in H3 as (_ & _ & H3).
  destruct (key lo) as [[a1 b1] c1], (key hi) as [[a2 b2] c2], (key x) as [[a3 b3] c3].
  unfold lex_lt, lex_le in *. lia.
Qed.

Lemma key_flt (x y : float) :
  is_nan x = false -> is_nan y = false -> lex_lt (key x) (key y) -> flt x y = true.
Proof.
  intros Hx Hy H. unfold flt, SFltb. rewrite (SFcompare_key x y Hx Hy).
  apply lex_compare_lt in H. rewrite H. reflexivity.
Qed.

Lemma flt_irrefl_key (x y : float) : flt x y = true -> flt y x = false.
Proof.
  intros H. destruct (flt y x) eqn:E; [ | reflexivity ].
  apply flt_key in H as (_ & _ & H). apply flt_key in E as (_ & _ & E).
  destruct (key x) as [[a1 b1] c1], (key y) as [[a2 b2] c2].
  unfold lex_lt in *. lia.
Qed.

Lemma fle_not_flt (x y : float) : fle x y = true -> flt y x = false.
Proof.
  intros H. destruct (flt y x) eqn:E; [ | reflexivity ].
  apply fle_key in H as (_ & _ & H). apply flt_key in E as (_ & _ & E).
  destruct (key x) as [[a1 b1] c1], (key y) as [[a2 b2] c2].
  unfold lex_lt, lex_le in *. lia.
Qed.

(** Floats that are not NaN and have the same key compare equal. *)
Lemma key_feq (x y : float) :
  is_nan x = false -> is_nan y = false -> key x = key y -> feq x y = true.
Proof.
  intros Hx Hy H. unfold feq, SFeqb. rewrite (SFcompare_key x y Hx Hy), H.
  destruct (key y) as [[a b] c]. unfold lex_compare. rewrite !Z.compare_refl. reflexivity.
Qed.

End FloatOrderFacts.

Section TankFacts.
Import PyFloat BacnetServer.

(** [max(0.0, min(100.0, x))] by the place of [x]: below [0.0] it is
    [0.0], above [100.0] it is [100.0], strictly between the two it is
    [x] itself, and from [0.0] to [100.0] it compares equal to [x]
    ([-0.0] becomes [0.0]). *)
Lemma clamp_cases (x : float) :
  (flt x (of_Z 0) = true -> max2 (of_Z 0) (min2 (of_Z 100) x) = of_Z 0) /\
  (fgt x (of_Z 100) = true -> max2 (of_Z 0) (min2 (of_Z 100) x) = of_Z 100) /\
  (fgt x (of_Z 0) = true -> flt x (of_Z 100) = true ->
   max2 (of_Z 0) (min2 (of_Z 100) x) = x) /\
  (fle (of_Z 0) x = true -> fle x (of_Z 100) = true ->
   feq (max2 (of_Z 0) (min2 (of_Z 100) x)) x = true).
Proof.
  unfold max2, min2.
  change (fgt x (of_Z 100)) with (flt (of_Z 100) x).
  change (fgt x (of_Z 0)) with (flt (of_Z 0) x).
  change (fgt (if flt x (of_Z 100) then x else of_Z 100) (of_Z 0))
    with (flt (of_Z 0) (if flt x (of_Z 100) then x else of_Z 100)).
  split; [ | split; [ | split ] ].
  - intros H.
    assert (H100 : flt x (of_Z 100) = true).
    { apply flt_key in H as (Hx & _ & H).
      apply key_flt; [ exact Hx | reflexivity | ].
      change (FloatOrder.key (of_Z 0)) with (0, 0, 0) in H.
      change (FloatOrder.key (of_Z 100)) with (1, -46, 7036874417766400).
      destruct (FloatOrder.key x) as [[a b] c]. unfold FloatOrder.lex_lt in *. lia. }
    rewrite H100, (flt_irrefl_key _ _ H). reflexivity.
  - intros H. rewrite (flt_irrefl_key _ _ H). reflexivity.
  - intros H0 H100. rewrite H100, H0. reflexivity.
  - intros H0 H100.
    destruct (flt x (of_Z 100)) eqn:E100.
    + destruct (flt (of_Z 0) x) eqn:E0.
      * apply fle_key in H0 as (_ & Hx & _).
        apply key_feq; [ exact Hx | exact Hx | reflexivity ].
      * apply fle_key in H0 as (_ & Hx & H0).
        apply key_feq; [ reflexivity | exact Hx | ].
        assert (Hn : ~ FloatOrder.lex_lt (FloatOrder.key (of_Z 0)) (FloatOrder.key x)).
        { intros Hlt. rewrite (key_flt (of_Z 0) x eq_refl Hx Hlt) in E0. discriminate E0. }
        change (FloatOrder.key (of_Z 0)) with (0, 0, 0) in *.
        destruct (FloatOrder.key x) as [[a b] c].
        unfold FloatOrder.lex_lt, FloatOrder.lex_le in *.
        assert (E : a = 0 /\ b = 0 /\ c = 0) by lia.
        destruct E as (-> & -> & ->). reflexivity.
    + change (flt (of_Z 0) (of_Z 100)) with true. cbv iota.
      apply fle_key in H100 as (Hx & _ & H100).
      apply key_feq; [ reflexivity | exact Hx | ].
      assert (Hn : ~ FloatOrder.lex_lt (FloatOrder.key x) (FloatOrder.key (of_Z 100))).
      { intros Hlt. rewrite (key_flt x (of_Z 100) Hx eq_refl Hlt) in E100. discriminate E100. }
      change (FloatOrder.key (of_Z 100)) with (1, -46, 7036874417766400) in *.
      destruct (FloatOrder.key x) as [[a b] c].
      unfold FloatOrder.lex_lt, FloatOrder.lex_le in *.
      assert (E : a = 1 /\ b = -46 /\ c = 7036874417766400) by lia.
      destruct E as (-> & -> & ->). reflexivity.
Qed.

(** C1. One simulation tick adds the draw to the level and clamps the
    sum to [0, 100].  Whatever the level before the tick and whatever
    the draws, after [update_tank] we have [0.0 <= level <= 100.0]; the
    new level is [level + delta] when that sum lies strictly between
    [0.0] and [100.0], and compares equal to it when it lies from [0.0]
    to [100.0]; it is [0.0] when the sum is below [0.0] and [100.0] when
    the sum is above [100.0]. *)
Theorem update_tank_adds_and_clamps (t : WaterTank) (d_level d_temp : float) :
  (fle (of_Z 0) (level (update_tank t d_level d_temp)) = true /\
   fle (level (update_tank t d_level d_temp)) (of_Z 100) = true) /\
  (fgt (fadd (level t) d_level) (of_Z 0) = true ->
   flt (fadd (level t) d_level) (of_Z 100) = true ->
   level (update_tank t d_level d_temp) = fadd (level t) d_level) /\
  (fle (of_Z 0) (fadd (level t) d_level) = true ->
   fle (fadd (level t) d_level) (of_Z 100) = true ->
   feq (level (update_tank t d_level d_temp)) (fadd (level t) d_level) = true) /\
  (flt (fadd (level t) d_level) (of_Z 0) = true ->
   level (update_tank t d_level d_temp) = of_Z 0) /\
  (fgt (fadd (level t) d_level) (of_Z 100) = true ->
   level (update_tank t d_level d_temp) = of_Z 100).
Proof.
  unfold update_tank; cbn [level].
  destruct (clamp_cases (fadd (level t) d_level)) as (Hlow & Hhigh & Hin & Heq).
  split; [ apply clamp_range | ].
  split; [ exact Hin | ].
  split; [ exact Heq | ].
  split; [ exact Hlow | exact Hhigh ].
Qed.

Lemma update_tank_adds_and_clamps_witness :
  level (update_tank (tank_at (of_Z 50)) (of_scaled 3 (-1)) (of_Z 0)) = of_scaled 103 (-1) /\
  level (update_tank (tank_at (of_Z 0)) (of_Z (-1)) (of_Z 0)) = of_Z 0 /\
  level (update_tank (tank_at (of_Z 99)) (of_Z 2) (of_Z 0)) = of_Z 100.
Proof.
  split; [ | split ].
  - rewrite (proj1 (proj2 (update_tank_adds_and_clamps
                             (tank_at (of_Z 50)) (of_scaled 3 (-1)) (of_Z 0))));
      vm_compute; reflexivity.
  - apply (proj1 (proj2 (proj2 (proj2 (update_tank_adds_and_clamps
                                         (tank_at (of_Z 0)) (of_Z (-1)) (of_Z 0)))))).
    vm_compute. reflexivity.
  - apply (proj2 (proj2 (proj2 (proj2 (update_tank_adds_and_clamps
                                         (tank_at (of_Z 99)) (of_Z 2) (of_Z 0)))))).
    vm_compute. reflexivity.
Defined.

(** A float that compares above [0.0] is not a NaN, so it compares
    equal to itself. *)
Lemma fge_refl_of_nonneg (x : float) : fle (of_Z 0) x = true -> fge x x = true.
Proof.
  unfold fge, fle, SFleb.
  destruct x as [sx | sx | | sx mx ex]; simpl; try discriminate; intros _.
  - reflexivity.
  - destruct sx; reflexivity.
  - destruct sx; rewrite Z.compare_refl, Pos.compare_cont_refl; reflexivity.
Qed.

(** C2. The alarms computed by a tick are the non-strict comparisons of
    the new level with the two thresholds, [high_alarm = (level >=
    high_thresh)] and [low_alarm = (level <= low_thresh)]; in particular
    a new level equal to a threshold (Python [==], or the very same
    float) raises the corresponding alarm. *)
Theorem update_tank_alarms_inclusive (t : WaterTank) (d_level d_temp : float) :
  high_alarm (update_tank t d_level d_temp)
    = fge (level (update_tank t d_level d_temp)) (high_thresh t) /\
  low_alarm (update_tank t d_level d_temp)
    = fle (level (update_tank t d_level d_temp)) (low_thresh t) /\
  (feq (level (update_tank t d_level d_temp)) (high_thresh t) = true ->
     high_alarm (update_tank t d_level d_temp) = true) /\
  (feq (level (update_tank t d_level d_temp)) (low_thresh t) = true ->
     low_alarm (update_tank t d_level d_temp) = true) /\
  (level (update_tank t d_level d_temp) = high_thresh t ->
     high_alarm (update_tank t d_level d_temp) = true) /\
  (level (update_tank t d_level d_temp) = low_thresh t ->
     low_alarm (update_tank t d_level d_temp) = true).
Proof.
  pose proof (clamp_range (fadd (level t) d_level)) as [Hlo _].
  revert Hlo. unfold update_tank; cbn [level high_alarm low_alarm].
  set (l := max2 _ _). intros Hlo.
  repeat split.
  - apply feq_fge.
  - apply feq_fle.
  - intros <-. apply fge_refl_of_nonneg, Hlo.
  - intros <-. apply (fge_refl_of_nonneg l Hlo).
Qed.

Lemma update_tank_alarms_inclusive_witness :
  feq (level (update_tank (tank_at (of_Z 89)) (of_Z 1) (of_Z 0))) (of_Z 90) = true /\
  high_alarm (update_tank (tank_at (of_Z 89)) (of_Z 1) (of_Z 0)) = true.
Proof.
  split.
  - vm_compute. reflexivity.
  - apply (proj1 (proj2 (proj2
             (update_tank_alarms_inclusive (tank_at (of_Z 89)) (of_Z 1) (of_Z 0))))).
    vm_compute. reflexivity.
Defined.

End TankFacts.

Section ServerFacts.
Import PyFloat BacnetServer.

Lemma update_loop_body_alarm (s : Server) (d_level d_temp : float) :
  alarm_obj (update_loop_body s d_level d_temp)
    = if condition (tank (update_loop_body s d_level d_temp)) then 1 else 0.
Proof. reflexivity. Qed.

(** C3, as the code has it.  The pass of [update_loop] that follows an
    external write to the alarm object ignores the written value: the
    alarm object is set from the tank alone, and it is set to active
    whenever the threshold condition holds for the level as that pass
    has just updated it. *)
Theorem external_clear_is_transient (s : Server) (v : Z) (d_level d_temp : float) :
  alarm_obj (update_loop_body (external_write_alarm v s) d_level d_temp)
    = alarm_obj (update_loop_body s d_level d_temp) /\
  (condition (tank (update_loop_body (external_write_alarm v s) d_level d_temp)) = true ->
   alarm_obj (update_loop_body (external_write_alarm v s) d_level d_temp) = 1).
Proof.
  split.
  - reflexivity.
  - intros H. rewrite update_loop_body_alarm, H. reflexivity.
Qed.

Lemma external_clear_is_transient_witness :
  condition (tank (update_loop_body (external_write_alarm 0 low_alarm_server)
                                    (of_Z 0) (of_Z 0))) = true /\
  alarm_obj (update_loop_body (external_write_alarm 0 low_alarm_server)
                              (of_Z 0) (of_Z 0)) = 1.
Proof.
  split.
  - vm_compute. reflexivity.
  - apply (proj2 (external_clear_is_transient low_alarm_server 0 (of_Z 0) (of_Z 0))).
    vm_compute. reflexivity.
Defined.

(** C3, as stated, fails: the level moves before the alarm is derived
    again.  In [low_alarm_server] the level is [10.0 <= low_thresh] and
    the alarm object is active; after an external clear, a pass whose
    draw is [+0.5] (inside [uniform(-1.0, 2.0)]) takes the level to
    [10.5] and leaves the alarm object inactive. *)
Lemma external_clear_not_reasserted :
  condition (tank low_alarm_server) = true /\
  alarm_obj low_alarm_server = 1 /\
  level_draw (of_scaled 1 (-1)) = true /\
  alarm_obj (update_loop_body (external_write_alarm 0 low_alarm_server)
                              (of_scaled 1 (-1)) (of_Z 0)) = 0.
Proof. vm_compute. repeat split. Qed.

Lemma level_view_body (s1 s2 : Server) (d_level dt1 dt2 : float) :
  level_view s1 = level_view s2 ->
  level_view (update_loop_body s1 d_level dt1)
    = level_view (update_loop_body s2 d_level dt2) /\
  high_alarm (tank (update_loop_body s1 d_level dt1))
    = high_alarm (tank (update_loop_body s2 d_level dt2)).
Proof.
  unfold level_view, update_loop_body, update_tank; cbn.
  intros [= -> -> -> _]. split; reflexivity.
Qed.

Lemma level_view_loop (n : nat) (dl : nat -> float) (dt1 dt2 : nat -> float)
      (s1 s2 : Server) :
  level_view s1 = level_view s2 ->
  level_view (update_loop n (fun k => (dl k, dt1 k)) s1)
    = level_view (update_loop n (fun k => (dl k, dt2 k)) s2) /\
  high_alarm (tank (update_loop (S n) (fun k => (dl k, dt1 k)) s1))
    = high_alarm (tank (update_loop (S n) (fun k => (dl k, dt2 k)) s2)).
Proof.
  intros H. induction n as [ | n [IHv IHa]]; cbn [update_loop fst snd].
  - split; [exact H | apply level_view_body; exact H].
  - pose proof (level_view_body _ _ (dl n) (dt1 n) (dt2 n) IHv) as [Hv _].
    split; [exact Hv | apply level_view_body; exact Hv].
Qed.

Lemma scenario_temperature_free (temp0 : float) (dt : nat -> float) (n : nat) :
  level_view (scenario temp0 dt n) = level_view (scenario (of_Z 0) (fun _ => of_Z 0) n) /\
  high_alarm (tank (scenario temp0 dt (S n)))
    = high_alarm (tank (scenario (of_Z 0) (fun _ => of_Z 0) (S n))).
Proof.
  unfold scenario.
  apply (level_view_loop n (fun _ => of_Z 5) dt (fun _ => of_Z 0)).
  reflexivity.
Qed.

(** C6. In the scenario the level is [90.0] after the 8th tick, so it
    has reached the high threshold; [high_alarm] is false after each of
    the ticks 1 to 7 and true after the 8th; and the alarm object is
    inactive after 0 to 7 ticks and active after the 8th: it flips on
    the tick that crosses the threshold. *)
Theorem scenario_alarm_on_eighth_tick (temp0 : float) (dt : nat -> float) :
  level (tank (scenario temp0 dt 8)) = of_Z 90 /\
  fge (level (tank (scenario temp0 dt 8))) (of_Z 90) = true /\
  flt (level (tank (scenario temp0 dt 7))) (of_Z 90) = true /\
  map (fun n => high_alarm (tank (scenario temp0 dt n))) (seq 1 8)
    = [false; false; false; false; false; false; false; true] /\
  map (fun n => alarm_obj (scenario temp0 dt n)) (seq 0 9)
    = [0; 0; 0; 0; 0; 0; 0; 0; 1].
Proof.
  assert (Hl : forall n, level (tank (scenario temp0 dt n))
                         = level (tank (scenario (of_Z 0) (fun _ => of_Z 0) n))).
  { intros n. destruct (scenario_temperature_free temp0 dt n) as [H _].
    unfold level_view in H. congruence. }
  assert (Ha : forall n, alarm_obj (scenario temp0 dt n)
                         = alarm_obj (scenario (of_Z 0) (fun _ => of_Z 0) n)).
  { intros n. destruct (scenario_temperature_free temp0 dt n) as [H _].
    unfold level_view in H. congruence. }
  assert (Hh : forall n, high_alarm (tank (scenario temp0 dt (S n)))
                         = high_alarm (tank (scenario (of_Z 0) (fun _ => of_Z 0) (S n)))).
  { intros n. apply scenario_temperature_free. }
  cbn [map seq]. rewrite !Hl, !Ha, !Hh.
  vm_compute. repeat split.
Qed.

End ServerFacts.

Section ModbusFacts.
Import Eff ModbusClient.

Variable client : modbus_client.
Variable sleeping : clock.
Variable cfg : config.

Lemma poll_group_run (g : group) (h : list event) :
  poll_group client cfg g h
    = (h ++ segment client cfg g h,
       if (0 <? count cfg g)%Z then
         match client h g (start_address cfg g) (count cfg g) with
         | Raises (OtherException msg) => inl (OtherException msg)
         | _ => inr tt
         end
       else inr tt).
Proof.
  unfold poll_group, segment.
  destruct (0 <? count cfg g)%Z.
  - unfold try_except, bind, read, Eff.call, log, emit, block_log.
    destruct (client h g (start_address cfg g) (count cfg g)) as [r | [msg | msg]].
    + destruct (isError r); rewrite <- app_assoc; reflexivity.
    + rewrite <- app_assoc; reflexivity.
    + reflexivity.
  - unfold ret. rewrite app_nil_r. reflexivity.
Qed.

(** *** Counting in traces *)

Lemma read_attempts_app (g : group) (l1 l2 : list event) :
  read_attempts g (l1 ++ l2) = (read_attempts g l1 + read_attempts g l2)%nat.
Proof. unfold read_attempts. rewrite List.filter_app, List.length_app. reflexivity. Qed.

Lemma read_attempts_block_log (g g' : group) (a c : Z) (ans : answer) :
  read_attempts g (block_log g' a c ans) = 0%nat.
Proof.
  destruct ans as [r | [msg | msg]]; simpl; try reflexivity.
  destruct (isError r); reflexivity.
Qed.

Lemma read_attempts_segment (g g' : group) (h : list event) :
  read_attempts g (segment client cfg g' h)
    = if group_eqb g g' && (0 <? count cfg g')%Z then 1%nat else 0%nat.
Proof.
  unfold segment. destruct (0 <? count cfg g')%Z.
  - rewrite andb_true_r.
    change (read_attempts g (?e :: ?l)) with (read_attempts g ([e] ++ l)).
    rewrite read_attempts_app, read_attempts_block_log.
    unfold read_attempts; simpl. destruct (group_eqb g g'); reflexivity.
  - rewrite andb_false_r. reflexivity.
Qed.

(** *** No read of a group whose count is not positive *)

Lemma keeps_bind (Q : list event -> Prop) {A B : Type}
      (m : M A) (k : A -> M (Call := call) (Exn := exception) B) :
  keeps Q m -> (forall a, keeps Q (k a)) -> keeps Q (bind m k).
Proof.
  intros Hm Hk h Hh. unfold bind.
  specialize (Hm h Hh). destruct (m h) as [h1 [x | a]]; simpl in *.
  - exact Hm.
  - apply Hk, Hm.
Qed.

Lemma keeps_poll_group (g g' : group) :
  (0 <? count cfg g)%Z = false ->
  keeps (fun h => read_attempts g h = 0%nat) (poll_group client cfg g').
Proof.
  intros Hc h Hh. rewrite poll_group_run; simpl.
  rewrite read_attempts_app, Hh, read_attempts_segment.
  destruct (group_eqb g g') eqn:E; [ | reflexivity ].
  assert (g = g') as <- by (destruct g, g'; simpl in E; congruence).
  rewrite Hc. reflexivity.
Qed.

Lemma keeps_emit_other (g : group) (e : event) :
  is_read_of g e = false ->
  keeps (Exn := exception) (fun h => read_attempts g h = 0%nat) (emit e).
Proof.
  intros He h Hh. unfold emit; simpl.
  rewrite read_attempts_app, Hh. unfold read_attempts; simpl.
  rewrite He. reflexivity.
Qed.

Lemma keeps_sleep (g : group) (seconds : Z) :
  keeps (fun h => read_attempts g h = 0%nat) (sleep sleeping seconds).
Proof.
  intros h Hh. unfold sleep; simpl.
  rewrite read_attempts_app, Hh. reflexivity.
Qed.

Lemma skipped_group_not_read (g : group) :
  (0 <? count cfg g)%Z = false ->
  read_attempts g (trace (poll_cycle client sleeping cfg)) = 0%nat.
Proof.
  intros Hc. unfold trace.
  apply (keeps_bind (fun h => read_attempts g h = 0%nat)); [ | intros _ | reflexivity ].
  { apply keeps_poll_group, Hc. }
  apply keeps_bind; [ apply keeps_poll_group, Hc | intros _ ].
  apply keeps_bind; [ apply keeps_poll_group, Hc | intros _ ].
  apply keeps_bind; [ apply keeps_poll_group, Hc | intros _ ].
  apply keeps_bind; [ apply keeps_emit_other; reflexivity | intros _ ].
  apply keeps_sleep.
Qed.

(** *** A pass in which every failure is one the loop handles *)

Hypothesis all_handled : forall h g a c, handled (client h g a c) = true.

Lemma poll_group_handled (g : group) (h : list event) :
  poll_group client cfg g h = (h ++ segment client cfg g h, inr tt).
Proof.
  rewrite poll_group_run. f_equal.
  destruct (0 <? count cfg g)%Z; [ | reflexivity ].
  pose proof (all_handled h g (start_address cfg g) (count cfg g)) as H.
  destruct (client h g (start_address cfg g) (count cfg g)) as [r | [msg | msg]];
    [ reflexivity | reflexivity | discriminate H ].
Qed.

Lemma poll_cycle_handled :
  poll_cycle client sleeping cfg []
    = (after_input client cfg
         ++ [Log INFO ("Sleeping for " ++ PyStr.of_Z (poll_interval cfg)
                         ++ " seconds..." ++ PyStr.newline)%string;
             Sleep (poll_interval cfg)],
       sleeping (after_input client cfg
                   ++ [Log INFO ("Sleeping for " ++ PyStr.of_Z (poll_interval cfg)
                                   ++ " seconds..." ++ PyStr.newline)%string])
                (poll_interval cfg)).
Proof.
  unfold poll_cycle, bind.
  rewrite (poll_group_handled Coils []); cbn [app].
  rewrite (poll_group_handled Discretes _).
  rewrite (poll_group_handled HoldingRegisters _).
  rewrite (poll_group_handled InputRegisters _).
  unfold log, sleep, emit. rewrite <- app_assoc. reflexivity.
Qed.

Lemma handled_read_once (g : group) :
  (0 < count cfg g)%Z ->
  read_attempts g (trace (poll_cycle client sleeping cfg)) = 1%nat.
Proof.
  intros Hc. apply Z.ltb_lt in Hc.
  unfold trace. rewrite poll_cycle_handled; cbn [fst].
  unfold after_input, after_holding, after_discretes, after_coils.
  rewrite !read_attempts_app, !read_attempts_segment.
  destruct g; cbn [group_eqb andb]; rewrite Hc; reflexivity.
Qed.

End ModbusFacts.

Section ModbusHistory.
Import Eff ModbusClient.

Lemma poll_group_shift (client : modbus_client) (cfg : config) (g : group)
      (h0 h : list event) :
  poll_group client cfg g (h0 ++ h)
    = (h0 ++ fst (poll_group (shift h0 client) cfg g h),
       snd (poll_group (shift h0 client) cfg g h)).
Proof.
  rewrite !poll_group_run. cbn [fst snd]. unfold segment, shift.
  rewrite app_assoc. reflexivity.
Qed.

(** A pass started on the history [h0] is the pass of the shifted client
    started on the empty history, after [h0]. *)
Lemma poll_cycle_shift (client : modbus_client) (sleeping : clock) (cfg : config)
      (h0 : list event) :
  poll_cycle client sleeping cfg h0
    = (h0 ++ trace (poll_cycle (shift h0 client) (shift_clock h0 sleeping) cfg),
       outcome (poll_cycle (shift h0 client) (shift_clock h0 sleeping) cfg)).
Proof.
  unfold trace, outcome, poll_cycle, bind.
  rewrite <- (app_nil_r h0) at 1. rewrite poll_group_shift.
  destruct (poll_group (shift h0 client) cfg Coils []) as [h1 [x | []]];
    cbn [fst snd]; [ reflexivity | ].
  rewrite poll_group_shift.
  destruct (poll_group (shift h0 client) cfg Discretes h1) as [h2 [x | []]];
    cbn [fst snd]; [ reflexivity | ].
  rewrite poll_group_shift.
  destruct (poll_group (shift h0 client) cfg HoldingRegisters h2) as [h3 [x | []]];
    cbn [fst snd]; [ reflexivity | ].
  rewrite poll_group_shift.
  destruct (poll_group (shift h0 client) cfg InputRegisters h3) as [h4 [x | []]];
    cbn [fst snd]; [ reflexivity | ].
  unfold log, sleep, emit, shift_clock; cbn [fst snd].
  rewrite !app_assoc. reflexivity.
Qed.

Lemma shift_handled (client : modbus_client) (h0 : list event) :
  (forall h g a c, handled (client h g a c) = true) ->
  forall h g a c, handled (shift h0 client h g a c) = true.
Proof. intros H h g a c. apply H. Qed.

End ModbusHistory.

Section ModbusClaims.
Import Eff ModbusClient.

(** C7. A group whose count is [0] is not read in a pass of the polling
    loop, started after any history [h]: the pass adds no read call for
    it, whatever the client answers to the other reads; and the groups
    with a positive count are still read, once each, as long as no read
    raises an exception the loop does not catch.  This holds whatever
    [time.sleep] does at the end of the pass. *)
Theorem zero_count_group_skipped (client : modbus_client) (sleeping : clock)
        (cfg : config) (g : group) (h : list event) :
  count cfg g = 0%Z ->
  read_attempts g (fst (poll_cycle client sleeping cfg h)) = read_attempts g h /\
  ((forall h' g' a c, handled (client h' g' a c) = true) ->
   forall g', (0 < count cfg g')%Z ->
              read_attempts g' (fst (poll_cycle client sleeping cfg h))
                = S (read_attempts g' h)).
Proof.
  intros Hc. rewrite poll_cycle_shift; cbn [fst]. split.
  - rewrite read_attempts_app, skipped_group_not_read; [ lia | ].
    rewrite Hc. reflexivity.
  - intros Hh g' Hg'.
    rewrite read_attempts_app, handled_read_once; [ lia | | assumption ].
    apply shift_handled, Hh.
Qed.

Lemma zero_count_group_skipped_witness :
  read_attempts HoldingRegisters
                (fst (poll_cycle example_client interrupted example_config_skip []))
    = 0%nat /\
  read_attempts InputRegisters
                (fst (poll_cycle example_client interrupted example_config_skip []))
    = 1%nat.
Proof.
  destruct (zero_count_group_skipped example_client interrupted example_config_skip
              HoldingRegisters [] eq_refl) as [H0 H1].
  split; [ exact H0 | ].
  apply H1; [ intros h g a c; destruct g; reflexivity | reflexivity ].
Defined.

End ModbusClaims.

Section BacnetClientFacts.
Import Eff PyFloat BacnetClient.

Variable cfg : config.
Variable app : application.

Lemma read_prop_run (obj_type : string) (obj_inst : Z) (prop_id : string)
      (h : list event) :
  read_prop app (target_addr cfg) obj_type obj_inst prop_id h
    = (h ++ Io (RequestIo (ReadPropertyRequest obj_type obj_inst prop_id (target_addr cfg))
                          (app h (ReadPropertyRequest obj_type obj_inst prop_id
                                                      (target_addr cfg))))
           :: read_log (app h (ReadPropertyRequest obj_type obj_inst prop_id
                                                   (target_addr cfg))),
       inr (read_value (app h (ReadPropertyRequest obj_type obj_inst prop_id
                                                   (target_addr cfg))))).
Proof.
  unfold read_prop, request_io, Eff.call, bind, read_log, read_value, log, emit, ret.
  destruct (app h _) as [[err | ] [resp | ]]; cbn;
    try (rewrite <- app_assoc; reflexivity).
  destruct (cast_out_Real resp); reflexivity.
Qed.

Lemma read_then_log (obj_type : string) (obj_inst : Z)
      (line : option pyobj -> string) (h : list event)
      (k : option pyobj -> M (Call := call) (Exn := exception) unit) :
  bind (read_prop app (target_addr cfg) obj_type obj_inst "presentValue")
       (fun v => bind (log INFO (line v)) (fun _ => k v)) h
    = k (read_value (app h (ReadPropertyRequest obj_type obj_inst "presentValue"
                                                (target_addr cfg))))
        (h ++ read_segment
           (ReadPropertyRequest obj_type obj_inst "presentValue" (target_addr cfg))
           (app h (ReadPropertyRequest obj_type obj_inst "presentValue" (target_addr cfg)))
           (line (read_value (app h (ReadPropertyRequest obj_type obj_inst
                                                         "presentValue"
                                                         (target_addr cfg)))))).
Proof.
  unfold bind at 1. rewrite read_prop_run.
  unfold bind, log, emit, read_segment. f_equal.
  rewrite <- app_assoc. reflexivity.
Qed.

(** [main] is the three reads followed by the alarm-clear statement,
    run on the history [after_alarm], and [stop()]. *)
Lemma main_run (read_only : bool) :
  main read_only cfg app []
    = bind (clear_alarm_if_active read_only cfg app (read_value (alarm_io cfg app)))
           (fun _ => emit (Io Stop))
           (after_alarm cfg app).
Proof.
  unfold main.
  rewrite (read_then_log "analogValue" (level_id cfg)
             (fun v => "Water Level: " ++ format v ++ "%")%string).
  rewrite (read_then_log "analogValue" (temp_id cfg)
             (fun v => "Water Temp : " ++ format v ++ "C")%string).
  rewrite (read_then_log "binaryValue" (alarm_id cfg)
             (fun v => "Alarm State: " ++ format v ++ " (1 = Active, 0 = Inactive)")%string).
  reflexivity.
Qed.

(** What the alarm-clear statement appends to a history. *)
Lemma clear_alarm_run (read_only : bool) (v : option pyobj) (h : list event) :
  exists tl res,
    clear_alarm_if_active read_only cfg app v h = (h ++ tl, res) /\
    write_requests tl
      = (if negb read_only && reads_active v then [alarm_clear cfg] else []) /\
    (forall req io, In (Io (RequestIo req io)) tl ->
                    is_write req = true /\
                    forall err, ioError io = Some err ->
                                In (Log ERROR ("Write error: " ++ err)) tl).
Proof.
  unfold clear_alarm_if_active, reads_active.
  destruct read_only; cbn [negb andb].
  { exists [], (inr tt). rewrite app_nil_r. repeat split; intros; contradiction. }
  destruct v as [o | ].
  2:{ exists [], (inr tt). rewrite app_nil_r. repeat split; intros; contradiction. }
  unfold try_except, bind, py_float, raise, ret.
  destruct (to_float o) as [f | | ].
  2:{ exists [], (inr tt). rewrite app_nil_r. repeat split; intros; contradiction. }
  2:{ exists [], (inl TypeError). rewrite app_nil_r. repeat split; intros; contradiction. }
  destruct (feq f (PyFloat.of_Z 1)).
  2:{ exists [], (inr tt). rewrite app_nil_r. repeat split; intros; contradiction. }
  unfold log, emit, write_prop, request_io, Eff.call, bind, ret.
  set (h1 := h ++ [Log INFO "Alarm is active; attempting to clear it (write 0)."]).
  fold (alarm_clear cfg).
  destruct (app h1 (alarm_clear cfg)) as [[err | ] resp] eqn:E; cbn.
  - eexists _, _. split; [ subst h1; rewrite <- !app_assoc; reflexivity | ].
    cbn. repeat split.
    + destruct H as [H | [H | [H | []]]]; try discriminate.
      injection H as <- <-. reflexivity.
    + intros err' He. destruct H as [H | [H | [H | []]]]; try discriminate.
      injection H as <- <-. cbn in He. injection He as <-. right. right. left. reflexivity.
  - eexists _, _. split; [ subst h1; rewrite <- !app_assoc; reflexivity | ].
    cbn. repeat split.
    + destruct H as [H | [H | [H | []]]]; try discriminate.
      injection H as <- <-. reflexivity.
    + intros err' He. destruct H as [H | [H | [H | []]]]; try discriminate.
      injection H as <- <-. discriminate He.
Qed.

Lemma write_requests_app (l1 l2 : list event) :
  write_requests (l1 ++ l2) = write_requests l1 ++ write_requests l2.
Proof.
  induction l1 as [ | e l1 IH]; [ reflexivity | ].
  destruct e as [lvl msg | [req io | ] | n]; cbn; try exact IH.
  destruct (is_write req); cbn; rewrite IH; reflexivity.
Qed.




Lemma write_requests_read_segment (obj_type : string) (obj_inst : Z)
      (prop_id dest : string) (io : iocb) (line : string) :
  write_requests (read_segment (ReadPropertyRequest obj_type obj_inst prop_id dest) io line)
    = [].
Proof.
  unfold read_segment, read_log. cbn.
  destruct (ioError io); [ reflexivity | destruct (ioResponse io); reflexivity ].
Qed.

Lemma write_requests_after_alarm : write_requests (after_alarm cfg app) = [].
Proof.
  unfold after_alarm, after_temp, after_level, alarm_read, temp_read, level_read.
  rewrite !write_requests_app, !write_requests_read_segment. reflexivity.
Qed.


(** The shape of a run of [main]. *)
Lemma main_shape (read_only : bool) :
  exists tl fin,
    trace (main read_only cfg app) = after_alarm cfg app ++ tl ++ fin /\
    (fin = [] \/ fin = [Io Stop]) /\
    write_requests tl
      = (if negb read_only && reads_active (read_value (alarm_io cfg app))
         then [alarm_clear cfg] else []) /\
    (forall req io, In (Io (RequestIo req io)) tl ->
                    is_write req = true /\
                    forall err, ioError io = Some err ->
                                In (Log ERROR ("Write error: " ++ err)) tl).
Proof.
  unfold trace. rewrite main_run. unfold bind.
  destruct (clear_alarm_run read_only (read_value (alarm_io cfg app)) (after_alarm cfg app))
    as (tl & res & -> & Hw & Hin).
  destruct res as [x | []]; cbn [fst].
  - exists tl, []. rewrite app_nil_r. auto.
  - exists tl, [Io Stop]. unfold emit; cbn [fst]. rewrite <- app_assoc. auto.
Qed.

End BacnetClientFacts.

Section OpcUaFacts.
Import OpcUa.
Local Open Scope string_scope.

Lemma append_assoc (a b c : string) : (a ++ b) ++ c = a ++ b ++ c.
Proof.
  induction a as [ | x a IH]; [ reflexivity | ].
  cbn. rewrite IH. reflexivity.
Qed.

Lemma all_app (p : ascii -> bool) (a b : string) :
  all p (a ++ b) = all p a && all p b.
Proof.
  induction a as [ | c a IH]; [ reflexivity | ].
  cbn. rewrite IH, andb_assoc. reflexivity.
Qed.


(** *** [split] and [split_once] *)


Lemma split_no_sep (sep : ascii) (a : string) :
  all (is_not sep) a = true -> split sep a = [a].
Proof.
  induction a as [ | c a IH]; [ reflexivity | ].
  cbn. unfold is_not at 1. intros H. apply andb_true_iff in H as [Hc Ha].
  apply negb_true_iff in Hc. rewrite Hc, (IH Ha). reflexivity.
Qed.

Lemma split_app (sep : ascii) (a b : string) :
  all (is_not sep) a = true ->
  split sep (a ++ String sep b) = a :: split sep b.
Proof.
  induction a as [ | c a IH]; cbn.
  - intros _. rewrite Ascii.eqb_refl. reflexivity.
  - unfold is_not at 1. intros H. apply andb_true_iff in H as [Hc Ha].
    apply negb_true_iff in Hc. rewrite Hc, (IH Ha). reflexivity.
Qed.

Lemma split_once_app (sep : ascii) (a b : string) :
  all (is_not sep) a = true ->
  split_once sep (a ++ String sep b) = [a; b].
Proof.
  induction a as [ | c a IH]; cbn.
  - intros _. rewrite Ascii.eqb_refl. reflexivity.
  - unfold is_not at 1. intros H. apply andb_true_iff in H as [Hc Ha].
    apply negb_true_iff in Hc. rewrite Hc, (IH Ha). reflexivity.
Qed.

(** *** The characters of a text [int] accepts *)







(** *** [parse_nodeid] up to the identifier *)

(** The function once the namespace part [ns=<int>] is read: what is
    left to do with [id_part]. *)
Lemma parse_nodeid_prefix (key ns_text id_part : string) :
  all (is_not ";") key = true -> all (is_not "=") key = true ->
  all (is_not ";") ns_text = true -> all (is_not "=") ns_text = true ->
  all (is_not ";") id_part = true ->
  parse_nodeid (key ++ "=" ++ ns_text ++ ";" ++ id_part)
    = (ns_idx <~ py_int ns_text ;;
       if startswith "s=" id_part then
         name <~ item (split_once "=" id_part) 1 ;;
         inr (mkNodeId (Text name) ns_idx NodeIdType.String)
       else if startswith "i=" id_part then
         number_text <~ item (split_once "=" id_part) 1 ;;
         number <~ py_int number_text ;;
         inr (mkNodeId (Number number) ns_idx NodeIdType.Numeric)
       else if startswith "b=" id_part then
         name <~ item (split_once "=" id_part) 1 ;;
         inr (mkNodeId (Text name) ns_idx NodeIdType.ByteString)
       else
         inr (mkNodeId (Text id_part) ns_idx NodeIdType.String)).
Proof.
  intros Hk1 Hk2 Hn1 Hn2 Hid. unfold parse_nodeid.
  replace (key ++ "=" ++ ns_text ++ ";" ++ id_part)
    with ((key ++ "=" ++ ns_text) ++ String ";" id_part)
    by (rewrite !append_assoc; reflexivity).
  rewrite split_app.
  2:{ rewrite !all_app, Hk1, Hn1. reflexivity. }
  rewrite (split_no_sep ";" id_part Hid).
  cbn [item lookup list_lookup and_then].
  change (key ++ "=" ++ ns_text) with (key ++ String "=" ns_text).
  rewrite (split_app "=" key ns_text Hk2), (split_no_sep "=" ns_text Hn2).
  reflexivity.
Qed.

End OpcUaFacts.

Section OpcUaClaims.
Import OpcUa.
Local Open Scope string_scope.




End OpcUaClaims.

Section Snap7Claims.
Import Eff Snap7Client.

Lemma writes_app (l1 l2 : list event) : writes (l1 ++ l2) = writes l1 ++ writes l2.
Proof.
  induction l1 as [ | e l1 IH]; [ reflexivity | ].
  destruct e as [lvl msg | [db first len ans | db first data ans] | n]; cbn;
    rewrite ?IH; reflexivity.
Qed.

(** C10, as the code has it.  In a pass of the Siemens polling loop,
    started after any history [h], whose read succeeds and returns at
    least two bytes, the client writes once, to the data block and first
    byte it read from, the buffer it read with one change: byte 1
    becomes (old value + 1) mod 256, a value between 0 and 255; every
    other byte and the length are as read.  The write depends on nothing
    else, and is made whatever [time.sleep] does at the end of the
    pass. *)
Theorem poll_cycle_writes_back (cfg : config) (client : snap7_client) (sleeping : clock)
        (h : list event) (data : bytearray) (old : Z) :
  read_answer client h (db_number cfg) (start cfg) (size cfg) = inr data ->
  data !! 1%nat = Some old ->
  writes (fst (poll_cycle cfg client sleeping h))
    = writes h ++ [(db_number cfg, start cfg, set_byte data 1 ((old + 1) mod 256))] /\
  set_byte data 1 ((old + 1) mod 256) !! 1%nat = Some ((old + 1) mod 256) /\
  (forall i : nat, i <> 1%nat -> set_byte data 1 ((old + 1) mod 256) !! i = data !! i) /\
  List.length (set_byte data 1 ((old + 1) mod 256)) = List.length data /\
  0 <= (old + 1) mod 256 < 256.
Proof.
  intros Hread Hold.
  split; [ | split; [ | split; [ | split ] ] ].
  - unfold poll_cycle, bind, db_read, db_write, Eff.call, log, sleep, emit, get_item.
    rewrite Hread, Hold. unfold ret.
    destruct (write_answer client _ _ _ _) as [ex | []]; cbn [fst];
      rewrite !writes_app; cbn; rewrite ?app_nil_r; reflexivity.
  - unfold set_byte. apply list_lookup_insert_eq.
    apply lookup_lt_Some in Hold. exact Hold.
  - intros i Hi. unfold set_byte. apply list_lookup_insert_ne. congruence.
  - unfold set_byte. apply length_insert.
  - apply Z.mod_pos_bound. lia.
Qed.

Lemma poll_cycle_writes_back_witness :
  writes (fst (poll_cycle example_config (plc_holding [10; 255; 30; 40]) interrupted []))
    = [(1, 0, [10; 0; 30; 40])].
Proof.
  apply (proj1 (poll_cycle_writes_back example_config (plc_holding [10; 255; 30; 40])
                  interrupted [] [10; 255; 30; 40] 255 eq_refl eq_refl)).
Defined.

(** C10, as stated, fails for a read of fewer than two bytes: with
    [size = 1] the read succeeds, [data[1]] raises [IndexError], and
    the pass ends without any write. *)
Lemma one_byte_read_no_write :
  read_answer (plc_holding [10]) [] (db_number one_byte_config) (start one_byte_config)
              (size one_byte_config) = inr [10] /\
  outcome (poll_cycle one_byte_config (plc_holding [10]) returning) = inl IndexError /\
  writes (trace (poll_cycle one_byte_config (plc_holding [10]) returning)) = [].
Proof. repeat split. Qed.

End Snap7Claims.

(* ===================================================================== *)
(** * Part III: further properties of the sources                         *)
(* ===================================================================== *)

Section ServerMore.
Import PyFloat BacnetServer.

Lemma fadd_nan (x y : float) :
  x = S754_nan \/ y = S754_nan -> fadd x y = S754_nan.
Proof.
  intros [-> | ->]; [ reflexivity | ].
  destruct x as [ | | | ]; reflexivity.
Qed.

(** X1. A sum [level + delta] that is not finite is clamped like any
    other: a NaN (which the sum is as soon as the level or the draw is
    one) and plus infinity give the new level [100.0], minus infinity
    gives [0.0]. *)
Theorem update_tank_nonfinite_sum (t : WaterTank) (d_level d_temp : float) :
  (level t = S754_nan \/ d_level = S754_nan ->
   level (update_tank t d_level d_temp) = of_Z 100) /\
  (fadd (level t) d_level = S754_infinity false ->
   level (update_tank t d_level d_temp) = of_Z 100) /\
  (fadd (level t) d_level = S754_infinity true ->
   level (update_tank t d_level d_temp) = of_Z 0).
Proof.
  unfold update_tank; cbn [level].
  split; [ | split ].
  - intros H. rewrite (fadd_nan _ _ H). reflexivity.
  - intros ->. reflexivity.
  - intros ->. reflexivity.
Qed.

Lemma update_tank_nonfinite_sum_witness :
  level (update_tank (tank_at S754_nan) (of_Z 1) (of_Z 0)) = of_Z 100 /\
  level (update_tank (tank_at (S754_infinity false)) (of_Z 1) (of_Z 0)) = of_Z 100 /\
  level (update_tank (tank_at (S754_infinity true)) (of_Z 1) (of_Z 0)) = of_Z 0.
Proof.
  split; [ | split ].
  - apply (proj1 (update_tank_nonfinite_sum (tank_at S754_nan) (of_Z 1) (of_Z 0))).
    left. reflexivity.
  - apply (proj1 (proj2 (update_tank_nonfinite_sum (tank_at (S754_infinity false))
                                                   (of_Z 1) (of_Z 0)))).
    reflexivity.
  - apply (proj2 (proj2 (update_tank_nonfinite_sum (tank_at (S754_infinity true))
                                                   (of_Z 1) (of_Z 0)))).
    reflexivity.
Defined.

(** X2. When the low threshold is below the high threshold, a tick
    never raises both alarms; and a threshold that is a NaN never
    raises its alarm. *)
Theorem update_tank_alarm_pair (t : WaterTank) (d_level d_temp : float) :
  (flt (low_thresh t) (high_thresh t) = true ->
   high_alarm (update_tank t d_level d_temp)
     && low_alarm (update_tank t d_level d_temp) = false) /\
  (high_thresh t = S754_nan -> high_alarm (update_tank t d_level d_temp) = false) /\
  (low_thresh t = S754_nan -> low_alarm (update_tank t d_level d_temp) = false).
Proof.
  unfold update_tank; cbn [high_alarm low_alarm].
  set (l := max2 _ _).
  split; [ | split ].
  - intros Hlt.
    destruct (fge l (high_thresh t)) eqn:Hh; [ | reflexivity ].
    destruct (fle l (low_thresh t)) eqn:Hl; [ | reflexivity ].
    exfalso. exact (no_float_between _ _ _ Hlt Hh Hl).
  - intros ->. reflexivity.
  - intros ->. unfold fle, SFleb. destruct l as [ | | | ]; reflexivity.
Qed.

Lemma update_tank_alarm_pair_witness :
  high_alarm (update_tank (tank_at (of_Z 95)) (of_Z 1) (of_Z 0))
    && low_alarm (update_tank (tank_at (of_Z 95)) (of_Z 1) (of_Z 0)) = false /\
  high_alarm (update_tank (init (of_Z 95) (of_Z 20) S754_nan (of_Z 10))
                          (of_Z 1) (of_Z 0)) = false /\
  low_alarm (update_tank (init (of_Z 5) (of_Z 20) (of_Z 90) S754_nan)
                         (of_Z 1) (of_Z 0)) = false.
Proof.
  split; [ | split ].
  - apply (proj1 (update_tank_alarm_pair (tank_at (of_Z 95)) (of_Z 1) (of_Z 0))).
    reflexivity.
  - apply (proj1 (proj2 (update_tank_alarm_pair
                           (init (of_Z 95) (of_Z 20) S754_nan (of_Z 10)) (of_Z 1) (of_Z 0)))).
    reflexivity.
  - apply (proj2 (proj2 (update_tank_alarm_pair
                           (init (of_Z 5) (of_Z 20) (of_Z 90) S754_nan) (of_Z 1) (of_Z 0)))).
    reflexivity.
Defined.

Lemma update_loop_thresholds (n : nat) (draws : nat -> float * float) (s : Server) :
  high_thresh (tank (update_loop n draws s)) = high_thresh (tank s) /\
  low_thresh (tank (update_loop n draws s)) = low_thresh (tank s).
Proof.
  induction n as [ | n [IHh IHl]]; [ split; reflexivity | ].
  cbn [update_loop]. unfold update_loop_body, update_tank; cbn.
  split; assumption.
Qed.

(** X3. After every pass of [update_loop], from whatever state the
    pass before left (external writes included), the three BACnet
    objects mirror the tank: the level and temperature objects hold the
    tank's level and temperature, the alarm object is 1 when one of the
    two alarms is raised and 0 otherwise, the alarms are the comparisons
    of the level with the thresholds the tank was created with, and the
    level lies between [0.0] and [100.0]. *)
Theorem update_loop_mirrors_tank (n : nat) (draws : nat -> float * float) (s : Server) :
  level_obj (update_loop (S n) draws s) = level (tank (update_loop (S n) draws s)) /\
  temp_obj (update_loop (S n) draws s) = temperature (tank (update_loop (S n) draws s)) /\
  alarm_obj (update_loop (S n) draws s)
    = (if high_alarm (tank (update_loop (S n) draws s))
          || low_alarm (tank (update_loop (S n) draws s)) then 1 else 0) /\
  high_alarm (tank (update_loop (S n) draws s))
    = fge (level (tank (update_loop (S n) draws s))) (high_thresh (tank s)) /\
  low_alarm (tank (update_loop (S n) draws s))
    = fle (level (tank (update_loop (S n) draws s))) (low_thresh (tank s)) /\
  fle (of_Z 0) (level (tank (update_loop (S n) draws s))) = true /\
  fle (level (tank (update_loop (S n) draws s))) (of_Z 100) = true.
Proof.
  destruct (update_loop_thresholds n draws s) as [Hh Hl].
  cbn [update_loop]. unfold update_loop_body, update_tank.
  cbn [level_obj temp_obj alarm_obj tank level temperature high_alarm low_alarm].
  rewrite Hh, Hl.
  repeat split; apply clamp_range.
Qed.

(** X4. The level side and the temperature side of the simulation do
    not influence each other: after [n] passes the level, the
    thresholds and the alarm object depend on the level draws alone, and
    the temperature on the temperature draws alone. *)
Theorem update_loop_level_and_temperature_independent
        (n : nat) (dl dl' dt dt' : nat -> float) (s1 s2 : Server) :
  (level_view s1 = level_view s2 ->
   level_view (update_loop n (fun k => (dl k, dt k)) s1)
     = level_view (update_loop n (fun k => (dl k, dt' k)) s2)) /\
  (temperature (tank s1) = temperature (tank s2) ->
   temperature (tank (update_loop n (fun k => (dl k, dt k)) s1))
     = temperature (tank (update_loop n (fun k => (dl' k, dt k)) s2))).
Proof.
  split.
  - intros H. apply (level_view_loop n dl dt dt' s1 s2 H).
  - intros H. induction n as [ | n IH]; [ exact H | ].
    cbn [update_loop fst snd]. unfold update_loop_body, update_tank; cbn.
    rewrite IH. reflexivity.
Qed.

Lemma update_loop_level_and_temperature_independent_witness :
  level_view (update_loop 3 (fun k => (of_Z 5, of_Z 1)) (start (of_Z 50) (of_Z 20) (of_Z 90) (of_Z 10)))
    = level_view (update_loop 3 (fun k => (of_Z 5, of_Z 0))
                              (start (of_Z 50) (of_Z 30) (of_Z 90) (of_Z 10))) /\
  temperature (tank (update_loop 3 (fun k => (of_Z 5, of_Z 1))
                                 (start (of_Z 50) (of_Z 20) (of_Z 90) (of_Z 10))))
    = temperature (tank (update_loop 3 (fun k => (of_Z 0, of_Z 1))
                                     (start (of_Z 70) (of_Z 20) (of_Z 90) (of_Z 10)))).
Proof.
  split.
  - apply (proj1 (update_loop_level_and_temperature_independent 3
                    (fun _ => of_Z 5) (fun _ => of_Z 5) (fun _ => of_Z 1) (fun _ => of_Z 0)
                    (start (of_Z 50) (of_Z 20) (of_Z 90) (of_Z 10))
                    (start (of_Z 50) (of_Z 30) (of_Z 90) (of_Z 10)))).
    reflexivity.
  - apply (proj2 (update_loop_level_and_temperature_independent 3
                    (fun _ => of_Z 5) (fun _ => of_Z 0) (fun _ => of_Z 1) (fun _ => of_Z 1)
                    (start (of_Z 50) (of_Z 20) (of_Z 90) (of_Z 10))
                    (start (of_Z 70) (of_Z 20) (of_Z 90) (of_Z 10)))).
    reflexivity.
Defined.

End ServerMore.

Section BacnetClientMore.
Import Eff PyFloat BacnetClient BacnetClientTrace.



Lemma read_requests_app (l1 l2 : list event) :
  read_requests (l1 ++ l2) = read_requests l1 ++ read_requests l2.
Proof.
  induction l1 as [ | e l1 IH]; [ reflexivity | ].
  destruct e as [lvl msg | [req io | ] | n]; cbn; try exact IH.
  destruct (is_write req); cbn; rewrite IH; reflexivity.
Qed.

Lemma stops_app (l1 l2 : list event) : stops (l1 ++ l2) = (stops l1 + stops l2)%nat.
Proof.
  induction l1 as [ | e l1 IH]; [ reflexivity | ].
  destruct e as [lvl msg | [req io | ] | n]; cbn; rewrite ?IH; reflexivity.
Qed.

Lemma read_segment_reads (obj_type : string) (obj_inst : Z) (prop_id dest : string)
      (io : iocb) (line : string) :
  read_requests (read_segment (ReadPropertyRequest obj_type obj_inst prop_id dest) io line)
    = [ReadPropertyRequest obj_type obj_inst prop_id dest] /\
  stops (read_segment (ReadPropertyRequest obj_type obj_inst prop_id dest) io line) = 0%nat.
Proof.
  unfold read_segment, read_log. cbn.
  destruct (ioError io); [ split; reflexivity | destruct (ioResponse io); split; reflexivity ].
Qed.

Lemma after_alarm_reads (cfg : config) (app : application) :
  read_requests (after_alarm cfg app) = [level_read cfg; temp_read cfg; alarm_read cfg] /\
  stops (after_alarm cfg app) = 0%nat.
Proof.
  unfold after_alarm, after_temp, after_level, alarm_read, temp_read, level_read.
  rewrite !read_requests_app, !stops_app.
  repeat rewrite (proj1 (read_segment_reads _ _ _ _ _ _)).
  repeat rewrite (proj2 (read_segment_reads _ _ _ _ _ _)).
  split; reflexivity.
Qed.

Lemma clear_events_reads (read_only : bool) (cfg : config) (app : application)
      (v : option pyobj) (h : list event) :
  read_requests (clear_events read_only cfg app v h) = [] /\
  stops (clear_events read_only cfg app v h) = 0%nat.
Proof.
  unfold clear_events.
  destruct (negb read_only && reads_active v); [ | split; reflexivity ].
  cbn. destruct (ioError _); split; reflexivity.
Qed.





End BacnetClientMore.

Section Snap7More.
Import Eff Snap7Client Snap7Loop.

(** A pass of the loop, event by event. *)
Lemma snap7_pass_run (cfg : config) (client : snap7_client) (sleeping : clock)
      (h : list event) :
  poll_cycle cfg client sleeping h
    = let rd := read_answer client h (db_number cfg) (start cfg) (size cfg) in
      let h1 := h ++ [Io (DbRead (db_number cfg) (start cfg) (size cfg) rd)] in
      match rd with
      | inl ex => (h1, inl ex)
      | inr data =>
          let h2 := h1 ++ [read_line cfg data] in
          match data !! 1%nat with
          | None => (h2, inl IndexError)
          | Some old =>
              let new := (old + 1) mod 256 in
              let wr := write_answer client h2 (db_number cfg) (start cfg)
                                     (set_byte data 1 new) in
              let h3 := h2 ++ [Io (DbWrite (db_number cfg) (start cfg)
                                            (set_byte data 1 new) wr)] in
              match wr with
              | inl ex => (h3, inl ex)
              | inr _ => ((h3 ++ [wrote_line cfg old new]) ++ [Sleep (poll_interval cfg)],
                          sleeping (h3 ++ [wrote_line cfg old new]) (poll_interval cfg))
              end
          end
      end.
Proof.
  unfold poll_cycle, bind, db_read, db_write, Eff.call, log, sleep, emit, get_item,
    read_line, wrote_line.
  cbn zeta.
  destruct (read_answer client h _ _ _) as [ex | data]; [ reflexivity | ].
  destruct (data !! 1%nat) as [old | ]; unfold ret, raise; [ | reflexivity ].
  destruct (write_answer client _ _ _ _) as [ex | []]; reflexivity.
Qed.

Lemma reads_app (l1 l2 : list event) : reads (l1 ++ l2) = (reads l1 + reads l2)%nat.
Proof.
  induction l1 as [ | e l1 IH]; [ reflexivity | ].
  destruct e as [lvl msg | [db first len ans | db first data ans] | n]; cbn;
    rewrite ?IH; reflexivity.
Qed.

(** X10. A pass of the Siemens loop whose read raises does nothing
    else: no record, no write, no sleep, and the exception leaves the
    pass.  A pass whose write raises ends there as well: the exception
    leaves the pass before the [Wrote back] record and the sleep. *)
Theorem snap7_pass_failures (cfg : config) (client : snap7_client) (sleeping : clock)
        (h : list event) :
  (forall ex,
      read_answer client h (db_number cfg) (start cfg) (size cfg) = inl ex ->
      poll_cycle cfg client sleeping h
        = (h ++ [Io (DbRead (db_number cfg) (start cfg) (size cfg) (inl ex))], inl ex)) /\
  (forall data old ex,
      read_answer client h (db_number cfg) (start cfg) (size cfg) = inr data ->
      data !! 1%nat = Some old ->
      write_answer client
                   (h ++ [Io (DbRead (db_number cfg) (start cfg) (size cfg) (inr data));
                          read_line cfg data])
                   (db_number cfg) (start cfg) (set_byte data 1 ((old + 1) mod 256)) = inl ex ->
      poll_cycle cfg client sleeping h
        = (h ++ [Io (DbRead (db_number cfg) (start cfg) (size cfg) (inr data));
                 read_line cfg data;
                 Io (DbWrite (db_number cfg) (start cfg)
                             (set_byte data 1 ((old + 1) mod 256)) (inl ex))],
           inl ex)).
Proof.
  split.
  - intros ex Hr. rewrite snap7_pass_run. cbn zeta. rewrite Hr. reflexivity.
  - intros data old ex Hr Hold Hw. rewrite snap7_pass_run. cbn zeta.
    rewrite Hr, Hold.
    replace ((h ++ [Io (DbRead (db_number cfg) (start cfg) (size cfg) (inr data))])
               ++ [read_line cfg data])
      with (h ++ [Io (DbRead (db_number cfg) (start cfg) (size cfg) (inr data));
                  read_line cfg data])
      by (rewrite <- app_assoc; reflexivity).
    rewrite Hw. rewrite <- app_assoc. reflexivity.
Qed.

Lemma snap7_pass_failures_witness :
  poll_cycle example_config
             {| read_answer := fun _ _ _ _ => inl (Snap7Error "CPU : Address out of range");
                write_answer := fun _ _ _ _ => inr tt |} returning []
    = ([Io (DbRead 1 0 4 (inl (Snap7Error "CPU : Address out of range")))],
       inl (Snap7Error "CPU : Address out of range")) /\
  snd (poll_cycle example_config
                  {| read_answer := fun _ _ _ _ => inr [1; 2; 3; 4];
                     write_answer := fun _ _ _ _ => inl (Snap7Error "CPU : Item not available") |}
                  returning [])
    = inl (Snap7Error "CPU : Item not available").
Proof.
  split.
  - apply (proj1 (snap7_pass_failures example_config _ returning [])). reflexivity.
  - rewrite (proj2 (snap7_pass_failures example_config
              {| read_answer := fun _ _ _ _ => inr [1; 2; 3; 4];
                 write_answer := fun _ _ _ _ => inl (Snap7Error "CPU : Item not available") |}
              returning []) [1; 2; 3; 4] 2 (Snap7Error "CPU : Item not available")
              eq_refl eq_refl eq_refl).
    reflexivity.
Defined.

(** X11. Whatever the PLC answers, a pass of the Siemens loop makes
    exactly one read, of the configured range, and at most one write;
    a write goes to the data block and first byte that were read and
    carries as many bytes as the read returned. *)
Theorem snap7_pass_footprint (cfg : config) (client : snap7_client) (sleeping : clock)
        (h : list event) :
  exists tr,
    fst (poll_cycle cfg client sleeping h) = h ++ tr /\
    reads tr = 1%nat /\
    (exists rd, hd_error tr = Some (Io (DbRead (db_number cfg) (start cfg) (size cfg) rd))) /\
    (List.length (writes tr) <= 1)%nat /\
    (forall db first data,
        In (db, first, data) (writes tr) ->
        db = db_number cfg /\ first = start cfg /\
        exists read,
          read_answer client h (db_number cfg) (start cfg) (size cfg) = inr read /\
          List.length data = List.length read).
Proof.
  rewrite snap7_pass_run. cbn zeta.
  destruct (read_answer client h _ _ _) as [ex | data] eqn:Hr.
  { eexists. split; [ reflexivity | ]. cbn. repeat split; eauto; intros; contradiction. }
  destruct (data !! 1%nat) as [old | ] eqn:Hold.
  2:{ eexists. split; [ cbn [fst]; rewrite <- app_assoc; reflexivity | ].
      cbn. repeat split; eauto; intros; contradiction. }
  destruct (write_answer client _ _ _ _) as [ex | []].
  - eexists. split; [ cbn [fst]; rewrite <- !app_assoc; reflexivity | ].
    cbn. split; [ reflexivity | split; [ eauto | split; [ lia | ] ] ].
    intros db first d [H | []]. injection H as <- <- <-.
    split; [ reflexivity | split; [ reflexivity | ] ].
    exists data. split; [ reflexivity | ]. unfold set_byte. apply length_insert.
  - eexists. split; [ cbn [fst]; rewrite <- !app_assoc; reflexivity | ].
    cbn. split; [ reflexivity | split; [ eauto | split; [ lia | ] ] ].
    intros db first d [H | []]. injection H as <- <- <-.
    split; [ reflexivity | split; [ reflexivity | ] ].
    exists data. split; [ reflexivity | ]. unfold set_byte. apply length_insert.
Qed.

Lemma snap7_pass_footprint_witness :
  exists tr,
    fst (poll_cycle example_config (plc_holding [10; 255; 30; 40]) interrupted []) = tr /\
    reads tr = 1%nat /\
    forall db first data, In (db, first, data) (writes tr) -> db = 1 /\ first = 0.
Proof.
  destruct (snap7_pass_footprint example_config (plc_holding [10; 255; 30; 40])
              interrupted [])
    as (tr & Htr & Hreads & _ & _ & Hw).
  exists tr. split; [ exact Htr | split; [ exact Hreads | ] ].
  intros db first data Hin. destruct (Hw db first data Hin) as (-> & -> & _).
  split; reflexivity.
Defined.

End Snap7More.

Section OpcUaMore.
Import OpcUa.
Local Open Scope string_scope.

(** X15. Whatever the input, a node id returned by [parse_nodeid] is
    consistent: its identifier is an integer exactly when its type is
    Numeric, and a text when its type is String or ByteString. *)
Theorem parse_nodeid_type_matches_identifier (s : string) (nid : NodeId) :
  parse_nodeid s = inr nid ->
  (NodeIdType nid = NodeIdType.Numeric <-> exists k, Identifier nid = Number k) /\
  (NodeIdType nid <> NodeIdType.Numeric <-> exists t, Identifier nid = Text t).
Proof.
  unfold parse_nodeid.
  destruct (item (split ";" s) 0) as [e | ns_part]; cbn [and_then]; [ discriminate | ].
  destruct (item (split ";" s) 1) as [e | id_part]; cbn [and_then]; [ discriminate | ].
  destruct (item (split "=" ns_part) 1) as [e | ns_text]; cbn [and_then]; [ discriminate | ].
  destruct (py_int ns_text) as [e | ns_idx]; cbn [and_then]; [ discriminate | ].
  destruct (startswith "s=" id_part).
  { destruct (item (split_once "=" id_part) 1) as [e | name]; cbn [and_then];
      [ discriminate | ].
    intros [= <-]. cbn. split; split; try discriminate; eauto.
    - intros [k H]. discriminate H. }
  destruct (startswith "i=" id_part).
  { destruct (item (split_once "=" id_part) 1) as [e | text]; cbn [and_then];
      [ discriminate | ].
    destruct (py_int text) as [e | number]; cbn [and_then]; [ discriminate | ].
    intros [= <-]. cbn. split; split; try discriminate; eauto; try congruence.
    - intros [t H]. discriminate H. }
  destruct (startswith "b=" id_part).
  { destruct (item (split_once "=" id_part) 1) as [e | name]; cbn [and_then];
      [ discriminate | ].
    intros [= <-]. cbn. split; split; try discriminate; eauto.
    - intros [k H]. discriminate H. }
  intros [= <-]. cbn. split; split; try discriminate; eauto.
  intros [k H]. discriminate H.
Qed.

Lemma parse_nodeid_type_matches_identifier_witness :
  exists k, Identifier (mkNodeId (Number 1001) 3 NodeIdType.Numeric) = Number k.
Proof.
  apply (proj1 (proj1 (parse_nodeid_type_matches_identifier "ns=3;i=1001"
                         (mkNodeId (Number 1001) 3 NodeIdType.Numeric) eq_refl))).
  reflexivity.
Defined.

(** The first two fields of the input decide the result. *)
Lemma parse_nodeid_fields (s1 s2 : string) :
  item (split ";" s1) 0 = item (split ";" s2) 0 ->
  item (split ";" s1) 1 = item (split ";" s2) 1 ->
  parse_nodeid s1 = parse_nodeid s2.
Proof. unfold parse_nodeid. intros -> ->. reflexivity. Qed.

(** X16. What [parse_nodeid] does not look at: the text after a second
    [;] and the word before the first [=].  An input with such a tail,
    or with any word where [ns] is expected, gives the result of the
    input without the tail and with [ns]. *)
Theorem parse_nodeid_ignores (ns_part id_part : string) :
  all (is_not ";") ns_part = true ->
  all (is_not ";") id_part = true ->
  (forall tail,
      parse_nodeid (ns_part ++ ";" ++ id_part ++ ";" ++ tail)
        = parse_nodeid (ns_part ++ ";" ++ id_part)) /\
  (forall key ns_text,
      ns_part = key ++ "=" ++ ns_text ->
      all (is_not "=") key = true ->
      all (is_not "=") ns_text = true ->
      parse_nodeid (ns_part ++ ";" ++ id_part)
        = parse_nodeid ("ns=" ++ ns_text ++ ";" ++ id_part)).
Proof.
  intros Hns Hid. split.
  - intros tail. apply parse_nodeid_fields.
    + change (ns_part ++ ";" ++ id_part ++ ";" ++ tail)
        with (ns_part ++ String ";" (id_part ++ ";" ++ tail)).
      change (ns_part ++ ";" ++ id_part) with (ns_part ++ String ";" id_part).
      rewrite !split_app by assumption. reflexivity.
    + change (ns_part ++ ";" ++ id_part ++ ";" ++ tail)
        with (ns_part ++ String ";" (id_part ++ String ";" tail)).
      change (ns_part ++ ";" ++ id_part) with (ns_part ++ String ";" id_part).
      rewrite !split_app by assumption.
      rewrite (split_no_sep ";" id_part Hid). reflexivity.
  - intros key ns_text -> Hk Ht.
    rewrite all_app in Hns. apply andb_true_iff in Hns as [Hk' Ht'].
    cbn in Ht'.
    rewrite append_assoc.
    change ((("=" ++ ns_text) ++ ";" ++ id_part)) with ("=" ++ ns_text ++ ";" ++ id_part).
    rewrite (parse_nodeid_prefix key ns_text id_part Hk' Hk Ht' Ht Hid).
    change ("ns=" ++ ns_text ++ ";" ++ id_part) with ("ns" ++ "=" ++ ns_text ++ ";" ++ id_part).
    rewrite (parse_nodeid_prefix "ns" ns_text id_part eq_refl eq_refl Ht' Ht Hid).
    reflexivity.
Qed.

Lemma parse_nodeid_ignores_witness :
  parse_nodeid "ns=2;s=Var1;i=7" = parse_nodeid "ns=2;s=Var1" /\
  parse_nodeid "namespace=2;s=Var1" = parse_nodeid "ns=2;s=Var1".
Proof.
  split.
  - apply (proj1 (parse_nodeid_ignores "ns=2" "s=Var1" eq_refl eq_refl) "i=7").
  - apply (proj2 (parse_nodeid_ignores "namespace=2" "s=Var1" eq_refl eq_refl)
             "namespace" "2" eq_refl eq_refl eq_refl).
Defined.

End OpcUaMore.

Section OpcUaClientFacts.
Import Eff OpcUaClient.

Variable cfg : config.
Variable w : world.
Variables node1 node2 node3 : OpcUa.NodeId.

(** A pass of the loop, event by event. *)
Lemma opcua_pass_run (h : list event) :
  poll_pass cfg w node1 node2 node3 h
    = let a1 := value_answer w h node1 in
      let h1 := h ++ [Io (GetValue node1 a1)] in
      match a1 with
      | inl r => (h1, inl (of_raised r))
      | inr val1 =>
          let a2 := value_answer w h1 node2 in
          let h2 := h1 ++ [Io (GetValue node2 a2)] in
          match a2 with
          | inl r => (h2, inl (of_raised r))
          | inr val2 =>
              let a3 := value_answer w h2 node3 in
              let h3 := h2 ++ [Io (GetValue node3 a3)] in
              match a3 with
              | inl r => (h3, inl (of_raised r))
              | inr val3 =>
                  let h4 := h3 ++ [Log INFO (read_values_line cfg val1 val2 val3)] in
                  (h4 ++ [Io (Sleeping (poll_interval cfg)
                                       (sleep_answer w h4 (poll_interval cfg)))],
                   result_of (sleep_answer w h4 (poll_interval cfg)))
              end
          end
      end.
Proof.
  unfold poll_pass, bind, get_value, time_sleep, Eff.call, log, emit. cbn zeta.
  destruct (value_answer w h node1) as [r | val1]; [ reflexivity | ]. cbn [result_of].
  destruct (value_answer w _ node2) as [r | val2]; [ reflexivity | ]. cbn [result_of].
  destruct (value_answer w _ node3) as [r | val3]; [ reflexivity | ]. cbn [result_of].
  reflexivity.
Qed.

Lemma occurrences_app (p : event -> bool) (l1 l2 : list event) :
  occurrences p (l1 ++ l2) = (occurrences p l1 + occurrences p l2)%nat.
Proof. unfold occurrences. rewrite List.filter_app, List.length_app. reflexivity. Qed.

(** What a pass appends: reads, at most one record and one sleep, and
    neither a connection nor a disconnection. *)
Lemma opcua_pass_events (h : list event) :
  exists tr,
    fst (poll_pass cfg w node1 node2 node3 h) = h ++ tr /\
    occurrences is_connect tr = 0%nat /\
    occurrences is_disconnect tr = 0%nat /\
    (snd (poll_pass cfg w node1 node2 node3 h) = inr tt ->
     occurrences is_get_value tr = 3%nat).
Proof.
  rewrite opcua_pass_run. cbn zeta.
  destruct (value_answer w h node1) as [r | val1].
  { eexists. split; [ reflexivity | ]. cbn. repeat split; discriminate. }
  destruct (value_answer w _ node2) as [r | val2].
  { eexists. split; [ cbn [fst]; rewrite <- !app_assoc; reflexivity | ].
    cbn. repeat split; discriminate. }
  destruct (value_answer w _ node3) as [r | val3].
  { eexists. split; [ cbn [fst]; rewrite <- !app_assoc; reflexivity | ].
    cbn. repeat split; discriminate. }
  eexists. split; [ cbn [fst]; rewrite <- !app_assoc; reflexivity | ].
  cbn. repeat split.
Qed.

Lemma opcua_loop_events (n : nat) (h : list event) :
  exists tr,
    fst (poll_loop n cfg w node1 node2 node3 h) = h ++ tr /\
    occurrences is_connect tr = 0%nat /\
    occurrences is_disconnect tr = 0%nat /\
    (snd (poll_loop n cfg w node1 node2 node3 h) = inr tt ->
     occurrences is_get_value tr = (3 * n)%nat).
Proof.
  revert h. induction n as [ | n IH]; intros h.
  - exists []. rewrite app_nil_r. repeat split.
  - cbn [poll_loop]. unfold bind.
    destruct (opcua_pass_events h) as (tr1 & Hf & Hc & Hd & Hg).
    destruct (poll_pass cfg w node1 node2 node3 h) as [h1 [x | []]]; cbn [fst snd] in *.
    + exists tr1. repeat split; try assumption. discriminate.
    + subst h1. destruct (IH (h ++ tr1)) as (tr2 & Hf2 & Hc2 & Hd2 & Hg2).
      exists (tr1 ++ tr2). rewrite Hf2, app_assoc.
      split; [ reflexivity | ].
      rewrite !occurrences_app, Hc, Hd, Hc2, Hd2.
      split; [ reflexivity | split; [ reflexivity | ] ].
      intros Hok. rewrite (Hg eq_refl), (Hg2 Hok). lia.
Qed.

End OpcUaClientFacts.

Section OpcUaClientClaims.
Import Eff OpcUaClient.
Local Open Scope string_scope.

Lemma polling_run (n : nat) (cfg : config) (w : world)
      (node1 node2 node3 : OpcUa.NodeId) (h : list event) :
  polling n cfg w node1 node2 node3 h
    = match poll_loop n cfg w node1 node2 node3 h with
      | (h1, inr _) => (h1, inr Running)
      | (h1, inl x) => ((h1 ++ leaving w x h1)%list, leaving_outcome w x h1)
      end.
Proof.
  unfold polling, leaving, leaving_outcome.
  destruct (poll_loop n cfg w node1 node2 node3 h) as [h1 [x | []]]; [ | reflexivity ].
  unfold bind, disconnect, Eff.call, log, emit, raise, ret.
  destruct x as [e | | code | msg]; cbn [is_interrupt app];
    rewrite ?app_nil_r;
    destruct (disconnect_answer w _) as [r | []]; cbn [result_of];
      rewrite <- ?app_assoc; reflexivity.
Qed.

Lemma opcua_run_parsed (n : nat) (cfg : config) (w : world)
      (node1 node2 node3 : OpcUa.NodeId) (h : list event) :
  OpcUa.parse_nodeid (node1_nodeid cfg) = inr node1 ->
  OpcUa.parse_nodeid (node2_nodeid cfg) = inr node2 ->
  OpcUa.parse_nodeid (node3_nodeid cfg) = inr node3 ->
  run_opcua_client n cfg w h
    = match connect_answer w (h ++ [Log INFO (connecting_line cfg)])%list with
      | inr _ => polling n cfg w node1 node2 node3 (h ++ connected cfg)%list
      | inl (Error msg) =>
          ((h ++ [Log INFO (connecting_line cfg);
                  Io (Connect (inl (Error msg)));
                  Log ERROR ("Failed to connect to server: " ++ msg)])%list,
           inl (SystemExit 1))
      | inl r =>
          ((h ++ [Log INFO (connecting_line cfg); Io (Connect (inl r))])%list,
           inl (of_raised r))
      end.
Proof.
  intros H1 H2 H3. unfold run_opcua_client, parse, bind at 1 2 3.
  rewrite H1. unfold ret at 1. rewrite H2. unfold ret at 1. rewrite H3. unfold ret at 1.
  unfold bind, try_except, connect, Eff.call, log, emit, raise, connected.
  destruct (connect_answer w _) as [[ | code | msg] | []]; cbn [result_of of_raised];
    rewrite <- ?app_assoc; reflexivity.
Qed.

Lemma opcua_run_bad_nodeid (n : nat) (cfg : config) (w : world)
      (h : list event) (e : OpcUa.exception) :
  OpcUa.parse_nodeid (node1_nodeid cfg) = inl e
  \/ (exists node1, OpcUa.parse_nodeid (node1_nodeid cfg) = inr node1
                    /\ OpcUa.parse_nodeid (node2_nodeid cfg) = inl e)
  \/ (exists node1 node2, OpcUa.parse_nodeid (node1_nodeid cfg) = inr node1
                          /\ OpcUa.parse_nodeid (node2_nodeid cfg) = inr node2
                          /\ OpcUa.parse_nodeid (node3_nodeid cfg) = inl e) ->
  run_opcua_client n cfg w h = (h, inl (Parse e)).
Proof.
  unfold run_opcua_client, parse.
  intros [H1 | [(node1 & H1 & H2) | (node1 & node2 & H1 & H2 & H3)]].
  - unfold bind at 1. rewrite H1. reflexivity.
  - unfold bind at 1. rewrite H1. unfold ret at 1.
    unfold bind at 1. rewrite H2. reflexivity.
  - unfold bind at 1. rewrite H1. unfold ret at 1.
    unfold bind at 1. rewrite H2. unfold ret at 1.
    unfold bind at 1. rewrite H3. reflexivity.
Qed.

(** X17. A node id of the configuration that [parse_nodeid] rejects
    stops [run_opcua_client] at once: the exception leaves the function
    before anything is logged and before any connection is attempted. *)
Theorem opcua_client_bad_nodeid (n : nat) (cfg : config) (w : world)
        (h : list event) (e : OpcUa.exception) :
  OpcUa.parse_nodeid (node1_nodeid cfg) = inl e
  \/ (exists node1, OpcUa.parse_nodeid (node1_nodeid cfg) = inr node1
                    /\ OpcUa.parse_nodeid (node2_nodeid cfg) = inl e)
  \/ (exists node1 node2, OpcUa.parse_nodeid (node1_nodeid cfg) = inr node1
                          /\ OpcUa.parse_nodeid (node2_nodeid cfg) = inr node2
                          /\ OpcUa.parse_nodeid (node3_nodeid cfg) = inl e) ->
  run_opcua_client n cfg w h = (h, inl (Parse e)).
Proof. apply opcua_run_bad_nodeid. Qed.

Lemma opcua_client_bad_nodeid_witness :
  run_opcua_client 5 broken_config interrupted_world []
    = ([], inl (Parse OpcUa.IndexError)).
Proof.
  apply (opcua_client_bad_nodeid 5 broken_config interrupted_world [] OpcUa.IndexError).
  right. left. eexists. split; reflexivity.
Defined.

(** X18. When the connection fails, [run_opcua_client] reads nothing
    and does not disconnect.  An exception derived from [Exception] is
    logged with its text and turned into [sys.exit(1)]; a
    [KeyboardInterrupt] or [SystemExit] raised by [connect] leaves the
    function as it is, without a record. *)
Theorem opcua_client_connect_failure (n : nat) (cfg : config) (w : world)
        (node1 node2 node3 : OpcUa.NodeId) (h : list event) (r : raised) :
  OpcUa.parse_nodeid (node1_nodeid cfg) = inr node1 ->
  OpcUa.parse_nodeid (node2_nodeid cfg) = inr node2 ->
  OpcUa.parse_nodeid (node3_nodeid cfg) = inr node3 ->
  connect_answer w (h ++ [Log INFO (connecting_line cfg)])%list = inl r ->
  exists tr,
    fst (run_opcua_client n cfg w h) = (h ++ tr)%list /\
    occurrences is_get_value tr = 0%nat /\
    occurrences is_disconnect tr = 0%nat /\
    (forall msg, r = Error msg ->
                 snd (run_opcua_client n cfg w h) = inl (SystemExit 1) /\
                 In (Log ERROR ("Failed to connect to server: " ++ msg)) tr) /\
    (r = Interrupt \/ (exists code, r = Exit code) ->
     snd (run_opcua_client n cfg w h) = inl (of_raised r) /\
     forall lvl msg, In (Log lvl msg) tr -> lvl = INFO).
Proof.
  intros H1 H2 H3 Hc.
  rewrite (opcua_run_parsed n cfg w node1 node2 node3 h H1 H2 H3), Hc.
  destruct r as [ | code | msg]; eexists; (split; [ reflexivity | ]);
    (split; [ reflexivity | split; [ reflexivity | split ] ]).
  - intros msg H. discriminate H.
  - intros _. split; [ reflexivity | ].
    intros lvl msg [H | [H | []]]; [ injection H as <- _; reflexivity | discriminate H ].
  - intros msg H. discriminate H.
  - intros _. split; [ reflexivity | ].
    intros lvl msg [H | [H | []]]; [ injection H as <- _; reflexivity | discriminate H ].
  - intros msg0 [= <-]. split; [ reflexivity | ]. right. right. left. reflexivity.
  - intros [H | [code H]]; discriminate H.
Qed.

Lemma opcua_client_connect_failure_witness :
  snd (run_opcua_client 5 example_config refusing_world []) = inl (SystemExit 1).
Proof.
  destruct (opcua_client_connect_failure 5 example_config refusing_world
              _ _ _ [] (Error "Connection refused") eq_refl eq_refl eq_refl eq_refl)
    as (tr & _ & _ & _ & Herr & _).
  apply (Herr "Connection refused" eq_refl).
Defined.

(** X19. In a pass of the OPC UA loop the three reads are not
    isolated from each other: the first read that raises ends the pass
    there, the reads after it are not made and no record is written. *)
Theorem opcua_pass_stops_at_first_failure (cfg : config) (w : world)
        (node1 node2 node3 : OpcUa.NodeId) (h : list event) :
  (forall r,
      value_answer w h node1 = inl r ->
      poll_pass cfg w node1 node2 node3 h
        = ((h ++ [Io (GetValue node1 (inl r))])%list, inl (of_raised r))) /\
  (forall val1 r,
      value_answer w h node1 = inr val1 ->
      value_answer w (h ++ [Io (GetValue node1 (inr val1))])%list node2 = inl r ->
      poll_pass cfg w node1 node2 node3 h
        = ((h ++ [Io (GetValue node1 (inr val1)); Io (GetValue node2 (inl r))])%list,
           inl (of_raised r))) /\
  (forall val1 val2 r,
      value_answer w h node1 = inr val1 ->
      value_answer w (h ++ [Io (GetValue node1 (inr val1))])%list node2 = inr val2 ->
      value_answer w (h ++ [Io (GetValue node1 (inr val1));
                            Io (GetValue node2 (inr val2))])%list node3 = inl r ->
      poll_pass cfg w node1 node2 node3 h
        = ((h ++ [Io (GetValue node1 (inr val1)); Io (GetValue node2 (inr val2));
                  Io (GetValue node3 (inl r))])%list,
           inl (of_raised r))).
Proof.
  split; [ | split ].
  - intros r H1. rewrite opcua_pass_run. cbn zeta. rewrite H1. reflexivity.
  - intros val1 r H1 H2. rewrite opcua_pass_run. cbn zeta. rewrite H1, H2.
    rewrite <- app_assoc. reflexivity.
  - intros val1 val2 r H1 H2 H3. rewrite opcua_pass_run. cbn zeta. rewrite H1, H2.
    replace ((h ++ [Io (GetValue node1 (inr val1))]) ++ [Io (GetValue node2 (inr val2))])%list
      with (h ++ [Io (GetValue node1 (inr val1)); Io (GetValue node2 (inr val2))])%list
      by (rewrite <- app_assoc; reflexivity).
    rewrite H3. rewrite <- app_assoc. reflexivity.
Qed.

Lemma opcua_pass_stops_at_first_failure_witness :
  poll_pass example_config failing_read_world
            (OpcUa.mkNodeId (OpcUa.Text "Var1") 2 NodeIdType.String)
            (OpcUa.mkNodeId (OpcUa.Text "Var2") 2 NodeIdType.String)
            (OpcUa.mkNodeId (OpcUa.Text "Var3") 2 NodeIdType.String) []
    = ([Io (GetValue (OpcUa.mkNodeId (OpcUa.Text "Var1") 2 NodeIdType.String)
                     (inl (Error "BadNodeIdUnknown")))],
       inl (OtherError "BadNodeIdUnknown")).
Proof.
  apply (proj1 (opcua_pass_stops_at_first_failure example_config failing_read_world
                  _ _ _ []) (Error "BadNodeIdUnknown") eq_refl).
Defined.

Lemma occurrences_cons_hit (p : event -> bool) (tr1 tl : list event) (x : event) :
  p x = true -> (1 <= occurrences p (tr1 ++ x :: tl))%nat.
Proof.
  intros Hx. rewrite occurrences_app. unfold occurrences at 2. cbn. rewrite Hx. cbn. lia.
Qed.

Lemma split_at_unique (p : event -> bool) (pre post tr1 tl : list event) (x y : event) :
  occurrences p pre = 0%nat -> occurrences p post = 0%nat ->
  p x = true -> p y = true ->
  (pre ++ x :: post = tr1 ++ y :: tl)%list ->
  tr1 = pre /\ tl = post.
Proof.
  intros Hpre Hpost Hx Hy. revert tr1.
  induction pre as [ | a pre IH]; intros tr1 Heq.
  - destruct tr1 as [ | z tr1]; cbn in Heq.
    + injection Heq as _ <-. split; reflexivity.
    + injection Heq as _ Heq. exfalso.
      pose proof (occurrences_cons_hit p tr1 tl y Hy) as H. rewrite <- Heq in H. lia.
  - assert (Ha : p a = false).
    { unfold occurrences in Hpre. cbn in Hpre. destruct (p a); [ discriminate Hpre | reflexivity ]. }
    assert (Hpre' : occurrences p pre = 0%nat).
    { unfold occurrences in *. cbn in Hpre. rewrite Ha in Hpre. exact Hpre. }
    destruct tr1 as [ | z tr1]; cbn in Heq.
    + injection Heq as -> _. congruence.
    + injection Heq as <- Heq. destruct (IH Hpre' tr1 Heq) as [-> ->]. split; reflexivity.
Qed.

Lemma leaving_shape (w : world) (x : exception) (h1 : list event) :
  exists pre ans post,
    leaving w x h1 = (pre ++ Io (Disconnect ans) :: post)%list /\
    occurrences is_call pre = 0%nat /\ occurrences is_call post = 0%nat /\
    (leaving_outcome w x h1 <> inr Running) /\
    (leaving_outcome w x h1 = inr Returned ->
     In (Log INFO "Received Ctrl+C, shutting down client.") pre /\ ans = inr tt).
Proof.
  unfold leaving, leaving_outcome.
  destruct (is_interrupt x); destruct (disconnect_answer w _) as [r | []];
    eexists _, _, _; (split; [ reflexivity | ]); cbn;
    (split; [ reflexivity | split; [ reflexivity | split; [ discriminate | ] ] ]);
    try discriminate; intros _; try (split; [ left; reflexivity | reflexivity ]).
Qed.

Lemma occurrences_call_zero (l : list event) :
  occurrences is_call l = 0%nat ->
  occurrences is_connect l = 0%nat /\ occurrences is_disconnect l = 0%nat
  /\ occurrences is_get_value l = 0%nat.
Proof.
  unfold occurrences. induction l as [ | e l IH]; [ repeat split | ].
  destruct e as [lvl msg | c | k]; cbn; try exact IH. discriminate.
Qed.

(** The four ways a run of [run_opcua_client] can look. *)
Lemma opcua_run_shape (n : nat) (cfg : config) (w : world) :
  (exists e, run_opcua_client n cfg w [] = ([], inl (Parse e)))
  \/ (exists r tl x,
         run_opcua_client n cfg w []
           = (Log INFO (connecting_line cfg) :: Io (Connect (inl r)) :: tl, inl x)
         /\ occurrences is_call tl = 0%nat)
  \/ (exists trl,
         run_opcua_client n cfg w [] = ((connected cfg ++ trl)%list, inr Running)
         /\ occurrences is_connect trl = 0%nat
         /\ occurrences is_disconnect trl = 0%nat
         /\ occurrences is_get_value trl = (3 * n)%nat)
  \/ (exists trl pre ans post out,
         run_opcua_client n cfg w []
           = ((connected cfg ++ trl ++ pre ++ Io (Disconnect ans) :: post)%list, out)
         /\ occurrences is_connect trl = 0%nat
         /\ occurrences is_disconnect trl = 0%nat
         /\ occurrences is_call pre = 0%nat
         /\ occurrences is_call post = 0%nat
         /\ out <> inr Running
         /\ (out = inr Returned ->
             In (Log INFO "Received Ctrl+C, shutting down client.") pre /\ ans = inr tt)).
Proof.
  destruct (OpcUa.parse_nodeid (node1_nodeid cfg)) as [e | node1] eqn:H1.
  { left. exists e. apply opcua_run_bad_nodeid. left. exact H1. }
  destruct (OpcUa.parse_nodeid (node2_nodeid cfg)) as [e | node2] eqn:H2.
  { left. exists e. apply opcua_run_bad_nodeid. right. left. eauto. }
  destruct (OpcUa.parse_nodeid (node3_nodeid cfg)) as [e | node3] eqn:H3.
  { left. exists e. apply opcua_run_bad_nodeid. right. right. eauto. }
  right. rewrite (opcua_run_parsed n cfg w node1 node2 node3 [] H1 H2 H3). cbn [app].
  destruct (connect_answer w _) as [r | []].
  { left. destruct r as [ | code | msg]; eexists _, _, _; split; reflexivity. }
  right. rewrite polling_run.
  destruct (opcua_loop_events cfg w node1 node2 node3 n (connected cfg))
    as (trl & Hf & Hc & Hd & Hg).
  destruct (poll_loop n cfg w node1 node2 node3 (connected cfg)) as [h1 [x | []]];
    cbn [fst snd] in *; subst h1.
  - right. destruct (leaving_shape w x (connected cfg ++ trl)%list)
      as (pre & ans & post & -> & Hpre & Hpost & Hrun & Hret).
    exists trl, pre, ans, post, (leaving_outcome w x (connected cfg ++ trl)%list).
    rewrite <- app_assoc. repeat split; try assumption; apply Hret; assumption.
  - left. exists trl. repeat split; try assumption. apply Hg. reflexivity.
Qed.

Lemma connected_counts (cfg : config) :
  occurrences is_connect (connected cfg) = 1%nat /\
  occurrences is_disconnect (connected cfg) = 0%nat /\
  occurrences is_get_value (connected cfg) = 0%nat.
Proof. repeat split. Qed.

Lemma failed_connect_counts (cfg : config) (r : raised) (tl : list event) :
  occurrences is_call tl = 0%nat ->
  occurrences is_connect (Log INFO (connecting_line cfg) :: Io (Connect (inl r)) :: tl)
    = 1%nat /\
  occurrences is_disconnect (Log INFO (connecting_line cfg) :: Io (Connect (inl r)) :: tl)
    = 0%nat /\
  ~ In (Io (Connect (inr tt)))
       (Log INFO (connecting_line cfg) :: Io (Connect (inl r)) :: tl).
Proof.
  intros Htl. destruct (occurrences_call_zero tl Htl) as (Hc & Hd & _).
  change (Log INFO (connecting_line cfg) :: Io (Connect (inl r)) :: tl)
    with ([Log INFO (connecting_line cfg); Io (Connect (inl r))] ++ tl)%list.
  rewrite !occurrences_app, Hc, Hd.
  split; [ reflexivity | split; [ reflexivity | ] ].
  intros H. apply in_app_iff in H as [[H | [H | []]] | H]; try discriminate H.
  apply in_split in H as (l1 & l2 & ->).
  pose proof (occurrences_cons_hit is_connect l1 l2 (Io (Connect (inr tt))) eq_refl). lia.
Qed.

(** X20. The connection of [run_opcua_client] is opened at most once
    and closed at most once.  While the loop is going no disconnection
    has been made, and [n] completed passes have made [3 n] reads.
    Once the client is connected and the loop is left, by [Ctrl+C] or
    by any other exception, [disconnect] is called exactly once, after
    the connection and as the last call of the run.  The function
    returns normally only after [Ctrl+C] and a disconnection that
    succeeded. *)
Theorem opcua_client_disconnects_once (n : nat) (cfg : config) (w : world) :
  (occurrences is_connect (trace (run_opcua_client n cfg w)) <= 1)%nat /\
  (occurrences is_disconnect (trace (run_opcua_client n cfg w)) <= 1)%nat /\
  (outcome (run_opcua_client n cfg w) = inr Running ->
   occurrences is_disconnect (trace (run_opcua_client n cfg w)) = 0%nat /\
   occurrences is_get_value (trace (run_opcua_client n cfg w)) = (3 * n)%nat) /\
  (In (Io (Connect (inr tt))) (trace (run_opcua_client n cfg w)) ->
   outcome (run_opcua_client n cfg w) <> inr Running ->
   occurrences is_disconnect (trace (run_opcua_client n cfg w)) = 1%nat) /\
  (outcome (run_opcua_client n cfg w) = inr Returned ->
   In (Log INFO "Received Ctrl+C, shutting down client.")
      (trace (run_opcua_client n cfg w)) /\
   In (Io (Disconnect (inr tt))) (trace (run_opcua_client n cfg w))) /\
  (forall tr1 ans tl,
      trace (run_opcua_client n cfg w) = (tr1 ++ Io (Disconnect ans) :: tl)%list ->
      occurrences is_call tl = 0%nat /\ occurrences is_connect tr1 = 1%nat).
Proof.
  unfold trace, outcome.
  destruct (opcua_run_shape n cfg w)
    as [(e & ->) | [(r & tl & x & -> & Htl)
                   | [(trl & -> & Hc & Hd & Hg)
                     | (trl & pre & ans & post & out & -> & Hc & Hd & Hpre & Hpost & Hrun & Hret)]]];
    cbn [fst snd].
  - split; [ unfold occurrences; simpl; lia | ].
    split; [ unfold occurrences; simpl; lia | ].
    split; [ discriminate | ].
    split; [ intros [] | ].
    split; [ discriminate | ].
    intros tr1 ans tl H. destruct tr1; discriminate H.
  - destruct (failed_connect_counts cfg r tl Htl) as (Hc & Hd & Hnin).
    split; [ rewrite Hc; lia | ].
    split; [ rewrite Hd; lia | ].
    split; [ discriminate | ].
    split; [ intros H; contradiction | ].
    split; [ discriminate | ].
    intros tr1 ans tl0 H. exfalso.
    pose proof (occurrences_cons_hit is_disconnect tr1 tl0 (Io (Disconnect ans)) eq_refl) as H1.
    rewrite <- H, Hd in H1. lia.
  - destruct (connected_counts cfg) as (Hc0 & Hd0 & Hg0).
    split; [ rewrite occurrences_app, Hc, Hc0; lia | ].
    split; [ rewrite occurrences_app, Hd, Hd0; lia | ].
    split; [ intros _; rewrite !occurrences_app, Hd, Hg, Hd0, Hg0; split; lia | ].
    split; [ intros _ H; congruence | ].
    split; [ discriminate | ].
    intros tr1 ans tl H. exfalso.
    pose proof (occurrences_cons_hit is_disconnect tr1 tl (Io (Disconnect ans)) eq_refl) as H1.
    rewrite <- H, occurrences_app, Hd, Hd0 in H1. lia.
  - destruct (connected_counts cfg) as (Hc0 & Hd0 & Hg0).
    destruct (occurrences_call_zero pre Hpre) as (Hcpre & Hdpre & _).
    destruct (occurrences_call_zero post Hpost) as (Hcpost & Hdpost & _).
    assert (Hbefore : occurrences is_disconnect ((connected cfg ++ trl) ++ pre) = 0%nat).
    { rewrite !occurrences_app, Hd, Hdpre, Hd0. reflexivity. }
    assert (Hconn : occurrences is_connect ((connected cfg ++ trl) ++ pre) = 1%nat).
    { rewrite !occurrences_app, Hc, Hcpre, Hc0. reflexivity. }
    assert (Hre : (connected cfg ++ trl ++ pre ++ Io (Disconnect ans) :: post
                   = ((connected cfg ++ trl) ++ pre) ++ [Io (Disconnect ans)] ++ post)%list).
    { rewrite <- !app_assoc. reflexivity. }
    rewrite Hre.
    split.
    { rewrite !(occurrences_app is_connect (_ ++ pre)), Hconn.
      rewrite occurrences_app, Hcpost. unfold occurrences; simpl. lia. }
    assert (Hdisc : occurrences is_disconnect
                      (((connected cfg ++ trl) ++ pre) ++ [Io (Disconnect ans)] ++ post)
                    = 1%nat).
    { rewrite !(occurrences_app is_disconnect (_ ++ pre)), Hbefore.
      rewrite occurrences_app, Hdpost. reflexivity. }
    split; [ rewrite Hdisc; lia | ].
    split; [ intros H; contradiction | ].
    split; [ intros _ _; exact Hdisc | ].
    split.
    { intros H. destruct (Hret H) as [Hin ->]. split.
      - apply in_app_iff. left. apply in_app_iff. right. exact Hin.
      - apply in_app_iff. right. left. reflexivity. }
    intros tr1 ans' tl H.
    destruct (split_at_unique is_disconnect ((connected cfg ++ trl) ++ pre) post tr1 tl
                (Io (Disconnect ans)) (Io (Disconnect ans'))
                Hbefore Hdpost eq_refl eq_refl H) as [-> ->].
    split; [ exact Hpost | exact Hconn ].
Qed.

Lemma opcua_client_disconnects_once_witness :
  occurrences is_disconnect (trace (run_opcua_client 5 example_config interrupted_world))
    = 1%nat /\
  In (Io (Disconnect (inr tt))) (trace (run_opcua_client 5 example_config interrupted_world)).
Proof.
  destruct (opcua_client_disconnects_once 5 example_config interrupted_world)
    as (_ & _ & _ & Hleft & Hret & _).
  split.
  - apply Hleft; [ vm_compute; tauto | vm_compute; discriminate ].
  - apply Hret. vm_compute. reflexivity.
Defined.

End OpcUaClientClaims.

Section TraceFacts.
Import Eff Trace.
Context {Call : Type}.
Implicit Types (p : event Call -> bool) (tr : list (event Call)).

Lemma count_app p (l1 l2 : list (event Call)) :
  count p (l1 ++ l2) = (count p l1 + count p l2)%nat.
Proof. unfold count. rewrite List.filter_app, List.length_app. reflexivity. Qed.

Lemma count_cons p (e : event Call) tr :
  count p (e :: tr) = ((if p e then 1 else 0) + count p tr)%nat.
Proof. unfold count. cbn [List.filter]. destruct (p e); reflexivity. Qed.

Lemma count_hit p (tr1 tl : list (event Call)) (x : event Call) :
  p x = true -> (1 <= count p (tr1 ++ x :: tl))%nat.
Proof. intros Hx. rewrite count_app, count_cons, Hx. lia. Qed.

(** A trace with one event of a kind splits at that event in one way
    only. *)
Lemma count_split_unique p (pre post tr1 tl : list (event Call)) (x y : event Call) :
  count p pre = 0%nat -> count p post = 0%nat ->
  p x = true -> p y = true ->
  (pre ++ x :: post = tr1 ++ y :: tl)%list ->
  tr1 = pre /\ y = x /\ tl = post.
Proof.
  intros Hpre Hpost Hx Hy. revert tr1.
  induction pre as [ | a pre IH]; intros tr1 Heq.
  - destruct tr1 as [ | z tr1]; cbn in Heq.
    + injection Heq as <- <-. repeat split.
    + injection Heq as _ Heq. exfalso.
      pose proof (count_hit p tr1 tl y Hy) as H. rewrite <- Heq in H. lia.
  - rewrite count_cons in Hpre.
    assert (Ha : p a = false) by (destruct (p a); [ discriminate Hpre | reflexivity ]).
    rewrite Ha in Hpre.
    destruct tr1 as [ | z tr1]; cbn in Heq.
    + injection Heq as -> _. congruence.
    + injection Heq as <- Heq. destruct (IH Hpre tr1 Heq) as (-> & -> & ->).
      repeat split.
Qed.

(** A trace without calls has no call of any kind. *)
Lemma count_no_io p tr :
  (forall e, p e = true -> is_io e = true) ->
  count is_io tr = 0%nat -> count p tr = 0%nat.
Proof.
  intros Hp. induction tr as [ | e tr IH]; [ reflexivity | ].
  rewrite !count_cons. intros H.
  destruct (is_io e) eqn:He; [ discriminate H | ].
  destruct (p e) eqn:Hpe; [ rewrite (Hp e Hpe) in He; discriminate He | ].
  apply IH. exact H.
Qed.

End TraceFacts.

Section Snap7RunFacts.
Import Eff Trace Snap7Run.
Local Open Scope string_scope.

(** A pass of the loop, event by event. *)
Lemma snap7run_pass_run (cfg : Snap7Client.config) (w : world) (h : list event) :
  poll_pass cfg w h
    = let db := Snap7Client.db_number cfg in
      let first := Snap7Client.start cfg in
      let rd := read_answer w h db first (Snap7Client.size cfg) in
      let h1 := (h ++ [Io (DbRead db first (Snap7Client.size cfg) rd)])%list in
      match rd with
      | inl r => (h1, inl (of_raised r))
      | inr data =>
          let h2 := (h1 ++ [Log INFO (read_line cfg data)])%list in
          match data !! 1%nat with
          | None => (h2, inl IndexError)
          | Some old =>
              let new := (old + 1) mod 256 in
              let data1 := Snap7Client.set_byte data 1 new in
              let wr := write_answer w h2 db first data1 in
              let h3 := (h2 ++ [Io (DbWrite db first data1 wr)])%list in
              match wr with
              | inl r => (h3, inl (of_raised r))
              | inr _ =>
                  let h4 := (h3 ++ [Log INFO (wrote_line cfg old new)])%list in
                  let sl := sleep_answer w h4 (Snap7Client.poll_interval cfg) in
                  ((h4 ++ [Io (Sleeping (Snap7Client.poll_interval cfg) sl)])%list,
                   result_of sl)
              end
          end
      end.
Proof.
  unfold poll_pass, bind, db_read, db_write, time_sleep, Eff.call, log, emit, get_item.
  cbn zeta.
  destruct (read_answer w h _ _ _) as [r | data]; [ reflexivity | ]. cbn [result_of].
  destruct (data !! 1%nat) as [old | ]; unfold ret, raise; [ | reflexivity ].
  destruct (write_answer w _ _ _ _) as [r | []]; reflexivity.
Qed.

(** What a pass appends: one read, at most one write, and no call that
    opens, checks or closes the connection. *)
Lemma snap7run_pass_events (cfg : Snap7Client.config) (w : world) (h : list event) :
  exists tr,
    fst (poll_pass cfg w h) = (h ++ tr)%list /\
    count is_connect tr = 0%nat /\
    count is_get_connected tr = 0%nat /\
    count is_disconnect tr = 0%nat /\
    (snd (poll_pass cfg w h) = inr tt ->
     count is_read tr = 1%nat /\ count is_write tr = 1%nat).
Proof.
  rewrite snap7run_pass_run. cbn zeta.
  destruct (read_answer w h _ _ _) as [r | data].
  { eexists. split; [ reflexivity | ]. repeat split; discriminate. }
  destruct (data !! 1%nat) as [old | ].
  2:{ eexists. split; [ cbn [fst]; rewrite <- !app_assoc; reflexivity | ].
      repeat split; discriminate. }
  destruct (write_answer w _ _ _ _) as [r | []].
  { eexists. split; [ cbn [fst]; rewrite <- !app_assoc; reflexivity | ].
    repeat split; discriminate. }
  eexists. split; [ cbn [fst]; rewrite <- !app_assoc; reflexivity | ].
  repeat split.
Qed.

Lemma snap7run_loop_events (cfg : Snap7Client.config) (w : world) (n : nat)
      (h : list event) :
  exists tr,
    fst (poll_loop n cfg w h) = (h ++ tr)%list /\
    count is_connect tr = 0%nat /\
    count is_get_connected tr = 0%nat /\
    count is_disconnect tr = 0%nat /\
    (snd (poll_loop n cfg w h) = inr tt ->
     count is_read tr = n /\ count is_write tr = n).
Proof.
  revert h. induction n as [ | n IH]; intros h.
  - exists []. rewrite app_nil_r. repeat split.
  - cbn [poll_loop]. unfold bind.
    destruct (snap7run_pass_events cfg w h) as (tr1 & Hf & Hc & Hg & Hd & Hrw).
    destruct (poll_pass cfg w h) as [h1 [x | []]]; cbn [fst snd] in *.
    + exists tr1. repeat split; try assumption; discriminate.
    + subst h1. destruct (IH (h ++ tr1)%list) as (tr2 & Hf2 & Hc2 & Hg2 & Hd2 & Hrw2).
      exists (tr1 ++ tr2)%list. rewrite Hf2, app_assoc.
      split; [ reflexivity | ].
      rewrite !count_app, Hc, Hg, Hd, Hc2, Hg2, Hd2.
      split; [ reflexivity | split; [ reflexivity | split; [ reflexivity | ] ] ].
      intros Hok. destruct (Hrw eq_refl) as [-> ->]. destruct (Hrw2 Hok) as [-> ->].
      split; reflexivity.
Qed.

(** The [finally] block, event by event. *)
Lemma snap7run_cleanup_run (w : world) (h : list event) :
  cleanup w h
    = ((h ++ cleanup_events w h)%list,
       match cleanup_raises w h with
       | Some y => inl y
       | None => inr tt
       end).
Proof.
  unfold cleanup, cleanup_events, cleanup_raises, bind, get_connected, disconnect,
    Eff.call, log, emit, ret.
  destruct (connected_answer w h) as [r | [ | ]]; cbn [result_of];
    [ reflexivity | | rewrite <- app_assoc; reflexivity ].
  destruct (disconnect_answer w _) as [r | []]; cbn [result_of];
    rewrite <- ?app_assoc; reflexivity.
Qed.

Lemma snap7run_polling_run (n : nat) (cfg : Snap7Client.config) (w : world)
      (h : list event) :
  polling n cfg w h
    = match poll_loop n cfg w h with
      | (h1, inr _) => (h1, inr Running)
      | (h1, inl x) => ((h1 ++ leaving w x h1)%list, leaving_outcome w x h1)
      end.
Proof.
  unfold polling, leaving, leaving_outcome.
  destruct (poll_loop n cfg w h) as [h1 [x | []]]; [ | reflexivity ].
  destruct x as [ | | code | msg]; cbn [is_interrupt app];
    unfold bind at 1; try (unfold log at 1, emit at 1; unfold bind at 1);
    rewrite snap7run_cleanup_run, ?app_nil_r;
    destruct (cleanup_raises w _) as [y | ]; unfold raise, ret;
      rewrite <- ?app_assoc; reflexivity.
Qed.

(** The function up to its loop, event by event. *)
Lemma snap7run_run (n : nat) (conn : connection) (cfg : Snap7Client.config)
      (w : world) (h : list event) :
  run_snap7_client n conn cfg w h
    = let h1 := (h ++ [Log INFO (connecting_line conn)])%list in
      let c := connect_answer w h1 (ip conn) (rack conn) (slot conn) (tcpport conn) in
      let h2 := (h1 ++ [Io (Connect (ip conn) (rack conn) (slot conn) (tcpport conn) c)])%list in
      match c with
      | inl (Error msg) =>
          ((h2 ++ [Log ERROR ("Connection error: " ++ msg)])%list, inl (SystemExit 1))
      | inl r => (h2, inl (of_raised r))
      | inr _ =>
          let g := connected_answer w h2 in
          let h3 := (h2 ++ [Io (GetConnected g)])%list in
          match g with
          | inl (Error msg) =>
              ((h3 ++ [Log ERROR ("Connection error: " ++ msg)])%list, inl (SystemExit 1))
          | inl r => (h3, inl (of_raised r))
          | inr false =>
              ((h3 ++ [Log ERROR "Failed to connect to the Snap7 server."])%list,
               inl (SystemExit 1))
          | inr true => polling n cfg w (h ++ connected conn)%list
          end
      end.
Proof.
  unfold run_snap7_client, bind, try_except, connect, get_connected, Eff.call, log, emit,
    raise, ret, connected.
  cbn zeta.
  destruct (connect_answer w _ _ _ _ _) as [[ | code | msg] | []]; cbn [result_of of_raised];
    try reflexivity.
  destruct (connected_answer w _) as [[ | code | msg] | [ | ]]; cbn [result_of of_raised negb];
    try reflexivity.
  rewrite <- !app_assoc. reflexivity.
Qed.

End Snap7RunFacts.

Section Snap7RunProperties.
Import Eff Trace Snap7Run.
Local Open Scope string_scope.

(** X21. When the connection cannot be made, [run_snap7_client] ends
    with [sys.exit(1)] after one ERROR record, and neither reads nor
    disconnects: an exception of [connect] is logged with its text; a
    client that reports not being connected is logged as a failure, and
    the [SystemExit] raised inside the [try] block is not caught by its
    [except Exception].  A [KeyboardInterrupt] or [SystemExit] raised by
    [connect] leaves the function as it is, without a record. *)
Theorem snap7_client_connect_failure (n : nat) (conn : connection)
        (cfg : Snap7Client.config) (w : world) (h : list event) :
  (forall msg,
      connect_answer w (h ++ [Log INFO (connecting_line conn)])%list
                     (ip conn) (rack conn) (slot conn) (tcpport conn) = inl (Error msg) ->
      run_snap7_client n conn cfg w h
        = ((h ++ [Log INFO (connecting_line conn);
                  Io (Connect (ip conn) (rack conn) (slot conn) (tcpport conn)
                              (inl (Error msg)));
                  Log ERROR ("Connection error: " ++ msg)])%list,
           inl (SystemExit 1))) /\
  (connect_answer w (h ++ [Log INFO (connecting_line conn)])%list
                  (ip conn) (rack conn) (slot conn) (tcpport conn) = inr tt ->
   connected_answer w (h ++ [Log INFO (connecting_line conn);
                             Io (Connect (ip conn) (rack conn) (slot conn) (tcpport conn)
                                         (inr tt))])%list = inr false ->
   run_snap7_client n conn cfg w h
     = ((h ++ [Log INFO (connecting_line conn);
               Io (Connect (ip conn) (rack conn) (slot conn) (tcpport conn) (inr tt));
               Io (GetConnected (inr false));
               Log ERROR "Failed to connect to the Snap7 server."])%list,
        inl (SystemExit 1))) /\
  (forall r,
      connect_answer w (h ++ [Log INFO (connecting_line conn)])%list
                     (ip conn) (rack conn) (slot conn) (tcpport conn) = inl r ->
      r = Interrupt \/ (exists code, r = Exit code) ->
      run_snap7_client n conn cfg w h
        = ((h ++ [Log INFO (connecting_line conn);
                  Io (Connect (ip conn) (rack conn) (slot conn) (tcpport conn) (inl r))])%list,
           inl (of_raised r))).
Proof.
  split; [ | split ].
  - intros msg Hc. rewrite snap7run_run. cbn zeta. rewrite Hc.
    rewrite <- !app_assoc. reflexivity.
  - intros Hc Hg. rewrite snap7run_run. cbn zeta. rewrite Hc.
    rewrite <- (app_assoc h). cbn [app]. rewrite Hg.
    rewrite <- !app_assoc. reflexivity.
  - intros r Hc Hr. rewrite snap7run_run. cbn zeta. rewrite Hc.
    rewrite <- !app_assoc.
    destruct Hr as [-> | [code ->]]; reflexivity.
Qed.

Lemma snap7_client_connect_failure_witness :
  run_snap7_client 3 example_connection Snap7Client.example_config silent_plc []
    = ([Log INFO "Connecting to Snap7 server at 127.0.0.1:1102, rack=0, slot=1";
        Io (Connect "127.0.0.1" 0 1 1102 (inr tt));
        Io (GetConnected (inr false));
        Log ERROR "Failed to connect to the Snap7 server."],
       inl (SystemExit 1)).
Proof.
  apply (proj1 (proj2 (snap7_client_connect_failure 3 example_connection
                         Snap7Client.example_config silent_plc []))); reflexivity.
Defined.

(** X22. A polled range of fewer than two bytes ends the client in its
    first pass: once connected, it reads the range once, writes nothing,
    and [IndexError] of [data[1]] leaves the function, after the
    [finally] block has disconnected the client and written its
    record. *)
Theorem snap7_client_short_range (n : nat) (conn : connection)
        (cfg : Snap7Client.config) (w : world) (h : list event)
        (data : Snap7Client.bytearray) :
  let db := Snap7Client.db_number cfg in
  let first := Snap7Client.start cfg in
  let len := Snap7Client.size cfg in
  let pass := [Io (DbRead db first len (inr data)); Log INFO (read_line cfg data)] in
  connect_answer w (h ++ [Log INFO (connecting_line conn)])%list
                 (ip conn) (rack conn) (slot conn) (tcpport conn) = inr tt ->
  connected_answer w (h ++ [Log INFO (connecting_line conn);
                            Io (Connect (ip conn) (rack conn) (slot conn) (tcpport conn)
                                        (inr tt))])%list = inr true ->
  read_answer w (h ++ connected conn)%list db first len = inr data ->
  (List.length data < 2)%nat ->
  connected_answer w (h ++ connected conn ++ pass)%list = inr true ->
  disconnect_answer w (h ++ connected conn ++ pass ++ [Io (GetConnected (inr true))])%list
    = inr tt ->
  run_snap7_client (S n) conn cfg w h
    = ((h ++ connected conn ++ pass
          ++ [Io (GetConnected (inr true));
              Io (Disconnect (inr tt));
              Log INFO "Snap7 client disconnected."])%list,
       inl IndexError).
Proof.
  intros db first len pass Hc Hg Hr Hlen Hg2 Hd.
  assert (Hnone : data !! 1%nat = None).
  { apply lookup_ge_None. lia. }
  rewrite snap7run_run. cbn zeta. rewrite Hc.
  rewrite <- (app_assoc h). cbn [app]. rewrite Hg.
  rewrite snap7run_polling_run. cbn [poll_loop]. unfold bind at 1.
  rewrite snap7run_pass_run. cbn zeta. fold db first len. rewrite Hr, Hnone.
  unfold leaving, leaving_outcome. cbn [is_interrupt app].
  rewrite !app_nil_r.
  replace (((h ++ connected conn) ++ [Io (DbRead db first len (inr data))])
             ++ [Log INFO (read_line cfg data)])%list
    with (h ++ connected conn ++ pass)%list
    by (unfold pass; rewrite <- !app_assoc; reflexivity).
  unfold cleanup_events, cleanup_raises. rewrite Hg2.
  replace ((h ++ connected conn ++ pass) ++ [Io (GetConnected (inr true))])%list
    with (h ++ connected conn ++ pass ++ [Io (GetConnected (inr true))])%list
    by (rewrite <- !app_assoc; reflexivity).
  rewrite Hd. rewrite <- !app_assoc. reflexivity.
Qed.

Lemma snap7_client_short_range_witness :
  run_snap7_client 4 example_connection Snap7Client.one_byte_config (plc_reading [10]) []
    = ([Log INFO "Connecting to Snap7 server at 127.0.0.1:1102, rack=0, slot=1";
        Io (Connect "127.0.0.1" 0 1 1102 (inr tt));
        Io (GetConnected (inr true));
        Log INFO "Snap7 client connected.";
        Io (DbRead 1 0 1 (inr [10]));
        Log INFO "Read from DB1, bytes[0..0]: [10]";
        Io (GetConnected (inr true));
        Io (Disconnect (inr tt));
        Log INFO "Snap7 client disconnected."],
       inl IndexError).
Proof.
  apply (snap7_client_short_range 3 example_connection Snap7Client.one_byte_config
           (plc_reading [10]) [] [10]); try reflexivity.
  simpl. lia.
Defined.

(** The [except KeyboardInterrupt] and [finally] blocks: one
    [get_connected], then at most a [disconnect]. *)
Lemma snap7run_leaving_shape (w : world) (x : exception) (h1 : list event) :
  exists pre g rest,
    leaving w x h1 = (pre ++ Io (GetConnected g) :: rest)%list /\
    count is_io pre = 0%nat /\
    (count is_io rest = 0%nat
     \/ (g = inr true /\
         exists d post, rest = Io (Disconnect d) :: post /\ count is_io post = 0%nat)) /\
    leaving_outcome w x h1 <> inr Running /\
    (leaving_outcome w x h1 = inr Returned ->
     In (Log INFO "Snap7 client stopped by user (Ctrl+C).") pre /\
     exists body, rest = (body ++ [Log INFO "Snap7 client disconnected."])%list).
Proof.
  unfold leaving, leaving_outcome, cleanup_events, cleanup_raises.
  destruct (is_interrupt x);
    (destruct (connected_answer w _) as [r | [ | ]];
     [ | destruct (disconnect_answer w _) as [r | []] | ]);
    eexists _, _, _; (split; [ reflexivity | ]);
    (split; [ reflexivity | ]);
    (split; [ first [ left; reflexivity
                    | right; split; [ reflexivity | eexists _, _; split; reflexivity ] ] | ]);
    (split; [ discriminate | ]);
    try discriminate; intros _;
    (split; [ left; reflexivity | ]);
    first [ exists []; reflexivity | eexists [_]; reflexivity ].
Qed.

Lemma snap7run_connected_counts (conn : connection) :
  count is_connect (connected conn) = 1%nat /\
  count is_get_connected (connected conn) = 1%nat /\
  count is_disconnect (connected conn) = 0%nat /\
  count is_read (connected conn) = 0%nat /\
  count is_write (connected conn) = 0%nat.
Proof. repeat split. Qed.

Lemma snap7run_kinds :
  (forall e, is_connect e = true -> is_io e = true) /\
  (forall e, is_get_connected e = true -> is_io e = true) /\
  (forall e, is_disconnect e = true -> is_io e = true).
Proof. repeat split; intros [lvl msg | c | k]; cbn; congruence. Qed.

(** The three ways a run of [run_snap7_client] can look. *)
Lemma snap7run_shape (n : nat) (conn : connection) (cfg : Snap7Client.config) (w : world) :
  (exists tr x,
      run_snap7_client n conn cfg w [] = (tr, inl x)
      /\ count is_connect tr = 1%nat
      /\ count is_disconnect tr = 0%nat
      /\ ~ In (Log INFO "Snap7 client connected.") tr)
  \/ (exists trl,
         run_snap7_client n conn cfg w [] = ((connected conn ++ trl)%list, inr Running)
         /\ count is_connect trl = 0%nat
         /\ count is_get_connected trl = 0%nat
         /\ count is_disconnect trl = 0%nat
         /\ count is_read trl = n
         /\ count is_write trl = n)
  \/ (exists trl x,
         run_snap7_client n conn cfg w []
           = ((connected conn ++ trl ++ leaving w x (connected conn ++ trl))%list,
              leaving_outcome w x (connected conn ++ trl)%list)
         /\ count is_connect trl = 0%nat
         /\ count is_get_connected trl = 0%nat
         /\ count is_disconnect trl = 0%nat).
Proof.
  rewrite snap7run_run. cbn zeta. cbn [app].
  destruct (connect_answer w _ _ _ _ _) as [r | []].
  { left. destruct r as [ | code | msg]; eexists _, _;
      (split; [ reflexivity | ]);
      (split; [ reflexivity | split; [ reflexivity | ] ]);
      intros H; repeat (destruct H as [H | H]; [ discriminate H | ]); exact H. }
  destruct (connected_answer w _) as [r | [ | ]].
  { left. destruct r as [ | code | msg]; eexists _, _;
      (split; [ reflexivity | ]);
      (split; [ reflexivity | split; [ reflexivity | ] ]);
      intros H; repeat (destruct H as [H | H]; [ discriminate H | ]); exact H. }
  2:{ left. eexists _, _.
      split; [ reflexivity | ].
      split; [ reflexivity | split; [ reflexivity | ] ].
      intros H; repeat (destruct H as [H | H]; [ discriminate H | ]); exact H. }
  right. rewrite snap7run_polling_run.
  destruct (snap7run_loop_events cfg w n (connected conn))
    as (trl & Hf & Hc & Hg & Hd & Hrw).
  destruct (poll_loop n cfg w (connected conn)) as [h1 [x | []]];
    cbn [fst snd] in *; subst h1.
  - right. exists trl, x. rewrite <- app_assoc. repeat split; assumption.
  - left. exists trl. destruct (Hrw eq_refl) as [Hr Hw]. repeat split; assumption.
Qed.

(** X23. [run_snap7_client] calls [connect] exactly once and
    [disconnect] at most once.  While the loop is going the client has
    not been disconnected, and [n] completed passes have made [n] reads
    and [n] writes.  A [disconnect] directly follows a [get_connected]
    that returned [True], and no call follows it.  Once the client is
    connected and the loop is left, by [Ctrl+C] or by any other
    exception, the [finally] block asks [get_connected] once more.  The
    function returns normally only after [Ctrl+C], and then its last
    record is [Snap7 client disconnected.]. *)
Theorem snap7_client_cleanup (n : nat) (conn : connection) (cfg : Snap7Client.config)
        (w : world) :
  count is_connect (trace (run_snap7_client n conn cfg w)) = 1%nat /\
  (count is_disconnect (trace (run_snap7_client n conn cfg w)) <= 1)%nat /\
  (outcome (run_snap7_client n conn cfg w) = inr Running ->
   count is_disconnect (trace (run_snap7_client n conn cfg w)) = 0%nat /\
   count is_read (trace (run_snap7_client n conn cfg w)) = n /\
   count is_write (trace (run_snap7_client n conn cfg w)) = n) /\
  (forall tr1 ans tl,
      trace (run_snap7_client n conn cfg w) = (tr1 ++ Io (Disconnect ans) :: tl)%list ->
      (exists tr0, tr1 = (tr0 ++ [Io (GetConnected (inr true))])%list) /\
      count is_io tl = 0%nat) /\
  (In (Log INFO "Snap7 client connected.") (trace (run_snap7_client n conn cfg w)) ->
   outcome (run_snap7_client n conn cfg w) <> inr Running ->
   count is_get_connected (trace (run_snap7_client n conn cfg w)) = 2%nat) /\
  (outcome (run_snap7_client n conn cfg w) = inr Returned ->
   In (Log INFO "Snap7 client stopped by user (Ctrl+C).")
      (trace (run_snap7_client n conn cfg w)) /\
   exists body,
     trace (run_snap7_client n conn cfg w)
       = (body ++ [Log INFO "Snap7 client disconnected."])%list).
Proof.
  unfold trace, outcome.
  destruct snap7run_kinds as (Kc & Kg & Kd).
  destruct (snap7run_shape n conn cfg w)
    as [(tr & x & -> & Hc & Hd & Hnin)
       | [(trl & -> & Hc & Hg & Hd & Hr & Hw)
         | (trl & x & -> & Hc & Hg & Hd)]];
    cbn [fst snd].
  - split; [ exact Hc | ].
    split; [ rewrite Hd; lia | ].
    split; [ discriminate | ].
    split.
    { intros tr1 ans tl H. exfalso.
      pose proof (count_hit is_disconnect tr1 tl (Io (Disconnect ans)) eq_refl) as H1.
      rewrite <- H, Hd in H1. lia. }
    split; [ intros H; contradiction | discriminate ].
  - destruct (snap7run_connected_counts conn) as (Hc0 & Hg0 & Hd0 & Hr0 & Hw0).
    split; [ rewrite count_app, Hc, Hc0; reflexivity | ].
    split; [ rewrite count_app, Hd, Hd0; lia | ].
    split.
    { intros _. rewrite !count_app, Hd, Hr, Hw, Hd0, Hr0, Hw0. repeat split. }
    split.
    { intros tr1 ans tl H. exfalso.
      pose proof (count_hit is_disconnect tr1 tl (Io (Disconnect ans)) eq_refl) as H1.
      rewrite <- H, count_app, Hd, Hd0 in H1. lia. }
    split; [ intros _ H; congruence | discriminate ].
  - destruct (snap7run_connected_counts conn) as (Hc0 & Hg0 & Hd0 & _ & _).
    destruct (snap7run_leaving_shape w x (connected conn ++ trl)%list)
      as (pre & g & rest & -> & Hpre & Hrest & Hrun & Hret).
    pose proof (count_no_io is_connect pre Kc Hpre) as Hcpre.
    pose proof (count_no_io is_get_connected pre Kg Hpre) as Hgpre.
    pose proof (count_no_io is_disconnect pre Kd Hpre) as Hdpre.
    assert (Hre : (connected conn ++ trl ++ pre ++ Io (GetConnected g) :: rest
                   = ((connected conn ++ trl) ++ pre) ++ [Io (GetConnected g)] ++ rest)%list).
    { rewrite <- !app_assoc. reflexivity. }
    rewrite Hre.
    assert (Hc1 : count is_connect ((connected conn ++ trl) ++ pre) = 1%nat).
    { rewrite !count_app, Hc, Hcpre, Hc0. reflexivity. }
    assert (Hg1 : count is_get_connected ((connected conn ++ trl) ++ pre) = 1%nat).
    { rewrite !count_app, Hg, Hgpre, Hg0. reflexivity. }
    assert (Hd1 : count is_disconnect ((connected conn ++ trl) ++ pre) = 0%nat).
    { rewrite !count_app, Hd, Hdpre, Hd0. reflexivity. }
    assert (Hrest' : count is_connect rest = 0%nat /\
                     count is_get_connected rest = 0%nat /\
                     (count is_disconnect rest <= 1)%nat).
    { destruct Hrest as [Hio | (_ & d & post & -> & Hio)].
      - rewrite (count_no_io is_connect rest Kc Hio),
          (count_no_io is_get_connected rest Kg Hio),
          (count_no_io is_disconnect rest Kd Hio). repeat split; lia.
      - rewrite !count_cons.
        rewrite (count_no_io is_connect post Kc Hio),
          (count_no_io is_get_connected post Kg Hio),
          (count_no_io is_disconnect post Kd Hio). cbn. repeat split; lia. }
    destruct Hrest' as (Hcr & Hgr & Hdr).
    split.
    { rewrite (count_app is_connect (_ ++ pre)), Hc1, count_app, Hcr. reflexivity. }
    split.
    { rewrite (count_app is_disconnect (_ ++ pre)), Hd1, count_app.
      change (count is_disconnect [Io (GetConnected g)]) with 0%nat. lia. }
    split; [ intros H; contradiction | ].
    split.
    { intros tr1 ans tl H.
      destruct Hrest as [Hio | (-> & d & post & -> & Hio)].
      - exfalso.
        pose proof (count_hit is_disconnect tr1 tl (Io (Disconnect ans)) eq_refl) as H1.
        rewrite <- H in H1.
        rewrite (count_app is_disconnect (_ ++ pre)), Hd1, count_app in H1.
        rewrite (count_no_io is_disconnect rest Kd Hio) in H1.
        change (count is_disconnect [Io (GetConnected g)]) with 0%nat in H1. lia.
      - assert (Hsplit : ((((connected conn ++ trl) ++ pre) ++ [Io (GetConnected (inr true))])
                            ++ Io (Disconnect d) :: post
                          = tr1 ++ Io (Disconnect ans) :: tl)%list).
        { rewrite <- H, <- !app_assoc. reflexivity. }
        assert (Hd2 : count is_disconnect
                        (((connected conn ++ trl) ++ pre) ++ [Io (GetConnected (inr true))])
                      = 0%nat).
        { rewrite count_app, Hd1. reflexivity. }
        destruct (count_split_unique is_disconnect _ post tr1 tl
                    (Io (Disconnect d)) (Io (Disconnect ans))
                    Hd2 (count_no_io is_disconnect post Kd Hio) eq_refl eq_refl Hsplit)
          as (-> & _ & ->).
        split; [ eexists; reflexivity | exact Hio ]. }
    split.
    { intros _ _.
      rewrite (count_app is_get_connected (_ ++ pre)), Hg1, count_app, Hgr. reflexivity. }
    intros H. destruct (Hret H) as (Hin & body & ->). split.
    + apply in_app_iff. left. apply in_app_iff. right. exact Hin.
    + exists ((((connected conn ++ trl) ++ pre) ++ [Io (GetConnected g)]) ++ body)%list.
      rewrite <- !app_assoc. reflexivity.
Qed.

Lemma snap7_client_cleanup_witness :
  count is_get_connected
        (trace (run_snap7_client 5 example_connection Snap7Client.example_config
                                 (interrupted_plc [10; 20; 30; 40]))) = 2%nat /\
  In (Log INFO "Snap7 client stopped by user (Ctrl+C).")
     (trace (run_snap7_client 5 example_connection Snap7Client.example_config
                              (interrupted_plc [10; 20; 30; 40]))).
Proof.
  destruct (snap7_client_cleanup 5 example_connection Snap7Client.example_config
              (interrupted_plc [10; 20; 30; 40]))
    as (_ & _ & _ & _ & Hleft & Hret).
  split.
  - apply Hleft; [ vm_compute; tauto | vm_compute; discriminate ].
  - apply Hret. vm_compute. reflexivity.
Defined.

Lemma snap7run_last_written_app (initial : Snap7Client.bytearray) (h1 h2 : list event) :
  last_written initial (h1 ++ h2) = last_written (last_written initial h1) h2.
Proof.
  revert initial. induction h1 as [ | e h1 IH]; intros initial; [ reflexivity | ].
  destruct e as [lvl msg | [ | | | db first data [r | u] | | ] | k]; cbn; apply IH.
Qed.

(** The loop against the PLC that remembers, from any history. *)
Lemma snap7run_loop_memory (cfg : Snap7Client.config) (initial : Snap7Client.bytearray)
      (sleeping : list event -> Z -> raised + unit) (n : nat) :
  forall (h : list event) (b : Z),
    last_written initial h !! 1%nat = Some b ->
    0 <= b < 256 ->
    exists tr,
      fst (poll_loop n cfg (plc_memory initial sleeping) h) = (h ++ tr)%list /\
      count is_read tr = count is_write tr /\
      (count is_write tr <= n)%nat /\
      last_written initial (h ++ tr)
        = Snap7Client.set_byte (last_written initial h) 1
                               ((b + Z.of_nat (count is_write tr)) mod 256) /\
      (snd (poll_loop n cfg (plc_memory initial sleeping) h) = inr tt ->
       count is_write tr = n) /\
      (forall x,
          snd (poll_loop n cfg (plc_memory initial sleeping) h) = inl x ->
          exists tr0 r,
            tr = (tr0 ++ [Io (Sleeping (Snap7Client.poll_interval cfg) (inl r))])%list /\
            x = of_raised r) /\
      ((forall h' s, sleeping h' s = inr tt) ->
       snd (poll_loop n cfg (plc_memory initial sleeping) h) = inr tt).
Proof.
  induction n as [ | n IH]; intros h b Hb Hrange.
  - exists []. rewrite app_nil_r. cbn [poll_loop]. unfold ret. cbn [fst snd].
    split; [ reflexivity | ].
    split; [ reflexivity | split; [ reflexivity | ] ].
    split.
    { change (count is_write []) with 0%nat.
      rewrite Z.add_0_r, Z.mod_small by lia.
      unfold Snap7Client.set_byte. symmetry. apply list_insert_id, Hb. }
    split; [ reflexivity | ].
    split; [ intros x H; discriminate H | reflexivity ].
  - cbn [poll_loop]. unfold bind. rewrite snap7run_pass_run. cbn zeta.
    cbn [read_answer write_answer sleep_answer plc_memory]. rewrite Hb.
    set (cur := last_written initial h).
    set (data1 := Snap7Client.set_byte cur 1 ((b + 1) mod 256)).
    set (h4 := (_ ++ [Log INFO (wrote_line cfg b ((b + 1) mod 256))])%list).
    set (sl := sleeping h4 (Snap7Client.poll_interval cfg)).
    set (pass := [Io (DbRead (Snap7Client.db_number cfg) (Snap7Client.start cfg)
                             (Snap7Client.size cfg) (inr cur));
                  Log INFO (read_line cfg cur);
                  Io (DbWrite (Snap7Client.db_number cfg) (Snap7Client.start cfg)
                              data1 (inr tt));
                  Log INFO (wrote_line cfg b ((b + 1) mod 256));
                  Io (Sleeping (Snap7Client.poll_interval cfg) sl)]).
    assert (Hh : (h4 ++ [Io (Sleeping (Snap7Client.poll_interval cfg) sl)] = h ++ pass)%list).
    { unfold h4, pass. rewrite <- !app_assoc. reflexivity. }
    rewrite Hh.
    assert (Hlw : last_written initial (h ++ pass) = data1).
    { rewrite snap7run_last_written_app. reflexivity. }
    assert (Hb1 : last_written initial (h ++ pass) !! 1%nat = Some ((b + 1) mod 256)).
    { rewrite Hlw. unfold data1, Snap7Client.set_byte. apply list_lookup_insert_eq.
      apply lookup_lt_Some in Hb. exact Hb. }
    assert (Hrange1 : 0 <= (b + 1) mod 256 < 256) by (apply Z.mod_pos_bound; lia).
    assert (Hcr : count is_read pass = 1%nat) by reflexivity.
    assert (Hcw : count is_write pass = 1%nat) by reflexivity.
    destruct sl as [r | []] eqn:Esl; cbn [result_of].
    + exists pass. cbn [fst snd].
      split; [ reflexivity | ].
      split; [ rewrite Hcr, Hcw; reflexivity | ].
      split; [ rewrite Hcw; lia | ].
      split; [ rewrite Hlw, Hcw; reflexivity | ].
      split; [ intros H; discriminate H | ].
      split.
      { intros x [= <-]. eexists [_; _; _; _], r. split; reflexivity. }
      intros Hs. unfold sl in Esl. rewrite Hs in Esl. discriminate Esl.
    + destruct (IH (h ++ pass)%list _ Hb1 Hrange1)
        as (tr2 & Hf & Hrw & Hle & Hl & Hok & Hex & Hsl).
      exists (pass ++ tr2)%list.
      split; [ rewrite Hf, app_assoc; reflexivity | ].
      rewrite !count_app, Hcr, Hcw.
      split; [ rewrite Hrw; reflexivity | ].
      split; [ lia | ].
      split.
      { rewrite app_assoc, Hl, Hlw. unfold data1, Snap7Client.set_byte.
        etransitivity; [ apply list_insert_insert_eq | ].
        f_equal. rewrite Z.add_mod_idemp_l by lia. f_equal. lia. }
      split; [ intros H; rewrite (Hok H); reflexivity | ].
      split; [ | exact Hsl ].
      intros x Hx. destruct (Hex x Hx) as (tr0 & r & -> & ->).
      exists (pass ++ tr0)%list, r. rewrite <- app_assoc. split; reflexivity.
Qed.

(** X12. Against a PLC that stores what is written (as the simulated
    server does), with a polled range of at least two bytes, the loop
    of the Siemens client can only be left through [time.sleep].  At
    any point of the run there have been as many reads as writes, at
    most [n] of them after [n] passes, and the range is as it was
    except for byte 1, which has become (old value + number of writes)
    mod 256.  When the [n] passes complete they have made [n] writes;
    otherwise the run ends with the exception that a [time.sleep]
    raised, as its last event.  When no sleep raises the [n] passes
    complete, and after 256 passes the range is back to its initial
    content. *)
Theorem snap7_loop_counts_passes (cfg : Snap7Client.config)
        (initial : Snap7Client.bytearray) (sleeping : list event -> Z -> raised + unit)
        (b : Z) (n : nat) :
  initial !! 1%nat = Some b ->
  0 <= b < 256 ->
  count is_read (trace (poll_loop n cfg (plc_memory initial sleeping)))
    = count is_write (trace (poll_loop n cfg (plc_memory initial sleeping))) /\
  (count is_write (trace (poll_loop n cfg (plc_memory initial sleeping))) <= n)%nat /\
  last_written initial (trace (poll_loop n cfg (plc_memory initial sleeping)))
    = Snap7Client.set_byte initial 1
        ((b + Z.of_nat (count is_write
                              (trace (poll_loop n cfg (plc_memory initial sleeping)))))
           mod 256) /\
  (outcome (poll_loop n cfg (plc_memory initial sleeping)) = inr tt ->
   count is_write (trace (poll_loop n cfg (plc_memory initial sleeping))) = n) /\
  (forall x,
      outcome (poll_loop n cfg (plc_memory initial sleeping)) = inl x ->
      exists tr0 r,
        trace (poll_loop n cfg (plc_memory initial sleeping))
          = (tr0 ++ [Io (Sleeping (Snap7Client.poll_interval cfg) (inl r))])%list /\
        x = of_raised r) /\
  ((forall h s, sleeping h s = inr tt) ->
   outcome (poll_loop n cfg (plc_memory initial sleeping)) = inr tt) /\
  last_written initial (trace (poll_loop 256 cfg (plc_memory initial sound_sleep)))
    = initial.
Proof.
  intros Hb Hrange. unfold outcome, trace.
  destruct (snap7run_loop_memory cfg initial sleeping n [] b Hb Hrange)
    as (tr & Hf & Hrw & Hle & Hl & Hok & Hex & Hsl).
  cbn [app] in Hf, Hl. rewrite Hf.
  split; [ exact Hrw | ].
  split; [ exact Hle | ].
  split; [ exact Hl | ].
  split; [ exact Hok | ].
  split; [ exact Hex | ].
  split; [ exact Hsl | ].
  destruct (snap7run_loop_memory cfg initial sound_sleep 256 [] b Hb Hrange)
    as (tr2 & Hf2 & _ & _ & Hl2 & Hok2 & _ & Hsl2).
  cbn [app] in Hf2, Hl2. rewrite Hf2, Hl2.
  rewrite (Hok2 (Hsl2 (fun _ _ => eq_refl))).
  change (Z.of_nat 256) with (1 * 256). rewrite Z.mod_add, Z.mod_small by lia.
  unfold Snap7Client.set_byte. apply list_insert_id, Hb.
Qed.

Lemma snap7_loop_counts_passes_witness :
  last_written [10; 254; 30; 40]
               (trace (poll_loop 5 Snap7Client.example_config
                                 (plc_memory [10; 254; 30; 40] (interrupted_after 3))))
    = [10; 1; 30; 40] /\
  outcome (poll_loop 5 Snap7Client.example_config
                     (plc_memory [10; 254; 30; 40] (interrupted_after 3)))
    = inl KeyboardInterrupt.
Proof.
  destruct (snap7_loop_counts_passes Snap7Client.example_config [10; 254; 30; 40]
              (interrupted_after 3) 254 5 eq_refl ltac:(lia))
    as (_ & _ & Hl & _ & _ & _ & _).
  split; [ rewrite Hl; vm_compute; reflexivity | vm_compute; reflexivity ].
Defined.

End Snap7RunProperties.

Section ModbusRunFacts.
Import Eff Trace ModbusRun.
Local Open Scope string_scope.

Variable w : world.
Variable cfg : ModbusClient.config.

Lemma modbusrun_bind {A B : Type} (m : prog A) (k : A -> prog B) (h : list event) :
  bind m k h
    = match m h with
      | (h1, inl x) => (h1, inl x)
      | (h1, inr a) => k a h1
      end.
Proof. reflexivity. Qed.

(** One block, event by event. *)
Lemma modbusrun_group_run (g : ModbusClient.group) (h : list event) :
  poll_group w cfg g h = ((h ++ segment w cfg g h)%list, group_outcome w cfg g h).
Proof.
  unfold poll_group, segment, group_outcome. cbn zeta.
  destruct (0 <? ModbusClient.count cfg g)%Z.
  2:{ unfold ret. rewrite app_nil_r. reflexivity. }
  unfold try_except, bind, read, Eff.call, log, emit, block_log.
  destruct (read_answer w h g _ _) as [[ | code | msg | msg] | resp];
    try reflexivity.
  - rewrite <- app_assoc. reflexivity.
  - destruct (ModbusClient.isError resp); rewrite <- app_assoc; reflexivity.
Qed.

Lemma modbusrun_block_log_quiet (p : event -> bool) (g : ModbusClient.group)
      (address cnt : Z) (a : exception + ModbusClient.response) :
  (forall lvl msg, p (Log lvl msg) = false) ->
  count p (block_log g address cnt a) = 0%nat.
Proof.
  intros Hp. unfold block_log.
  destruct a as [[ | code | msg | msg] | resp]; try reflexivity.
  - rewrite count_cons, Hp. reflexivity.
  - destruct (ModbusClient.isError resp); rewrite count_cons, Hp; reflexivity.
Qed.

(** A block neither builds, opens nor closes a client, and does not
    sleep. *)
Lemma modbusrun_segment_quiet (p : event -> bool) (g : ModbusClient.group)
      (h : list event) :
  (forall lvl msg, p (Log lvl msg) = false) ->
  (forall g' a c ans, p (Io (Read g' a c ans)) = false) ->
  count p (segment w cfg g h) = 0%nat.
Proof.
  intros Hlog Hread. unfold segment. cbn zeta.
  destruct (0 <? ModbusClient.count cfg g)%Z; [ | reflexivity ].
  rewrite count_cons, Hread, modbusrun_block_log_quiet by exact Hlog. reflexivity.
Qed.

Lemma modbusrun_segment_reads (g g' : ModbusClient.group) (h : list event) :
  count (is_read_of g) (segment w cfg g' h)
    = if ModbusClient.group_eqb g g' && (0 <? ModbusClient.count cfg g')%Z
      then 1%nat else 0%nat.
Proof.
  unfold segment. cbn zeta.
  destruct (0 <? ModbusClient.count cfg g')%Z.
  - rewrite andb_true_r, count_cons, modbusrun_block_log_quiet by reflexivity.
    cbn [is_read_of]. destruct (ModbusClient.group_eqb g g'); reflexivity.
  - rewrite andb_false_r. reflexivity.
Qed.

(** What a pass appends, whatever the answers: no construction,
    connection or closing, and one sleep when it completes. *)
Lemma modbusrun_pass_events (h : list event) :
  exists tr,
    fst (poll_pass w cfg h) = (h ++ tr)%list /\
    count is_connect tr = 0%nat /\
    count is_close tr = 0%nat /\
    (snd (poll_pass w cfg h) = inr tt -> count is_sleeping tr = 1%nat).
Proof.
  assert (Q : forall (p : event -> bool) g h',
             (forall lvl msg, p (Log lvl msg) = false) ->
             (forall g' a c ans, p (Io (Read g' a c ans)) = false) ->
             count p (segment w cfg g h') = 0%nat).
  { intros p g h'. apply modbusrun_segment_quiet. }
  unfold poll_pass.
  rewrite modbusrun_bind, modbusrun_group_run.
  set (t1 := segment w cfg ModbusClient.Coils h).
  destruct (group_outcome w cfg ModbusClient.Coils h) as [x | []].
  { exists t1. cbn [fst snd]. unfold t1. rewrite !Q by reflexivity.
    repeat split. discriminate. }
  rewrite modbusrun_bind, modbusrun_group_run.
  set (t2 := segment w cfg ModbusClient.Discretes (h ++ t1)%list).
  destruct (group_outcome w cfg ModbusClient.Discretes (h ++ t1)%list) as [x | []].
  { exists (t1 ++ t2)%list. cbn [fst snd]. rewrite app_assoc, !count_app.
    unfold t1, t2. rewrite !Q by reflexivity. repeat split. discriminate. }
  rewrite modbusrun_bind, modbusrun_group_run.
  set (t3 := segment w cfg ModbusClient.HoldingRegisters ((h ++ t1) ++ t2)%list).
  destruct (group_outcome w cfg ModbusClient.HoldingRegisters ((h ++ t1) ++ t2)%list)
    as [x | []].
  { exists (t1 ++ t2 ++ t3)%list. cbn [fst snd]. rewrite !app_assoc, !count_app.
    unfold t1, t2, t3. rewrite !Q by reflexivity. repeat split. discriminate. }
  rewrite modbusrun_bind, modbusrun_group_run.
  set (t4 := segment w cfg ModbusClient.InputRegisters (((h ++ t1) ++ t2) ++ t3)%list).
  destruct (group_outcome w cfg ModbusClient.InputRegisters (((h ++ t1) ++ t2) ++ t3)%list)
    as [x | []].
  { exists (t1 ++ t2 ++ t3 ++ t4)%list. cbn [fst snd]. rewrite !app_assoc, !count_app.
    unfold t1, t2, t3, t4. rewrite !Q by reflexivity. repeat split. discriminate. }
  unfold bind, time_sleep, Eff.call, log, emit. cbn [fst snd].
  eexists (t1 ++ t2 ++ t3 ++ t4 ++ [_; _])%list.
  split; [ rewrite <- !app_assoc; reflexivity | ].
  rewrite !count_app. unfold t1, t2, t3, t4. rewrite !Q by reflexivity.
  repeat split.
Qed.

Lemma modbusrun_loop_events (n : nat) (h : list event) :
  exists tr,
    fst (poll_loop n w cfg h) = (h ++ tr)%list /\
    count is_connect tr = 0%nat /\
    count is_close tr = 0%nat /\
    (snd (poll_loop n w cfg h) = inr tt -> count is_sleeping tr = n).
Proof.
  revert h. induction n as [ | n IH]; intros h.
  - exists []. rewrite app_nil_r. repeat split.
  - cbn [poll_loop]. unfold bind.
    destruct (modbusrun_pass_events h) as (tr1 & Hf & Hc & Hd & Hs).
    destruct (poll_pass w cfg h) as [h1 [x | []]]; cbn [fst snd] in *.
    + exists tr1. repeat split; try assumption. discriminate.
    + subst h1. destruct (IH (h ++ tr1)%list) as (tr2 & Hf2 & Hc2 & Hd2 & Hs2).
      exists (tr1 ++ tr2)%list. rewrite Hf2, app_assoc.
      split; [ reflexivity | ].
      rewrite !count_app, Hc, Hd, Hc2, Hd2.
      split; [ reflexivity | split; [ reflexivity | ] ].
      intros Hok. rewrite (Hs eq_refl), (Hs2 Hok). reflexivity.
Qed.

Lemma modbusrun_polling_run (n : nat) (h : list event) :
  polling n w cfg h
    = match poll_loop n w cfg h with
      | (h1, inr _) => (h1, inr Running)
      | (h1, inl x) => ((h1 ++ leaving w x h1)%list, leaving_outcome w x h1)
      end.
Proof.
  unfold polling, leaving, leaving_outcome.
  destruct (poll_loop n w cfg h) as [h1 [x | []]]; [ | reflexivity ].
  unfold bind, close, Eff.call, log, emit, raise, ret.
  destruct x as [ | code | msg | msg]; cbn [is_interrupt app];
    rewrite ?app_nil_r;
    destruct (close_answer w _) as [y | []];
      rewrite <- ?app_assoc; reflexivity.
Qed.

(** The function up to its loop, event by event. *)
Lemma modbusrun_run (n : nat) (s : session) (h : list event) :
  run_modbus_client n s cfg w h
    = match chosen s with
      | None =>
          ((h ++ [Log ERROR ("Unknown client type: " ++ client_type s)])%list,
           inl (SystemExit 1))
      | Some (line, client) =>
          let h1 := (h ++ [Log INFO line])%list in
          let k := construct_answer w h1 client in
          let h2 := (h1 ++ [Io (Construct client k)])%list in
          match k with
          | inl e => (h2, inl e)
          | inr _ =>
              let c := connect_answer w h2 client in
              let h3 := (h2 ++ [Io (Connect client c)])%list in
              match c with
              | inl e => (h3, inl e)
              | inr false =>
                  ((h3 ++ [Log ERROR "Failed to connect to the Modbus server."])%list,
                   inl (SystemExit 1))
              | inr true => polling n w cfg (h ++ connected line client cfg)%list
              end
          end
      end.
Proof.
  unfold run_modbus_client, make_client, chosen.
  destruct (client_type s =? "tcp")%string;
    [ | destruct (client_type s =? "serial")%string ];
    unfold bind, construct, connect, Eff.call, log, emit, raise, ret, connected; cbn zeta;
    try reflexivity;
    (destruct (construct_answer w _ _) as [e | []]; [ reflexivity | ];
     destruct (connect_answer w _ _) as [e | [ | ]]; cbn [negb];
     [ reflexivity | rewrite <- !app_assoc; reflexivity | reflexivity ]).
Qed.

(** *** A pass in which every failed read is one the loop handles *)

Hypothesis all_handled : forall h g a c, handled (read_answer w h g a c) = true.

Lemma modbusrun_group_handled (g : ModbusClient.group) (h : list event) :
  group_outcome w cfg g h = inr tt.
Proof.
  unfold group_outcome. cbn zeta.
  destruct (0 <? ModbusClient.count cfg g)%Z; [ | reflexivity ].
  pose proof (all_handled h g (ModbusClient.start_address cfg g)
                          (ModbusClient.count cfg g)) as H.
  destruct (read_answer w h g _ _) as [[ | code | msg | msg] | resp];
    try reflexivity; discriminate H.
Qed.

(** The pass runs its four blocks and reaches [time.sleep]; it ends as
    the sleep does. *)
Lemma modbusrun_pass_handled (h : list event) :
  poll_pass w cfg h
    = let tr := blocks w cfg h in
      let ans := sleep_answer w ((h ++ tr) ++ [Log INFO (sleeping_line cfg)])%list
                              (ModbusClient.poll_interval cfg) in
      ((h ++ tr ++ [Log INFO (sleeping_line cfg);
                    Io (Sleeping (ModbusClient.poll_interval cfg) ans)])%list,
       ans).
Proof.
  unfold poll_pass, blocks, before. cbn zeta.
  rewrite modbusrun_bind, modbusrun_group_run, modbusrun_group_handled.
  rewrite modbusrun_bind, modbusrun_group_run, modbusrun_group_handled.
  rewrite modbusrun_bind, modbusrun_group_run, modbusrun_group_handled.
  rewrite modbusrun_bind, modbusrun_group_run, modbusrun_group_handled.
  unfold bind, time_sleep, Eff.call, log, emit, sleeping_line.
  rewrite <- !app_assoc. reflexivity.
Qed.

Lemma modbusrun_blocks_reads (g : ModbusClient.group) (h : list event) :
  count (is_read_of g) (blocks w cfg h)
    = if (0 <? ModbusClient.count cfg g)%Z then 1%nat else 0%nat.
Proof.
  unfold blocks, before. cbn zeta.
  rewrite !count_app, !modbusrun_segment_reads.
  destruct g; cbn [ModbusClient.group_eqb andb];
    destruct (0 <? ModbusClient.count cfg _)%Z; reflexivity.
Qed.

Lemma modbusrun_recorded_app (l1 l2 : list event) :
  recorded l1 -> recorded l2 -> recorded (l1 ++ l2).
Proof.
  intros H1 H2 g a c ans Hin e He. apply in_app_iff.
  apply in_app_iff in Hin as [Hin | Hin].
  - left. exact (H1 _ _ _ _ Hin e He).
  - right. exact (H2 _ _ _ _ Hin e He).
Qed.

Lemma modbusrun_recorded_segment (g : ModbusClient.group) (h : list event) :
  recorded (segment w cfg g h).
Proof.
  intros g' a c ans Hin e He. unfold segment in *. cbn zeta in *.
  destruct (0 <? ModbusClient.count cfg g)%Z; [ | destruct Hin ].
  destruct Hin as [Heq | Hin].
  - injection Heq as <- <- <- <-. right. exact He.
  - exfalso. revert Hin. clear. unfold block_log.
    destruct (read_answer w h g _ _) as [[ | code | msg | msg] | resp]; simpl;
      [ | | | | destruct (ModbusClient.isError resp); simpl ]; intuition discriminate.
Qed.

Lemma modbusrun_recorded_blocks (h : list event) : recorded (blocks w cfg h).
Proof.
  unfold blocks, before. cbn zeta.
  repeat apply modbusrun_recorded_app; apply modbusrun_recorded_segment.
Qed.

Lemma modbusrun_segment_errors (g : ModbusClient.group) (h : list event) :
  count is_error_record (segment w cfg g h) = count is_failed_read (segment w cfg g h).
Proof.
  unfold segment. cbn zeta.
  destruct (0 <? ModbusClient.count cfg g)%Z; [ | reflexivity ].
  pose proof (all_handled h g (ModbusClient.start_address cfg g)
                          (ModbusClient.count cfg g)) as H.
  unfold block_log.
  destruct (read_answer w h g _ _) as [[ | code | msg | msg] | resp];
    try discriminate H; try reflexivity.
  destruct (ModbusClient.isError resp) eqn:E; unfold count; cbn; rewrite E; reflexivity.
Qed.

Lemma modbusrun_blocks_errors (h : list event) :
  count is_error_record (blocks w cfg h) = count is_failed_read (blocks w cfg h).
Proof.
  unfold blocks, before. cbn zeta.
  rewrite !count_app, !modbusrun_segment_errors. reflexivity.
Qed.

End ModbusRunFacts.

Section ModbusRunProperties.
Import Eff Trace ModbusRun.
Local Open Scope string_scope.

(** X24. [run_modbus_client] can end before its loop in four ways.  A
    client type other than [tcp] and [serial]: one ERROR record and
    [sys.exit(1)], no client is built and no connection attempted.  A
    constructor that raises: the exception leaves the function after
    the [Connecting ...] record, before any [connect()].  A [connect()]
    that returns [False]: one ERROR record and [sys.exit(1)], nothing
    is read and the client is not closed.  A [connect()] that raises:
    the exception is not caught and leaves the function without a
    record. *)
Theorem modbus_client_startup_failure (n : nat) (s : session)
        (cfg : ModbusClient.config) (w : world) (h : list event) :
  (client_type s <> "tcp" -> client_type s <> "serial" ->
   run_modbus_client n s cfg w h
     = ((h ++ [Log ERROR ("Unknown client type: " ++ client_type s)])%list,
        inl (SystemExit 1))) /\
  (forall line client e,
      chosen s = Some (line, client) ->
      construct_answer w (h ++ [Log INFO line])%list client = inl e ->
      run_modbus_client n s cfg w h
        = ((h ++ [Log INFO line; Io (Construct client (inl e))])%list, inl e)) /\
  (forall line client,
      chosen s = Some (line, client) ->
      construct_answer w (h ++ [Log INFO line])%list client = inr tt ->
      connect_answer w (h ++ [Log INFO line; Io (Construct client (inr tt))])%list client
        = inr false ->
      run_modbus_client n s cfg w h
        = ((h ++ [Log INFO line;
                  Io (Construct client (inr tt));
                  Io (Connect client (inr false));
                  Log ERROR "Failed to connect to the Modbus server."])%list,
           inl (SystemExit 1))) /\
  (forall line client e,
      chosen s = Some (line, client) ->
      construct_answer w (h ++ [Log INFO line])%list client = inr tt ->
      connect_answer w (h ++ [Log INFO line; Io (Construct client (inr tt))])%list client
        = inl e ->
      run_modbus_client n s cfg w h
        = ((h ++ [Log INFO line;
                  Io (Construct client (inr tt));
                  Io (Connect client (inl e))])%list, inl e)).
Proof.
  split; [ | split; [ | split ] ].
  - intros Htcp Hserial. rewrite modbusrun_run. unfold chosen.
    destruct (String.eqb_spec (client_type s) "tcp") as [E | _]; [ contradiction | ].
    destruct (String.eqb_spec (client_type s) "serial") as [E | _]; [ contradiction | ].
    reflexivity.
  - intros line client e Hch Hk. rewrite modbusrun_run, Hch. cbn zeta. rewrite Hk.
    rewrite <- !app_assoc. reflexivity.
  - intros line client Hch Hk Hc. rewrite modbusrun_run, Hch. cbn zeta. rewrite Hk.
    rewrite <- (app_assoc h). cbn [app]. rewrite Hc.
    rewrite <- !app_assoc. reflexivity.
  - intros line client e Hch Hk Hc. rewrite modbusrun_run, Hch. cbn zeta. rewrite Hk.
    rewrite <- (app_assoc h). cbn [app]. rewrite Hc.
    rewrite <- !app_assoc. reflexivity.
Qed.

Lemma modbus_client_startup_failure_witness :
  run_modbus_client 3 udp_session ModbusClient.example_config interrupted_world []
    = ([Log ERROR "Unknown client type: udp"], inl (SystemExit 1)) /\
  fst (run_modbus_client 3 serial_session ModbusClient.example_config pymodbus3_world [])
    = [Log INFO "Connecting Serial Client to /dev/ttyUSB1 at 9600 baud";
       Io (Construct (Serial "/dev/ttyUSB1" 9600)
                     (construct_answer pymodbus3_world [] (Serial "/dev/ttyUSB1" 9600)))] /\
  run_modbus_client 3 tcp_session ModbusClient.example_config refusing_world []
    = ([Log INFO "Connecting TCP Client to 127.0.0.1:5020";
        Io (Construct (Tcp "127.0.0.1" 5020) (inr tt));
        Io (Connect (Tcp "127.0.0.1" 5020) (inr false));
        Log ERROR "Failed to connect to the Modbus server."],
       inl (SystemExit 1)).
Proof.
  split; [ | split ].
  - apply (proj1 (modbus_client_startup_failure 3 udp_session ModbusClient.example_config
                    interrupted_world [])); discriminate.
  - rewrite (proj1 (proj2 (modbus_client_startup_failure 3 serial_session
                             ModbusClient.example_config pymodbus3_world []))
               "Connecting Serial Client to /dev/ttyUSB1 at 9600 baud"
               (Serial "/dev/ttyUSB1" 9600) _ eq_refl eq_refl).
    reflexivity.
  - apply (proj1 (proj2 (proj2 (modbus_client_startup_failure 3 tcp_session
                                  ModbusClient.example_config refusing_world [])))
             "Connecting TCP Client to 127.0.0.1:5020" (Tcp "127.0.0.1" 5020));
      reflexivity.
Defined.

Lemma modbusrun_leaving_shape (w : world) (x : exception) (h1 : list event) :
  exists pre ans post,
    leaving w x h1 = (pre ++ Io (Close ans) :: post)%list /\
    count is_io pre = 0%nat /\ count is_io post = 0%nat /\
    leaving_outcome w x h1 <> inr Running /\
    (leaving_outcome w x h1 = inr Returned ->
     In (Log INFO "Received Ctrl+C, shutting down client polling loop...") pre /\
     ans = inr tt /\
     post = [Log INFO "Client connection closed."]).
Proof.
  unfold leaving, leaving_outcome.
  destruct (is_interrupt x); destruct (close_answer w _) as [y | []];
    eexists _, _, _; (split; [ reflexivity | ]);
    (split; [ reflexivity | split; [ reflexivity | split; [ discriminate | ] ] ]);
    try discriminate; intros _;
    (split; [ left; reflexivity | split; reflexivity ]).
Qed.

Lemma modbusrun_kinds :
  (forall e, is_connect e = true -> is_io e = true) /\
  (forall e, is_close e = true -> is_io e = true).
Proof. split; intros [lvl msg | c | k]; cbn; congruence. Qed.

(** The three ways a run of [run_modbus_client] can look. *)
Lemma modbusrun_shape (n : nat) (s : session) (cfg : ModbusClient.config) (w : world) :
  (exists tr x,
      run_modbus_client n s cfg w [] = (tr, inl x)
      /\ (count is_connect tr <= 1)%nat
      /\ count is_close tr = 0%nat
      /\ forall client, ~ In (Io (Connect client (inr true))) tr)
  \/ (exists line client trl,
         run_modbus_client n s cfg w []
           = ((connected line client cfg ++ trl)%list, inr Running)
         /\ count is_connect trl = 0%nat
         /\ count is_close trl = 0%nat
         /\ count is_sleeping trl = n)
  \/ (exists line client trl pre ans post out,
         run_modbus_client n s cfg w []
           = ((connected line client cfg ++ trl ++ pre ++ Io (Close ans) :: post)%list, out)
         /\ count is_connect trl = 0%nat
         /\ count is_close trl = 0%nat
         /\ count is_io pre = 0%nat
         /\ count is_io post = 0%nat
         /\ out <> inr Running
         /\ (out = inr Returned ->
             In (Log INFO "Received Ctrl+C, shutting down client polling loop...") pre /\
             ans = inr tt /\
             post = [Log INFO "Client connection closed."])).
Proof.
  rewrite modbusrun_run.
  destruct (chosen s) as [[line client] | ].
  2:{ left. eexists _, _. split; [ reflexivity | ].
      split; [ cbn; lia | split; [ reflexivity | ] ].
      intros client [H | []]. discriminate H. }
  cbn zeta. cbn [app].
  destruct (construct_answer w _ client) as [e | []].
  { left. eexists _, _. split; [ reflexivity | ].
    split; [ cbn; lia | split; [ reflexivity | ] ].
    intros c [H | [H | []]]; discriminate H. }
  destruct (connect_answer w _ client) as [e | [ | ]].
  { left. eexists _, _. split; [ reflexivity | ].
    split; [ cbn; lia | split; [ reflexivity | ] ].
    intros c [H | [H | [H | []]]]; discriminate H. }
  2:{ left. eexists _, _. split; [ reflexivity | ].
      split; [ cbn; lia | split; [ reflexivity | ] ].
      intros c [H | [H | [H | [H | []]]]]; discriminate H. }
  right. rewrite modbusrun_polling_run.
  destruct (modbusrun_loop_events w cfg n (connected line client cfg))
    as (trl & Hf & Hc & Hd & Hs).
  destruct (poll_loop n w cfg (connected line client cfg)) as [h1 [x | []]];
    cbn [fst snd] in *; subst h1.
  - right. destruct (modbusrun_leaving_shape w x (connected line client cfg ++ trl)%list)
      as (pre & ans & post & -> & Hpre & Hpost & Hrun & Hret).
    exists line, client, trl, pre, ans, post,
      (leaving_outcome w x (connected line client cfg ++ trl)%list).
    rewrite <- app_assoc. repeat split; try assumption; apply Hret; assumption.
  - left. exists line, client, trl. repeat split; try assumption. apply Hs. reflexivity.
Qed.

Lemma modbusrun_connected_counts (line : string) (client : transport)
      (cfg : ModbusClient.config) :
  count is_connect (connected line client cfg) = 1%nat /\
  count is_close (connected line client cfg) = 0%nat /\
  count is_sleeping (connected line client cfg) = 0%nat.
Proof. repeat split. Qed.

(** X25. [run_modbus_client] calls [connect()] at most once and
    [close()] at most once.  While the loop is going the client has not
    been closed, and [n] completed passes have slept [n] times.  Once
    [connect()] has returned [True] and the loop is left, by [Ctrl+C]
    or by an exception the loop does not catch, [close()] is called
    exactly once, after the connection and as the last call of the run.
    The function returns normally only after [Ctrl+C], and then its
    last record is [Client connection closed.]. *)
Theorem modbus_client_closes_once (n : nat) (s : session) (cfg : ModbusClient.config)
        (w : world) :
  (count is_connect (trace (run_modbus_client n s cfg w)) <= 1)%nat /\
  (count is_close (trace (run_modbus_client n s cfg w)) <= 1)%nat /\
  (outcome (run_modbus_client n s cfg w) = inr Running ->
   count is_close (trace (run_modbus_client n s cfg w)) = 0%nat /\
   count is_sleeping (trace (run_modbus_client n s cfg w)) = n) /\
  (forall client,
      In (Io (Connect client (inr true))) (trace (run_modbus_client n s cfg w)) ->
      outcome (run_modbus_client n s cfg w) <> inr Running ->
      count is_close (trace (run_modbus_client n s cfg w)) = 1%nat) /\
  (forall tr1 ans tl,
      trace (run_modbus_client n s cfg w) = (tr1 ++ Io (Close ans) :: tl)%list ->
      count is_io tl = 0%nat /\ count is_connect tr1 = 1%nat) /\
  (outcome (run_modbus_client n s cfg w) = inr Returned ->
   In (Log INFO "Received Ctrl+C, shutting down client polling loop...")
      (trace (run_modbus_client n s cfg w)) /\
   exists body,
     trace (run_modbus_client n s cfg w)
       = (body ++ [Io (Close (inr tt)); Log INFO "Client connection closed."])%list).
Proof.
  unfold trace, outcome.
  destruct modbusrun_kinds as (Kc & Kd).
  destruct (modbusrun_shape n s cfg w)
    as [(tr & x & -> & Hc & Hd & Hnin)
       | [(line & client & trl & -> & Hc & Hd & Hs)
         | (line & client & trl & pre & ans & post & out & ->
            & Hc & Hd & Hpre & Hpost & Hrun & Hret)]];
    cbn [fst snd].
  - split; [ exact Hc | ].
    split; [ rewrite Hd; lia | ].
    split; [ discriminate | ].
    split; [ intros c H; destruct (Hnin c H) | ].
    split; [ | discriminate ].
    intros tr1 ans tl H. exfalso.
    pose proof (count_hit is_close tr1 tl (Io (Close ans)) eq_refl) as H1.
    rewrite <- H, Hd in H1. lia.
  - destruct (modbusrun_connected_counts line client cfg) as (Hc0 & Hd0 & Hs0).
    split; [ rewrite count_app, Hc, Hc0; lia | ].
    split; [ rewrite count_app, Hd, Hd0; lia | ].
    split; [ intros _; rewrite !count_app, Hd, Hs, Hd0, Hs0; split; reflexivity | ].
    split; [ intros c _ H; congruence | ].
    split; [ | discriminate ].
    intros tr1 ans tl H. exfalso.
    pose proof (count_hit is_close tr1 tl (Io (Close ans)) eq_refl) as H1.
    rewrite <- H, count_app, Hd, Hd0 in H1. lia.
  - destruct (modbusrun_connected_counts line client cfg) as (Hc0 & Hd0 & Hs0).
    pose proof (count_no_io is_connect pre Kc Hpre) as Hcpre.
    pose proof (count_no_io is_close pre Kd Hpre) as Hdpre.
    pose proof (count_no_io is_connect post Kc Hpost) as Hcpost.
    pose proof (count_no_io is_close post Kd Hpost) as Hdpost.
    assert (Hbefore : count is_close ((connected line client cfg ++ trl) ++ pre) = 0%nat).
    { rewrite !count_app, Hd, Hdpre, Hd0. reflexivity. }
    assert (Hconn : count is_connect ((connected line client cfg ++ trl) ++ pre) = 1%nat).
    { rewrite !count_app, Hc, Hcpre, Hc0. reflexivity. }
    assert (Hre : (connected line client cfg ++ trl ++ pre ++ Io (Close ans) :: post
                   = ((connected line client cfg ++ trl) ++ pre)
                       ++ [Io (Close ans)] ++ post)%list).
    { rewrite <- !app_assoc. reflexivity. }
    rewrite Hre.
    assert (Hclose : count is_close
                       (((connected line client cfg ++ trl) ++ pre)
                          ++ [Io (Close ans)] ++ post) = 1%nat).
    { rewrite (count_app is_close (_ ++ pre)), Hbefore, count_app, Hdpost. reflexivity. }
    split.
    { rewrite (count_app is_connect (_ ++ pre)), Hconn, count_app, Hcpost.
      change (count is_connect [Io (Close ans)]) with 0%nat. lia. }
    split; [ rewrite Hclose; lia | ].
    split; [ intros H; contradiction | ].
    split; [ intros c _ _; exact Hclose | ].
    split.
    { intros tr1 ans' tl H.
      destruct (count_split_unique is_close ((connected line client cfg ++ trl) ++ pre)
                  post tr1 tl (Io (Close ans)) (Io (Close ans'))
                  Hbefore Hdpost eq_refl eq_refl H) as (-> & _ & ->).
      split; [ exact Hpost | exact Hconn ]. }
    intros H. destruct (Hret H) as (Hin & -> & ->). split.
    + apply in_app_iff. left. apply in_app_iff. right. exact Hin.
    + exists ((connected line client cfg ++ trl) ++ pre)%list. reflexivity.
Qed.

Lemma modbus_client_closes_once_witness :
  count is_close (trace (run_modbus_client 5 tcp_session ModbusClient.example_config
                                           interrupted_world)) = 1%nat /\
  In (Log INFO "Received Ctrl+C, shutting down client polling loop...")
     (trace (run_modbus_client 5 tcp_session ModbusClient.example_config
                               interrupted_world)).
Proof.
  destruct (modbus_client_closes_once 5 tcp_session ModbusClient.example_config
              interrupted_world)
    as (_ & _ & _ & Hleft & _ & Hret).
  split.
  - apply (Hleft (Tcp "127.0.0.1" 5020)); [ vm_compute; tauto | vm_compute; discriminate ].
  - apply Hret. vm_compute. reflexivity.
Defined.

(** C4, as the code has it.  In a pass of the Modbus polling loop,
    started after any history [h], a failed read that is an error
    response or a [ModbusIOException] is recorded for its group only:
    when every failed read is of these two shapes, the four blocks
    append a trace [tr] in which every group with a positive count is
    read exactly once, whatever happened to the groups before it; each
    read has its own record in the log: the values at level INFO for a
    success, [Error reading ...] at level ERROR for an error response,
    [Modbus IOException (...)] at level ERROR for the exception; and
    there are exactly as many ERROR records as failed reads.  No block
    raises: the pass reaches [time.sleep] and ends as that call does. *)
Theorem poll_pass_isolates_handled_failures (w : world) (cfg : ModbusClient.config)
        (h : list event) :
  (forall h' g a c, handled (read_answer w h' g a c) = true) ->
  exists tr ans,
    poll_pass w cfg h
      = ((h ++ tr ++ [Log INFO (sleeping_line cfg);
                      Io (Sleeping (ModbusClient.poll_interval cfg) ans)])%list,
         ans) /\
    (forall g, (0 < ModbusClient.count cfg g)%Z -> count (is_read_of g) tr = 1%nat) /\
    (forall g a c resp,
        In (Io (Read g a c (inr resp))) tr ->
        ModbusClient.isError resp = false ->
        In (Log INFO (ModbusClient.values_line g a c resp)) tr) /\
    (forall g a c resp,
        In (Io (Read g a c (inr resp))) tr ->
        ModbusClient.isError resp = true ->
        In (Log ERROR (ModbusClient.error_line g resp)) tr) /\
    (forall g a c msg,
        In (Io (Read g a c (inl (ModbusIOException msg)))) tr ->
        In (Log ERROR (ModbusClient.exception_line g msg)) tr) /\
    count is_error_record tr = count is_failed_read tr.
Proof.
  intros Hh.
  pose proof (modbusrun_recorded_blocks w cfg h) as Hrec.
  eexists (blocks w cfg h), _.
  split; [ rewrite (modbusrun_pass_handled w cfg Hh h); reflexivity | ].
  split; [ | split; [ | split; [ | split ] ] ].
  - intros g Hc. apply Z.ltb_lt in Hc. rewrite modbusrun_blocks_reads, Hc. reflexivity.
  - intros g a c resp Hin He. apply (Hrec _ _ _ _ Hin).
    simpl. rewrite He. left. reflexivity.
  - intros g a c resp Hin He. apply (Hrec _ _ _ _ Hin).
    simpl. rewrite He. left. reflexivity.
  - intros g a c msg Hin. apply (Hrec _ _ _ _ Hin). left. reflexivity.
  - apply modbusrun_blocks_errors, Hh.
Qed.

Lemma poll_pass_isolates_handled_failures_witness :
  exists tr ans,
    poll_pass faulty_world ModbusClient.example_config []
      = ((tr ++ [Log INFO (sleeping_line ModbusClient.example_config);
                 Io (Sleeping 5 ans)])%list, ans) /\
    count (is_read_of ModbusClient.Discretes) tr = 1%nat /\
    count (is_read_of ModbusClient.InputRegisters) tr = 1%nat /\
    In (Log ERROR (ModbusClient.exception_line ModbusClient.Coils "No response received"))
       tr /\
    count is_error_record tr = 2%nat.
Proof.
  assert (H : forall h g a c, handled (read_answer faulty_world h g a c) = true)
    by (intros h g a c; destruct g; reflexivity).
  destruct (poll_pass_isolates_handled_failures faulty_world ModbusClient.example_config
              [] H) as (tr & ans & Hrun & Hread & _ & _ & Hex & Herr).
  exists tr, ans. cbn [app] in Hrun.
  assert (Hans : ans = inr tt).
  { pose proof (f_equal snd Hrun) as E. cbn [snd] in E. rewrite <- E.
    vm_compute. reflexivity. }
  assert (Htr : tr = blocks faulty_world ModbusClient.example_config []).
  { pose proof (f_equal fst Hrun) as E. cbn [fst] in E.
    rewrite (modbusrun_pass_handled faulty_world ModbusClient.example_config H []) in E.
    cbn zeta in E. cbn [fst app] in E. rewrite Hans in E.
    change (sleep_answer faulty_world ?a ?b) with (@inr exception unit tt) in E.
    apply app_inv_tail in E. symmetry. exact E. }
  split; [ exact Hrun | ].
  split; [ apply Hread; reflexivity | ].
  split; [ apply Hread; reflexivity | ].
  split.
  - apply (Hex ModbusClient.Coils 0 10). rewrite Htr. vm_compute. tauto.
  - rewrite Herr, Htr. vm_compute. reflexivity.
Defined.

(** C4, as stated, fails: a transport exception of a class other than
    [ModbusIOException] is not caught by the loop.  With a server that
    has gone away the coils read raises pymodbus's
    [ConnectionException]: the pass ends there with that exception, no
    record is written, and the three other groups, which would have
    answered, are not read. *)
Lemma uncaught_exception_aborts_cycle :
  poll_pass disconnected_world ModbusClient.example_config []
    = ([Io (Read ModbusClient.Coils 0 10
                 (inl (OtherException "Modbus Error: [Connection] Failed to connect")))],
       inl (OtherException "Modbus Error: [Connection] Failed to connect")) /\
  count (is_read_of ModbusClient.Discretes)
        (trace (poll_pass disconnected_world ModbusClient.example_config)) = 0%nat /\
  count (is_read_of ModbusClient.HoldingRegisters)
        (trace (poll_pass disconnected_world ModbusClient.example_config)) = 0%nat /\
  count (is_read_of ModbusClient.InputRegisters)
        (trace (poll_pass disconnected_world ModbusClient.example_config)) = 0%nat /\
  count is_error_record
        (trace (poll_pass disconnected_world ModbusClient.example_config)) = 0%nat /\
  (forall h g a c,
      g <> ModbusClient.Coils ->
      exists resp, read_answer disconnected_world h g a c = inr resp
                   /\ ModbusClient.isError resp = false).
Proof.
  repeat split.
  intros h g a c Hg. destruct g; [ contradiction | | | ]; eexists; split; reflexivity.
Qed.

Lemma modbusrun_loop_handled (w : world) (cfg : ModbusClient.config) (n : nat)
      (h : list event) :
  (forall h' g a c, handled (read_answer w h' g a c) = true) ->
  exists tr,
    fst (poll_loop n w cfg h) = (h ++ tr)%list /\
    (snd (poll_loop n w cfg h) = inr tt ->
     count is_sleeping tr = n /\
     forall g, count (is_read_of g) tr
               = if (0 <? ModbusClient.count cfg g)%Z then n else 0%nat) /\
    (forall x, snd (poll_loop n w cfg h) = inl x ->
               exists tr0,
                 tr = (tr0 ++ [Io (Sleeping (ModbusClient.poll_interval cfg)
                                            (inl x))])%list) /\
    ((forall h' s, sleep_answer w h' s = inr tt) ->
     snd (poll_loop n w cfg h) = inr tt) /\
    (forall g, (0 <? ModbusClient.count cfg g)%Z = false ->
               count (is_read_of g) tr = 0%nat).
Proof.
  intros Hh. revert h. induction n as [ | n IH]; intros h.
  - exists []. rewrite app_nil_r. cbn [poll_loop]. unfold ret. cbn [fst snd].
    split; [ reflexivity | ].
    split.
    { intros _. split; [ reflexivity | ].
      intros g. destruct (0 <? ModbusClient.count cfg g)%Z; reflexivity. }
    split; [ intros x H; discriminate H | ].
    split; [ reflexivity | reflexivity ].
  - cbn [poll_loop]. rewrite modbusrun_bind, (modbusrun_pass_handled w cfg Hh h).
    cbn zeta.
    set (tb := blocks w cfg h).
    set (ans := sleep_answer w _ _).
    assert (Hsl : count is_sleeping tb = 0%nat).
    { unfold tb, blocks, before. cbn zeta.
      rewrite !count_app, !(modbusrun_segment_quiet w cfg is_sleeping) by reflexivity.
      reflexivity. }
    destruct ans as [x | []] eqn:Eans.
    + eexists. cbn [fst snd]. split; [ reflexivity | ].
      split; [ intros H; discriminate H | ].
      split.
      { intros y [= <-]. exists (tb ++ [Log INFO (sleeping_line cfg)])%list.
        rewrite <- app_assoc. reflexivity. }
      split.
      { intros Hs. exfalso. unfold ans in Eans. rewrite Hs in Eans. discriminate Eans. }
      intros g Hg. rewrite count_app. unfold tb.
      rewrite (modbusrun_blocks_reads w cfg g h), Hg. reflexivity.
    + destruct (IH (h ++ tb ++ [Log INFO (sleeping_line cfg);
                                Io (Sleeping (ModbusClient.poll_interval cfg) (inr tt))])%list)
        as (tr2 & Hf2 & Hok2 & Hex2 & Hsl2 & Hz2).
      exists ((tb ++ [Log INFO (sleeping_line cfg);
                      Io (Sleeping (ModbusClient.poll_interval cfg) (inr tt))]) ++ tr2)%list.
      split; [ rewrite Hf2, <- !app_assoc; reflexivity | ].
      split.
      { intros Hok. destruct (Hok2 Hok) as [Hs Hr]. split.
        - rewrite !count_app, Hsl, Hs. reflexivity.
        - intros g. rewrite !count_app, Hr. unfold tb.
          rewrite (modbusrun_blocks_reads w cfg g h).
          destruct (0 <? ModbusClient.count cfg g)%Z; reflexivity. }
      split.
      { intros x Hx. destruct (Hex2 x Hx) as [tr0 ->].
        eexists. rewrite app_assoc. reflexivity. }
      split; [ exact Hsl2 | ].
      intros g Hg. rewrite !count_app, (Hz2 g Hg). unfold tb.
      rewrite (modbusrun_blocks_reads w cfg g h), Hg. reflexivity.
Qed.

(** X13. Failed reads the loop handles never stop the Modbus polling
    loop.  When every failed read is an error response or a
    [ModbusIOException], the loop can only be left through
    [time.sleep]: either the first [n] passes all complete, and then
    they have slept [n] times and read every group with a positive
    count exactly [n] times; or the run ends with the exception that a
    [time.sleep] raised, as its last event.  When no sleep raises, the
    [n] passes complete.  A group whose count is zero or negative is
    never read. *)
Theorem modbus_loop_keeps_polling (w : world) (cfg : ModbusClient.config) (n : nat)
        (h : list event) :
  (forall h' g a c, handled (read_answer w h' g a c) = true) ->
  exists tr,
    fst (poll_loop n w cfg h) = (h ++ tr)%list /\
    (snd (poll_loop n w cfg h) = inr tt ->
     count is_sleeping tr = n /\
     forall g, (0 < ModbusClient.count cfg g)%Z -> count (is_read_of g) tr = n) /\
    (forall x, snd (poll_loop n w cfg h) = inl x ->
               exists tr0,
                 tr = (tr0 ++ [Io (Sleeping (ModbusClient.poll_interval cfg)
                                            (inl x))])%list) /\
    ((forall h' s, sleep_answer w h' s = inr tt) ->
     snd (poll_loop n w cfg h) = inr tt) /\
    (forall g, (ModbusClient.count cfg g <= 0)%Z -> count (is_read_of g) tr = 0%nat).
Proof.
  intros Hh.
  destruct (modbusrun_loop_handled w cfg n h Hh) as (tr & Hf & Hok & Hex & Hsl & Hz).
  exists tr. split; [ exact Hf | ].
  split.
  { intros H. destruct (Hok H) as [Hs Hr]. split; [ exact Hs | ].
    intros g Hg. apply Z.ltb_lt in Hg. rewrite Hr, Hg. reflexivity. }
  split; [ exact Hex | ].
  split; [ exact Hsl | ].
  intros g Hg. apply Hz. apply Z.ltb_ge. exact Hg.
Qed.

Lemma modbus_loop_keeps_polling_witness :
  snd (poll_loop 3 faulty_world ModbusClient.example_config []) = inr tt /\
  count (is_read_of ModbusClient.Coils)
        (fst (poll_loop 3 faulty_world ModbusClient.example_config [])) = 3%nat.
Proof.
  assert (H : forall h g a c, handled (read_answer faulty_world h g a c) = true)
    by (intros h g a c; destruct g; reflexivity).
  destruct (modbus_loop_keeps_polling faulty_world ModbusClient.example_config 3 [] H)
    as (tr & Hf & Hok & _ & Hsl & _).
  assert (Hout : snd (poll_loop 3 faulty_world ModbusClient.example_config []) = inr tt)
    by (apply Hsl; reflexivity).
  split; [ exact Hout | ].
  rewrite Hf. cbn [app]. apply (proj2 (Hok Hout)). reflexivity.
Defined.

(** X14. A read that raises an exception the loop does not catch ends
    the pass there.  When the blocks before the one of group [g] have
    not raised and the read of [g] raises an exception [x] of a class
    other than [ModbusIOException], the pass ends with [x] and that
    read is its last event: no record follows, the later groups are not
    read and the pass does not sleep. *)
Theorem modbus_pass_uncaught (w : world) (cfg : ModbusClient.config)
        (g : ModbusClient.group) (h : list event) (x : exception) :
  (0 < ModbusClient.count cfg g)%Z ->
  (forall g', (position g' < position g)%nat ->
              group_outcome w cfg g' (h ++ before w cfg g' h)%list = inr tt) ->
  read_answer w (h ++ before w cfg g h)%list g
              (ModbusClient.start_address cfg g) (ModbusClient.count cfg g) = inl x ->
  (forall msg, x <> ModbusIOException msg) ->
  poll_pass w cfg h
    = ((h ++ before w cfg g h
          ++ [Io (Read g (ModbusClient.start_address cfg g) (ModbusClient.count cfg g)
                       (inl x))])%list,
       inl x).
Proof.
  intros Hc Hbefore Hx Hclass. apply Z.ltb_lt in Hc.
  assert (Hseg : segment w cfg g (h ++ before w cfg g h)%list
                 = [Io (Read g (ModbusClient.start_address cfg g)
                             (ModbusClient.count cfg g) (inl x))]).
  { unfold segment. cbn zeta. rewrite Hc, Hx. unfold block_log.
    destruct x as [ | code | msg | msg]; try reflexivity.
    destruct (Hclass msg eq_refl). }
  assert (Hout : group_outcome w cfg g (h ++ before w cfg g h)%list = inl x).
  { unfold group_outcome. cbn zeta. rewrite Hc, Hx.
    destruct x as [ | code | msg | msg]; try reflexivity.
    destruct (Hclass msg eq_refl). }
  unfold poll_pass.
  destruct g; unfold before in *; cbv beta iota zeta in *;
    rewrite ?app_nil_r, <- ?app_assoc in Hout, Hseg.
  - rewrite modbusrun_bind, modbusrun_group_run, Hout, Hseg. reflexivity.
  - pose proof (Hbefore ModbusClient.Coils ltac:(cbn; lia)) as H1.
    cbv beta iota zeta in H1. rewrite app_nil_r in H1.
    rewrite modbusrun_bind, modbusrun_group_run, H1.
    rewrite modbusrun_bind, modbusrun_group_run, Hout, Hseg.
    rewrite <- !app_assoc. reflexivity.
  - pose proof (Hbefore ModbusClient.Coils ltac:(cbn; lia)) as H1.
    pose proof (Hbefore ModbusClient.Discretes ltac:(cbn; lia)) as H2.
    cbv beta iota zeta in H1, H2. rewrite app_nil_r in H1.
    rewrite modbusrun_bind, modbusrun_group_run, H1.
    rewrite modbusrun_bind, modbusrun_group_run, H2.
    rewrite modbusrun_bind, modbusrun_group_run. rewrite <- ?app_assoc.
    rewrite Hout, Hseg. reflexivity.
  - pose proof (Hbefore ModbusClient.Coils ltac:(cbn; lia)) as H1.
    pose proof (Hbefore ModbusClient.Discretes ltac:(cbn; lia)) as H2.
    pose proof (Hbefore ModbusClient.HoldingRegisters ltac:(cbn; lia)) as H3.
    cbv beta iota zeta in H1, H2, H3. rewrite app_nil_r in H1.
    rewrite <- ?app_assoc in H3.
    rewrite modbusrun_bind, modbusrun_group_run, H1.
    rewrite modbusrun_bind, modbusrun_group_run, H2.
    rewrite modbusrun_bind, modbusrun_group_run. rewrite <- ?app_assoc. rewrite H3.
    rewrite modbusrun_bind, modbusrun_group_run. rewrite <- ?app_assoc.
    rewrite Hout, Hseg. reflexivity.
Qed.

Lemma modbus_pass_uncaught_witness :
  poll_pass disconnected_world ModbusClient.example_config []
    = ([Io (Read ModbusClient.Coils 0 10
                 (inl (OtherException "Modbus Error: [Connection] Failed to connect")))],
       inl (OtherException "Modbus Error: [Connection] Failed to connect")).
Proof.
  apply (modbus_pass_uncaught disconnected_world ModbusClient.example_config
           ModbusClient.Coils []
           (OtherException "Modbus Error: [Connection] Failed to connect")).
  - reflexivity.
  - intros g' H. cbn in H. lia.
  - reflexivity.
  - intros msg H. discriminate H.
Defined.

End ModbusRunProperties.

Section BacnetRunFacts.
Import Eff Trace PyFloat BacnetClientRun.
Local Open Scope string_scope.

Variable app : application.

Lemma bacrun_bind {A B : Type} (m : prog A) (k : A -> prog B) (h : list event) :
  bind m k h
    = match m h with
      | (h1, inl x) => (h1, inl x)
      | (h1, inr a) => k a h1
      end.
Proof. reflexivity. Qed.

(** [read_prop], event by event. *)
Lemma bacrun_read_run (target obj_type : string) (obj_inst : Z) (prop_id : string)
      (h : list event) :
  read_prop app target obj_type obj_inst prop_id h
    = ((h ++ read_events app (ReadPropertyRequest obj_type obj_inst prop_id target) h)%list,
       read_result app (ReadPropertyRequest obj_type obj_inst prop_id target) h).
Proof.
  unfold read_prop, read_events, read_result, bind, request_io, wait, cast_out,
    Eff.call, log, emit, ret.
  cbn zeta.
  destruct (io_answer app h _) as [x | []]; [ reflexivity | ].
  destruct (wait_answer app _ _) as [x | io]; [ rewrite <- app_assoc; reflexivity | ].
  destruct (ioError io) as [err | ]; [ rewrite <- !app_assoc; reflexivity | ].
  destruct (ioResponse io) as [[] | ]; [ | rewrite <- !app_assoc; reflexivity ].
  destruct (cast_answer app _) as [x | v]; rewrite <- !app_assoc; reflexivity.
Qed.

(** [write_prop] of a value that packs as itself, event by event. *)
Lemma bacrun_write_run (target obj_type : string) (obj_inst : Z) (prop_id : string)
      (v : float) (h : list event) :
  pack_real v = ret v ->
  write_prop app target obj_type obj_inst prop_id v h
    = ((h ++ write_events app (WritePropertyRequest obj_type obj_inst prop_id v target) h)%list,
       write_result app (WritePropertyRequest obj_type obj_inst prop_id v target) h).
Proof.
  intros Hp. unfold write_prop. rewrite bacrun_bind, Hp. unfold ret at 1.
  unfold write_events, write_result, bind, request_io, wait, Eff.call, log, emit, ret.
  cbn zeta.
  destruct (io_answer app h _) as [x | []]; [ reflexivity | ].
  destruct (wait_answer app _ _) as [x | io]; [ rewrite <- app_assoc; reflexivity | ].
  destruct (ioError io) as [err | ]; rewrite <- !app_assoc; reflexivity.
Qed.

Lemma bacrun_clear_run (read_only : bool) (cfg : config) (alarm_val : option real)
      (h : list event) :
  clear_alarm_if_active read_only cfg app alarm_val h
    = ((h ++ clear_events read_only cfg app alarm_val h)%list,
       clear_result read_only cfg app alarm_val h).
Proof.
  unfold clear_alarm_if_active, clear_events, clear_result, reads_active.
  destruct read_only; cbn [negb andb]; [ unfold ret; rewrite app_nil_r; reflexivity | ].
  destruct alarm_val as [alarm | ]; [ | unfold ret; rewrite app_nil_r; reflexivity ].
  unfold try_except. cbn zeta.
  destruct (feq (value alarm) (of_Z 1)); [ | unfold ret; rewrite app_nil_r; reflexivity ].
  rewrite bacrun_bind. unfold log at 1, emit at 1.
  rewrite bacrun_bind, (bacrun_write_run _ _ _ _ (of_Z 0) _ eq_refl).
  fold (alarm_clear cfg).
  destruct (write_result app (alarm_clear cfg) _) as [[msg | class msg] | [ | ]].
  - unfold ret. rewrite app_nil_r, <- app_assoc. reflexivity.
  - rewrite app_nil_r, <- app_assoc. reflexivity.
  - unfold log, emit. rewrite <- !app_assoc. reflexivity.
  - unfold ret. rewrite app_nil_r, <- app_assoc. reflexivity.
Qed.

(** [main], block by block. *)
Lemma bacrun_main_run (read_only : bool) (cfg : config) (h : list event) :
  main read_only cfg app h
    = let t1 := read_events app (level_read cfg) h in
      match read_result app (level_read cfg) h with
      | inl x => ((h ++ t1)%list, inl x)
      | inr v1 =>
          let h1 := (h ++ t1 ++ [Log INFO (level_line v1)])%list in
          let t2 := read_events app (temp_read cfg) h1 in
          match read_result app (temp_read cfg) h1 with
          | inl x => ((h1 ++ t2)%list, inl x)
          | inr v2 =>
              let h2 := (h1 ++ t2 ++ [Log INFO (temp_line v2)])%list in
              let t3 := read_events app (alarm_read cfg) h2 in
              match read_result app (alarm_read cfg) h2 with
              | inl x => ((h2 ++ t3)%list, inl x)
              | inr v3 =>
                  let h3 := (h2 ++ t3 ++ [Log INFO (alarm_line v3)])%list in
                  let t4 := clear_events read_only cfg app v3 h3 in
                  match clear_result read_only cfg app v3 h3 with
                  | inl x => ((h3 ++ t4)%list, inl x)
                  | inr _ => ((h3 ++ t4 ++ [Io Stop])%list, inr tt)
                  end
              end
          end
      end.
Proof.
  unfold main. cbn zeta.
  rewrite bacrun_bind, bacrun_read_run. fold (level_read cfg).
  destruct (read_result app (level_read cfg) h) as [x | v1]; [ reflexivity | ].
  rewrite bacrun_bind. unfold log at 1, emit at 1.
  rewrite bacrun_bind, bacrun_read_run. fold (temp_read cfg).
  rewrite <- (app_assoc h).
  destruct (read_result app (temp_read cfg) _) as [x | v2]; [ reflexivity | ].
  rewrite bacrun_bind. unfold log at 1, emit at 1.
  rewrite bacrun_bind, bacrun_read_run. fold (alarm_read cfg).
  rewrite <- (app_assoc _ _ [Log INFO (temp_line v2)]).
  destruct (read_result app (alarm_read cfg) _) as [x | v3]; [ reflexivity | ].
  rewrite bacrun_bind. unfold log at 1, emit at 1.
  rewrite bacrun_bind, bacrun_clear_run.
  rewrite <- (app_assoc _ _ [Log INFO (alarm_line v3)]).
  destruct (clear_result read_only cfg app v3 _) as [x | []]; [ reflexivity | ].
  unfold stop, emit. rewrite <- app_assoc. reflexivity.
Qed.

End BacnetRunFacts.

Section BacnetRunSegments.
Import Eff Trace PyFloat BacnetClientRun.
Local Open Scope string_scope.

Variable app : application.

(** The six ways a [read_prop] can go. *)
Lemma bacrun_read_shape (req : request) (h : list event) :
  (exists x,
      read_events app req h = [Io (RequestIo req (inl x))]
      /\ read_result app req h = inl x)
  \/ (exists x,
         read_events app req h = [Io (RequestIo req (inr tt)); Io (Wait req (inl x))]
         /\ read_result app req h = inl x)
  \/ (exists io err,
         ioError io = Some err
         /\ read_events app req h
            = [Io (RequestIo req (inr tt)); Io (Wait req (inr io));
               Log ERROR ("Read error: " ++ err)]
         /\ read_result app req h = inr None)
  \/ (exists io,
         ioError io = None /\ ioResponse io = None
         /\ read_events app req h
            = [Io (RequestIo req (inr tt)); Io (Wait req (inr io));
               Log ERROR "No response from server."]
         /\ read_result app req h = inr None)
  \/ (exists io x,
         ioError io = None /\ ioResponse io = Some tt
         /\ read_events app req h
            = [Io (RequestIo req (inr tt)); Io (Wait req (inr io)); Io (CastOut (inl x))]
         /\ read_result app req h = inl x)
  \/ (exists io v,
         ioError io = None /\ ioResponse io = Some tt
         /\ read_events app req h
            = [Io (RequestIo req (inr tt)); Io (Wait req (inr io)); Io (CastOut (inr v))]
         /\ read_result app req h = inr (Some v)).
Proof.
  unfold read_events, read_result. cbn zeta.
  destruct (io_answer app h req) as [x | []]; [ left; eauto | right ].
  destruct (wait_answer app _ req) as [x | io]; [ left; eauto | right ].
  destruct (ioError io) as [err | ] eqn:Ee; [ left; eauto | right ].
  destruct (ioResponse io) as [[] | ] eqn:Er; [ right | left; eauto ].
  destruct (cast_answer app _) as [x | v]; [ left | right ]; eauto 10.
Qed.

(** The four ways a [write_prop] can go once the value is packed. *)
Lemma bacrun_write_shape (req : request) (h : list event) :
  (exists x,
      write_events app req h = [Io (RequestIo req (inl x))]
      /\ write_result app req h = inl x)
  \/ (exists x,
         write_events app req h = [Io (RequestIo req (inr tt)); Io (Wait req (inl x))]
         /\ write_result app req h = inl x)
  \/ (exists io err,
         ioError io = Some err
         /\ write_events app req h
            = [Io (RequestIo req (inr tt)); Io (Wait req (inr io));
               Log ERROR ("Write error: " ++ err)]
         /\ write_result app req h = inr false)
  \/ (exists io,
         ioError io = None
         /\ write_events app req h = [Io (RequestIo req (inr tt)); Io (Wait req (inr io))]
         /\ write_result app req h = inr true).
Proof.
  unfold write_events, write_result. cbn zeta.
  destruct (io_answer app h req) as [x | []]; [ left; eauto | right ].
  destruct (wait_answer app _ req) as [x | io]; [ left; eauto | right ].
  destruct (ioError io) as [err | ] eqn:Ee; [ left | right ]; eauto 10.
Qed.

Lemma bacrun_requests_app (l1 l2 : list event) :
  requests (l1 ++ l2) = (requests l1 ++ requests l2)%list.
Proof.
  induction l1 as [ | e l1 IH]; [ reflexivity | ].
  destruct e as [lvl msg | [req a | req a | a | ] | k]; cbn; rewrite ?IH; reflexivity.
Qed.

Lemma bacrun_recorded_app (l1 l2 : list event) :
  recorded l1 -> recorded l2 -> recorded (l1 ++ l2).
Proof.
  intros H1 H2 req io Hin e He. apply in_app_iff.
  apply in_app_iff in Hin as [Hin | Hin].
  - left. exact (H1 _ _ Hin e He).
  - right. exact (H2 _ _ Hin e He).
Qed.

Lemma bacrun_recorded_quiet (l : list event) :
  (forall req io, ~ In (Io (Wait req (inr io))) l) -> recorded l.
Proof. intros H req io Hin. destruct (H _ _ Hin). Qed.

(** *** What a read appends *)

Lemma bacrun_read_requests (req : request) (h : list event) :
  requests (read_events app req h) = [req].
Proof.
  destruct (bacrun_read_shape req h)
    as [(x & -> & _) | [(x & -> & _) | [(io & err & _ & -> & _)
       | [(io & _ & _ & -> & _) | [(io & x & _ & _ & -> & _) | (io & v & _ & _ & -> & _)]]]]];
    reflexivity.
Qed.

Lemma bacrun_read_stops (req : request) (h : list event) :
  count is_stop (read_events app req h) = 0%nat.
Proof.
  destruct (bacrun_read_shape req h)
    as [(x & -> & _) | [(x & -> & _) | [(io & err & _ & -> & _)
       | [(io & _ & _ & -> & _) | [(io & x & _ & _ & -> & _) | (io & v & _ & _ & -> & _)]]]]];
    reflexivity.
Qed.

Lemma bacrun_read_recorded (req : request) (h : list event) :
  is_write req = false -> recorded (read_events app req h).
Proof.
  intros Hreq.
  destruct (bacrun_read_shape req h)
    as [(x & -> & _) | [(x & -> & _) | [(io & err & Ee & -> & _)
       | [(io & Ee & Er & -> & _) | [(io & x & Ee & Er & -> & _)
         | (io & v & Ee & Er & -> & _)]]]]];
    intros req' io' Hin e He; cbn in Hin;
    repeat (destruct Hin as [Hin | Hin]; try discriminate Hin); try contradiction;
    injection Hin as <- <-; unfold wait_log in He; rewrite Ee, ?Er, ?Hreq in He;
    cbn in He; try contradiction;
    destruct He as [<- | []]; cbn; tauto.
Qed.

Lemma bacrun_read_errors (req : request) (h : list event) :
  is_write req = false ->
  count is_error_record (read_events app req h)
    = count is_reported_failure (read_events app req h).
Proof.
  intros Hreq.
  destruct (bacrun_read_shape req h)
    as [(x & -> & _) | [(x & -> & _) | [(io & err & Ee & -> & _)
       | [(io & Ee & Er & -> & _) | [(io & x & Ee & Er & -> & _)
         | (io & v & Ee & Er & -> & _)]]]]];
    unfold count; cbn; unfold reported_failure; rewrite ?Ee, ?Er, ?Hreq; reflexivity.
Qed.

(** A read that raises ends with the call that raised, and writes no
    record. *)
Lemma bacrun_read_raises (req : request) (h : list event) (x : exception) :
  read_result app req h = inl x ->
  (exists tr0 c, read_events app req h = (tr0 ++ [Io c])%list /\ raised_by c = Some x)
  /\ count is_record (read_events app req h) = 0%nat.
Proof.
  destruct (bacrun_read_shape req h)
    as [(y & -> & ->) | [(y & -> & ->) | [(io & err & _ & -> & ->)
       | [(io & _ & _ & -> & ->) | [(io & y & _ & _ & -> & ->)
         | (io & v & _ & _ & -> & ->)]]]]];
    intros [= <-]; (split; [ | reflexivity ]).
  - exists [], (RequestIo req (inl y)). split; reflexivity.
  - exists [Io (RequestIo req (inr tt))], (Wait req (inl y)). split; reflexivity.
  - exists [Io (RequestIo req (inr tt)); Io (Wait req (inr io))], (CastOut (inl y)).
    split; reflexivity.
Qed.

Lemma bacrun_read_returns (req : request) (h : list event) :
  count is_raising_call (read_events app req h) = 0%nat ->
  exists v, read_result app req h = inr v.
Proof.
  destruct (bacrun_read_shape req h)
    as [(y & -> & ->) | [(y & -> & ->) | [(io & err & _ & -> & ->)
       | [(io & _ & _ & -> & ->) | [(io & y & _ & _ & -> & ->)
         | (io & v & _ & _ & -> & ->)]]]]];
    intros H; try discriminate H; eauto.
Qed.

(** *** What the alarm-clear block appends *)

Lemma bacrun_clear_requests (read_only : bool) (cfg : config) (v : option real)
      (h : list event) :
  requests (clear_events read_only cfg app v h)
    = if negb read_only && reads_active v then [alarm_clear cfg] else [].
Proof.
  unfold clear_events. destruct (negb read_only && reads_active v); [ | reflexivity ].
  cbn [requests]. rewrite bacrun_requests_app.
  set (h1 := (h ++ _)%list).
  destruct (bacrun_write_shape (alarm_clear cfg) h1)
    as [(x & -> & ->) | [(x & -> & ->) | [(io & err & _ & -> & ->) | (io & _ & -> & ->)]]];
    reflexivity.
Qed.

Lemma bacrun_clear_stops (read_only : bool) (cfg : config) (v : option real)
      (h : list event) :
  count is_stop (clear_events read_only cfg app v h) = 0%nat.
Proof.
  unfold clear_events. destruct (negb read_only && reads_active v); [ | reflexivity ].
  rewrite count_cons, count_app. set (h1 := (h ++ _)%list).
  destruct (bacrun_write_shape (alarm_clear cfg) h1)
    as [(x & -> & ->) | [(x & -> & ->) | [(io & err & _ & -> & ->) | (io & _ & -> & ->)]]];
    reflexivity.
Qed.

Lemma bacrun_clear_recorded (read_only : bool) (cfg : config) (v : option real)
      (h : list event) :
  recorded (clear_events read_only cfg app v h).
Proof.
  unfold clear_events.
  destruct (negb read_only && reads_active v); [ | intros req io [] ].
  set (h1 := (h ++ _)%list).
  destruct (bacrun_write_shape (alarm_clear cfg) h1)
    as [(x & -> & ->) | [(x & -> & ->) | [(io & err & Ee & -> & ->) | (io & Ee & -> & ->)]]];
    intros req' io' Hin e He; cbn in Hin;
    repeat (destruct Hin as [Hin | Hin]; try discriminate Hin); try contradiction;
    injection Hin as <- <-; unfold wait_log in He; rewrite Ee in He; cbn in He.
  - destruct He as [<- | []]. cbn. tauto.
  - destruct (ioResponse io); destruct He.
Qed.

Lemma bacrun_clear_errors (read_only : bool) (cfg : config) (v : option real)
      (h : list event) :
  count is_error_record (clear_events read_only cfg app v h)
    = count is_reported_failure (clear_events read_only cfg app v h).
Proof.
  unfold clear_events. destruct (negb read_only && reads_active v); [ | reflexivity ].
  set (h1 := (h ++ _)%list).
  destruct (bacrun_write_shape (alarm_clear cfg) h1)
    as [(x & -> & ->) | [(x & -> & ->) | [(io & err & Ee & -> & ->) | (io & Ee & -> & ->)]]];
    unfold count; cbn; unfold reported_failure; rewrite ?Ee; cbn;
    try reflexivity.
  destruct (ioResponse io); reflexivity.
Qed.

(** The block raises only what a call of the write raised, and never a
    [ValueError]. *)
Lemma bacrun_clear_raises (read_only : bool) (cfg : config) (v : option real)
      (h : list event) (x : exception) :
  clear_result read_only cfg app v h = inl x ->
  (exists tr0 c,
      clear_events read_only cfg app v h = (tr0 ++ [Io c])%list /\ raised_by c = Some x)
  /\ (forall msg, x <> ValueError msg).
Proof.
  unfold clear_events, clear_result.
  destruct (negb read_only && reads_active v); [ | discriminate ].
  set (h1 := (h ++ _)%list).
  destruct (bacrun_write_shape (alarm_clear cfg) h1)
    as [(y & -> & ->) | [(y & -> & ->) | [(io & err & _ & -> & ->) | (io & _ & -> & ->)]]];
    try discriminate; destruct y as [msg | class msg]; try discriminate;
    intros [= <-]; (split; [ | intros msg' H; discriminate H ]).
  - eexists [_], _. split; reflexivity.
  - eexists [_; _], _. split; reflexivity.
Qed.

End BacnetRunSegments.

Section BacnetRunMain.
Import Eff Trace PyFloat BacnetClientRun.
Local Open Scope string_scope.

Variable app : application.
Variable cfg : config.
Variable read_only : bool.

Lemma bacrun_sound_app (l1 l2 : list event) :
  sound l1 -> sound l2 -> sound (l1 ++ l2).
Proof.
  intros (R1 & E1 & S1) (R2 & E2 & S2). split; [ | split ].
  - apply bacrun_recorded_app; assumption.
  - rewrite !count_app, E1, E2. reflexivity.
  - rewrite count_app, S1, S2. reflexivity.
Qed.

Lemma bacrun_sound_read (req : request) (h : list event) :
  is_write req = false -> sound (read_events app req h).
Proof.
  intros Hreq. split; [ | split ].
  - apply bacrun_read_recorded, Hreq.
  - apply bacrun_read_errors, Hreq.
  - apply bacrun_read_stops.
Qed.

Lemma bacrun_sound_info (line : string) : sound [Log INFO line].
Proof.
  split; [ | split; reflexivity ].
  intros req io [H | []]. discriminate H.
Qed.

Lemma bacrun_sound_clear (v : option real) (h : list event) :
  sound (clear_events read_only cfg app v h).
Proof.
  split; [ | split ].
  - apply bacrun_clear_recorded.
  - apply bacrun_clear_errors.
  - apply bacrun_clear_stops.
Qed.

(** The two ways [main] can end: with [stop()] as its last action, or
    with the exception a call into bacpypes raised, that call being
    its last event. *)
Lemma bacrun_main_shape :
  exists body,
    sound body /\
    (main read_only cfg app [] = ((body ++ [Io Stop])%list, inr tt)
     \/ exists x tr0 c,
          main read_only cfg app [] = (body, inl x)
          /\ body = (tr0 ++ [Io c])%list /\ raised_by c = Some x).
Proof.
  rewrite bacrun_main_run. cbn zeta. cbn [List.app].
  pose proof (bacrun_sound_read (level_read cfg) [] eq_refl) as S1.
  destruct (read_result app (level_read cfg) []) as [x | v1] eqn:R1.
  { eexists. split; [ exact S1 | right ].
    destruct (bacrun_read_raises app _ _ _ R1) as [(tr0 & c & E & Hc) _].
    exists x, tr0, c. repeat split; assumption. }
  set (h1 := (read_events app (level_read cfg) [] ++ [Log INFO (level_line v1)])%list).
  assert (Sh1 : sound h1)
    by (apply bacrun_sound_app; [ exact S1 | apply bacrun_sound_info ]).
  pose proof (bacrun_sound_read (temp_read cfg) h1 eq_refl) as S2.
  destruct (read_result app (temp_read cfg) h1) as [x | v2] eqn:R2.
  { eexists. split; [ apply bacrun_sound_app; [ exact Sh1 | exact S2 ] | right ].
    destruct (bacrun_read_raises app _ _ _ R2) as [(tr0 & c & E & Hc) _].
    exists x, (h1 ++ tr0)%list, c. rewrite E, app_assoc. repeat split. exact Hc. }
  set (h2 := (h1 ++ read_events app (temp_read cfg) h1 ++ [Log INFO (temp_line v2)])%list).
  assert (Sh2 : sound h2).
  { apply bacrun_sound_app; [ exact Sh1 | ].
    apply bacrun_sound_app; [ exact S2 | apply bacrun_sound_info ]. }
  pose proof (bacrun_sound_read (alarm_read cfg) h2 eq_refl) as S3.
  destruct (read_result app (alarm_read cfg) h2) as [x | v3] eqn:R3.
  { eexists. split; [ apply bacrun_sound_app; [ exact Sh2 | exact S3 ] | right ].
    destruct (bacrun_read_raises app _ _ _ R3) as [(tr0 & c & E & Hc) _].
    exists x, (h2 ++ tr0)%list, c. rewrite E, app_assoc. repeat split. exact Hc. }
  set (h3 := (h2 ++ read_events app (alarm_read cfg) h2 ++ [Log INFO (alarm_line v3)])%list).
  assert (Sh3 : sound h3).
  { apply bacrun_sound_app; [ exact Sh2 | ].
    apply bacrun_sound_app; [ exact S3 | apply bacrun_sound_info ]. }
  pose proof (bacrun_sound_clear v3 h3) as S4.
  destruct (clear_result read_only cfg app v3 h3) as [x | []] eqn:R4.
  { eexists. split; [ apply bacrun_sound_app; [ exact Sh3 | exact S4 ] | right ].
    destruct (bacrun_clear_raises app _ _ _ _ _ R4) as [(tr0 & c & E & Hc) _].
    exists x, (h3 ++ tr0)%list, c. rewrite E, app_assoc. repeat split. exact Hc. }
  exists (h3 ++ clear_events read_only cfg app v3 h3)%list.
  split; [ apply bacrun_sound_app; [ exact Sh3 | exact S4 ] | left ].
  rewrite <- app_assoc. reflexivity.
Qed.

(** The requests of a run, by the way the reads end. *)
Lemma bacrun_main_requests :
  requests (trace (main read_only cfg app))
    = match read_result app (level_read cfg) [] with
      | inl _ => [level_read cfg]
      | inr v1 =>
          let h1 := (read_events app (level_read cfg) []
                       ++ [Log INFO (level_line v1)])%list in
          match read_result app (temp_read cfg) h1 with
          | inl _ => [level_read cfg; temp_read cfg]
          | inr v2 =>
              let h2 := (h1 ++ read_events app (temp_read cfg) h1
                            ++ [Log INFO (temp_line v2)])%list in
              match read_result app (alarm_read cfg) h2 with
              | inl _ => reads_in_order cfg
              | inr v3 =>
                  (reads_in_order cfg
                     ++ (if negb read_only && reads_active v3
                         then [alarm_clear cfg] else []))%list
              end
          end
      end.
Proof.
  unfold trace. rewrite bacrun_main_run. cbn zeta. cbn [List.app]. unfold reads_in_order.
  destruct (read_result app (level_read cfg) []) as [x | v1]; cbn [fst].
  { apply bacrun_read_requests. }
  set (h1 := (read_events app (level_read cfg) [] ++ [Log INFO (level_line v1)])%list).
  assert (Q1 : requests h1 = [level_read cfg]).
  { unfold h1. rewrite bacrun_requests_app, bacrun_read_requests. reflexivity. }
  destruct (read_result app (temp_read cfg) h1) as [x | v2]; cbn [fst].
  { rewrite bacrun_requests_app, Q1, bacrun_read_requests. reflexivity. }
  set (h2 := (h1 ++ read_events app (temp_read cfg) h1 ++ [Log INFO (temp_line v2)])%list).
  assert (Q2 : requests h2 = [level_read cfg; temp_read cfg]).
  { unfold h2. rewrite !bacrun_requests_app, Q1, bacrun_read_requests. reflexivity. }
  destruct (read_result app (alarm_read cfg) h2) as [x | v3]; cbn [fst].
  { rewrite bacrun_requests_app, Q2, bacrun_read_requests. reflexivity. }
  set (h3 := (h2 ++ read_events app (alarm_read cfg) h2 ++ [Log INFO (alarm_line v3)])%list).
  assert (Q3 : requests h3 = [level_read cfg; temp_read cfg; alarm_read cfg]).
  { unfold h3. rewrite !bacrun_requests_app, Q2, bacrun_read_requests. reflexivity. }
  destruct (clear_result read_only cfg app v3 h3) as [x | []]; cbn [fst];
    rewrite ?bacrun_requests_app, Q3, bacrun_clear_requests;
    destruct (negb read_only && reads_active v3); reflexivity.
Qed.

End BacnetRunMain.

Section BacnetRunProperties.
Import Eff Trace PyFloat BacnetClientRun.
Local Open Scope string_scope.









(** How a run ends, by the way the reads end. *)
Lemma bacrun_main_outcome (read_only : bool) (cfg : config) (app : application) :
  outcome (main read_only cfg app)
    = match read_result app (level_read cfg) [] with
      | inl x => inl x
      | inr v1 =>
          let h1 := (read_events app (level_read cfg) []
                       ++ [Log INFO (level_line v1)])%list in
          match read_result app (temp_read cfg) h1 with
          | inl x => inl x
          | inr v2 =>
              let h2 := (h1 ++ read_events app (temp_read cfg) h1
                            ++ [Log INFO (temp_line v2)])%list in
              match read_result app (alarm_read cfg) h2 with
              | inl x => inl x
              | inr v3 =>
                  clear_result read_only cfg app v3
                    (h2 ++ read_events app (alarm_read cfg) h2
                        ++ [Log INFO (alarm_line v3)])%list
              end
          end
      end.
Proof.
  unfold outcome. rewrite bacrun_main_run. cbn zeta. cbn [List.app].
  destruct (read_result app (level_read cfg) []) as [x | v1]; [ reflexivity | ].
  destruct (read_result app (temp_read cfg) _) as [x | v2]; [ reflexivity | ].
  destruct (read_result app (alarm_read cfg) _) as [x | v3]; [ reflexivity | ].
  destruct (clear_result read_only cfg app v3 _) as [x | []]; reflexivity.
Qed.

Lemma bacrun_raising_hit (tr0 : list event) (c : call) (x : exception) :
  raised_by c = Some x -> (1 <= count is_raising_call (tr0 ++ [Io c]))%nat.
Proof.
  intros H. apply count_hit. unfold is_raising_call. rewrite H. reflexivity.
Qed.

(** X7. [main] sends its reads in the order level, temperature, alarm,
    the level read in every run, and a later read only after the
    earlier ones.  A read that the I/O control block reports as failed
    does not prevent the later reads: all three are sent in every run
    in which no call into bacpypes raises, and in every run that
    returns.  A read that raises ends [main] before the later reads. *)
Theorem main_reads_in_order (read_only : bool) (cfg : config) (app : application) :
  (exists k, (1 <= k <= 3)%nat /\
             read_requests (trace (main read_only cfg app))
               = List.firstn k (reads_in_order cfg)) /\
  (count is_raising_call (trace (main read_only cfg app)) = 0%nat ->
   read_requests (trace (main read_only cfg app)) = reads_in_order cfg) /\
  (outcome (main read_only cfg app) = inr tt ->
   read_requests (trace (main read_only cfg app)) = reads_in_order cfg) /\
  (forall x, read_result app (level_read cfg) [] = inl x ->
             requests (trace (main read_only cfg app)) = [level_read cfg]
             /\ outcome (main read_only cfg app) = inl x).
Proof.
  assert (Hret : outcome (main read_only cfg app) = inr tt ->
                 read_requests (trace (main read_only cfg app)) = reads_in_order cfg).
  { unfold read_requests. rewrite bacrun_main_requests, bacrun_main_outcome. cbn zeta.
    destruct (read_result app (level_read cfg) []) as [x | v1]; [ discriminate | ].
    destruct (read_result app (temp_read cfg) _) as [x | v2]; [ discriminate | ].
    destruct (read_result app (alarm_read cfg) _) as [x | v3]; [ discriminate | ].
    intros _. destruct (negb read_only && reads_active v3); reflexivity. }
  split; [ | split; [ | split; [ exact Hret | ] ] ].
  - unfold read_requests. rewrite bacrun_main_requests. cbn zeta.
    destruct (read_result app (level_read cfg) []) as [x | v1].
    { exists 1%nat. split; [ lia | reflexivity ]. }
    destruct (read_result app (temp_read cfg) _) as [x | v2].
    { exists 2%nat. split; [ lia | reflexivity ]. }
    exists 3%nat. split; [ lia | ].
    destruct (read_result app (alarm_read cfg) _) as [x | v3]; [ reflexivity | ].
    destruct (negb read_only && reads_active v3); reflexivity.
  - intros Hquiet. apply Hret. unfold outcome. revert Hquiet. unfold trace.
    destruct (bacrun_main_shape app cfg read_only)
      as (body & _ & [-> | (x & tr0 & c & -> & -> & Hc)]); cbn [fst snd];
      [ reflexivity | ].
    intros Hquiet. pose proof (bacrun_raising_hit tr0 c x Hc). lia.
  - intros x Hx. rewrite bacrun_main_requests, bacrun_main_outcome, Hx.
    split; reflexivity.
Qed.

Lemma main_reads_in_order_witness :
  read_requests (trace (main true example_config timing_out))
    = reads_in_order example_config /\
  requests (trace (main true example_config bacpypes_application))
    = [level_read example_config].
Proof.
  destruct (main_reads_in_order true example_config timing_out) as (_ & _ & Hret & _).
  destruct (main_reads_in_order true example_config bacpypes_application)
    as (_ & _ & _ & Hfirst).
  split.
  - apply Hret. vm_compute. reflexivity.
  - apply (Hfirst (OtherException "TypeError" "IOCB expected")). reflexivity.
Defined.

(** X8. [main] ends in one of two ways.  It returns after calling
    [stop()] exactly once, as its last action; or it leaves with the
    exception that a call into bacpypes raised, that call being its
    last event, and [stop()] has not been called.  A [ValueError] that
    leaves [main] was raised by one of the reads: one raised while the
    alarm is cleared is dropped by [except ValueError: pass]. *)
Theorem main_stop_or_exception (read_only : bool) (cfg : config) (app : application) :
  (outcome (main read_only cfg app) = inr tt ->
   exists body,
     trace (main read_only cfg app) = (body ++ [Io Stop])%list
     /\ count is_stop body = 0%nat) /\
  (forall x,
      outcome (main read_only cfg app) = inl x ->
      count is_stop (trace (main read_only cfg app)) = 0%nat /\
      exists tr0 c,
        trace (main read_only cfg app) = (tr0 ++ [Io c])%list /\ raised_by c = Some x) /\
  (forall msg,
      outcome (main read_only cfg app) = inl (ValueError msg) ->
      write_requests (trace (main read_only cfg app)) = []).
Proof.
  split; [ | split ].
  - unfold outcome, trace.
    destruct (bacrun_main_shape app cfg read_only)
      as (body & (_ & _ & Hstop) & [-> | (x & tr0 & c & -> & _ & _)]); cbn [fst snd].
    + intros _. exists body. split; [ reflexivity | exact Hstop ].
    + discriminate.
  - unfold outcome, trace.
    destruct (bacrun_main_shape app cfg read_only)
      as (body & (_ & _ & Hstop) & [-> | (y & tr0 & c & -> & E & Hc)]); cbn [fst snd].
    + discriminate.
    + intros x [= <-]. split; [ exact Hstop | ]. exists tr0, c. split; assumption.
  - intros msg. unfold write_requests.
    rewrite bacrun_main_requests, bacrun_main_outcome. cbn zeta.
    destruct (read_result app (level_read cfg) []) as [x | v1]; [ reflexivity | ].
    destruct (read_result app (temp_read cfg) _) as [x | v2]; [ reflexivity | ].
    destruct (read_result app (alarm_read cfg) _) as [x | v3]; [ reflexivity | ].
    intros H. exfalso.
    destruct (bacrun_clear_raises app _ _ _ _ _ H) as [_ Hnot].
    exact (Hnot msg eq_refl).
Qed.

Lemma main_stop_or_exception_witness :
  count is_stop (trace (main false example_config enumerated_alarm)) = 0%nat /\
  outcome (main false example_config enumerated_alarm)
    = inl (OtherException "InvalidTag" "real application tag required") /\
  exists body, trace (main false example_config timing_out) = (body ++ [Io Stop])%list.
Proof.
  destruct (main_stop_or_exception false example_config enumerated_alarm) as (_ & Hexc & _).
  destruct (main_stop_or_exception false example_config timing_out) as (Hret & _).
  assert (Hout : outcome (main false example_config enumerated_alarm)
                 = inl (OtherException "InvalidTag" "real application tag required"))
    by (vm_compute; reflexivity).
  split; [ apply (Hexc _ Hout) | ].
  split; [ exact Hout | ].
  destruct (Hret ltac:(vm_compute; reflexivity)) as (body & Hb & _).
  exists body. exact Hb.
Defined.

(** X26. The alarm-clear write is sent if and only if the client was
    not started with [--read-only], none of the three reads raised,
    and the alarm read returned a value that is [== 1.0] (exactly).  A
    run sends at most one write, and it is the write of [0.0] to the
    [presentValue] of the alarm object. *)
Theorem alarm_clear_write_issued (read_only : bool) (cfg : config) (app : application) :
  (write_requests (trace (main read_only cfg app)) = []
   \/ write_requests (trace (main read_only cfg app)) = [alarm_clear cfg]) /\
  (write_requests (trace (main read_only cfg app)) = [alarm_clear cfg] <->
   read_only = false /\
   exists v, alarm_seen cfg app = Some (Some v) /\ feq (value v) (PyFloat.of_Z 1) = true).
Proof.
  unfold write_requests, alarm_seen. rewrite bacrun_main_requests. cbn zeta.
  destruct (read_result app (level_read cfg) []) as [x | v1].
  { split; [ left; reflexivity | ].
    split; [ discriminate | intros (_ & v & H & _); discriminate H ]. }
  destruct (read_result app (temp_read cfg) _) as [x | v2].
  { split; [ left; reflexivity | ].
    split; [ discriminate | intros (_ & v & H & _); discriminate H ]. }
  destruct (read_result app (alarm_read cfg) _) as [x | v3].
  { split; [ left; reflexivity | ].
    split; [ discriminate | intros (_ & v & H & _); discriminate H ]. }
  destruct read_only; cbn [negb andb].
  { split; [ left; reflexivity | ].
    split; [ discriminate | intros (H & _); discriminate H ]. }
  destruct v3 as [v | ]; cbn [reads_active].
  2:{ split; [ left; reflexivity | ].
      split; [ discriminate | intros (_ & v & H & _); discriminate H ]. }
  destruct (feq (value v) (of_Z 1)) eqn:E.
  - split; [ right; reflexivity | ].
    split; [ intros _ | reflexivity ].
    split; [ reflexivity | ]. exists v. split; [ reflexivity | exact E ].
  - split; [ left; reflexivity | ].
    split; [ discriminate | ].
    intros (_ & v' & [= <-] & H). congruence.
Qed.

Lemma alarm_clear_write_issued_witness :
  write_requests (trace (main false example_config (answering one)))
    = [alarm_clear example_config] /\
  write_requests (trace (main true example_config (answering one))) = [].
Proof.
  split.
  - apply (proj2 (alarm_clear_write_issued false example_config (answering one))).
    split; [ reflexivity | ]. exists one. split; reflexivity.
  - destruct (proj1 (alarm_clear_write_issued true example_config (answering one)))
      as [H | H]; [ exact H | ].
    apply (proj2 (alarm_clear_write_issued true example_config (answering one))) in H.
    destruct H as [H _]. discriminate H.
Defined.

End BacnetRunProperties.
